(** * Party Up! LFG bot: the session lifecycle engine of [src/index.js]

    A shallow embedding of the matchmaking engine: the in-memory maps
    ([activeSessions], [userCreatedSessions], [voiceChannelOperations]),
    the [DatabaseStorage] wrapper over the three tables, the guarded
    voice-channel operations, the button and command handlers, the timer
    callbacks and the periodic sweeps.

    Conventions of the embedding.
    - A JavaScript [Map] keyed by strings is a [gmap string _]; the order
      in which a [Map] is iterated is not modelled, and no statement below
      depends on it.  A session object lives in [activeSessions]; a handler
      that holds a reference to it keeps a local copy and writes every
      assignment through to the entry it was read from (the handlers never
      assign to a session object after deleting it from the map, so both
      views agree).
    - An [async] function is a computation in the monad [M]: it reads an
      environment (clock, answers of the outside world), threads the
      [World] and either returns a value or throws.  A handler runs from
      its first statement to its last without interleaving, and the clock
      does not advance while it runs.
    - Every call that leaves the process (a drizzle query, a discord.js
      request) is an [Effect]; it is appended to the [trace] together with
      its success flag, and it throws when the environment says it fails.
      Reads of discord.js caches and of error codes are [Query]s: they are
      answered by the environment and leave no trace.
    - The construction of embeds and buttons computes texts only and is
      left out; what is sent is identified by the call that sends it. *)

From Stdlib Require Import Ascii.
From stdpp Require Import gmap strings list fin_maps pretty sorting.

(** ** Data model *)

(** [session.status]: the three strings the code ever assigns. *)
Inductive Status := waiting | confirming | active.

#[global] Instance Status_eq_dec : EqDecision Status.
Proof. solve_decision. Defined.

(** The in-memory session object (handleLfgCommand, lines 1237-1255). The
    [category] property is written once and never read; it is left out. *)
Record Session := mkSession {
  id : string;
  creator : string;
  guildId : string;
  channelId : string;
  messageId : option string;
  game : string;
  gamemode : string;
  playersNeeded : Z;
  info : option string;
  currentPlayers : list string;
  confirmedPlayers : list string;
  voiceChannel : option string;
  createdAt : Z;
  confirmationStartTime : option Z;
  status : Status;
  timeoutId : option nat
}.

Definition set_messageId (v : option string) (s : Session) : Session :=
  mkSession (id s) (creator s) (guildId s) (channelId s) v (game s) (gamemode s)
    (playersNeeded s) (info s) (currentPlayers s) (confirmedPlayers s)
    (voiceChannel s) (createdAt s) (confirmationStartTime s) (status s) (timeoutId s).

Definition set_currentPlayers (v : list string) (s : Session) : Session :=
  mkSession (id s) (creator s) (guildId s) (channelId s) (messageId s) (game s)
    (gamemode s) (playersNeeded s) (info s) v (confirmedPlayers s)
    (voiceChannel s) (createdAt s) (confirmationStartTime s) (status s) (timeoutId s).

Definition set_confirmedPlayers (v : list string) (s : Session) : Session :=
  mkSession (id s) (creator s) (guildId s) (channelId s) (messageId s) (game s)
    (gamemode s) (playersNeeded s) (info s) (currentPlayers s) v
    (voiceChannel s) (createdAt s) (confirmationStartTime s) (status s) (timeoutId s).

Definition set_confirmationStartTime (v : option Z) (s : Session) : Session :=
  mkSession (id s) (creator s) (guildId s) (channelId s) (messageId s) (game s)
    (gamemode s) (playersNeeded s) (info s) (currentPlayers s) (confirmedPlayers s)
    (voiceChannel s) (createdAt s) v (status s) (timeoutId s).

Definition set_status (v : Status) (s : Session) : Session :=
  mkSession (id s) (creator s) (guildId s) (channelId s) (messageId s) (game s)
    (gamemode s) (playersNeeded s) (info s) (currentPlayers s) (confirmedPlayers s)
    (voiceChannel s) (createdAt s) (confirmationStartTime s) v (timeoutId s).

Definition set_timeoutId (v : option nat) (s : Session) : Session :=
  mkSession (id s) (creator s) (guildId s) (channelId s) (messageId s) (game s)
    (gamemode s) (playersNeeded s) (info s) (currentPlayers s) (confirmedPlayers s)
    (voiceChannel s) (createdAt s) (confirmationStartTime s) (status s) v.

(** A row of the [lfg_sessions] table (schema, lines 54-73). *)
Record DbSession := mkDbSession {
  db_id : string;
  db_creatorId : string;
  db_guildId : string;
  db_channelId : string;
  db_messageId : option string;
  db_game : string;
  db_gamemode : string;
  db_playersNeeded : Z;
  db_info : option string;
  db_status : Status;
  db_currentPlayers : list string;
  db_confirmedPlayers : list string;
  db_voiceChannelId : option string;
  db_confirmationStartTime : option Z;
  db_createdAt : Z;
  db_updatedAt : Z;
  db_expiresAt : Z;
  db_isActive : bool
}.

(** The partial object handed to [storage.updateSession]: [None] is a
    property that is not mentioned, [Some None] a property set to [null]. *)
Record Updates := mkUpdates {
  u_currentPlayers : option (list string);
  u_status : option Status;
  u_messageId : option (option string);
  u_confirmationStartTime : option (option Z);
  u_voiceChannelId : option (option string)
}.

Definition no_updates : Updates := mkUpdates None None None None None.

(** [.set({ ...updates, updatedAt: new Date() })] on one row. *)
Definition apply_updates (u : Updates) (t : Z) (r : DbSession) : DbSession :=
  mkDbSession (db_id r) (db_creatorId r) (db_guildId r) (db_channelId r)
    (default (db_messageId r) (u_messageId u))
    (db_game r) (db_gamemode r) (db_playersNeeded r) (db_info r)
    (default (db_status r) (u_status u))
    (default (db_currentPlayers r) (u_currentPlayers u))
    (db_confirmedPlayers r)
    (default (db_voiceChannelId r) (u_voiceChannelId u))
    (default (db_confirmationStartTime r) (u_confirmationStartTime u))
    (db_createdAt r) t (db_expiresAt r) (db_isActive r).

(** [.set({ isActive: false, updatedAt: new Date() })] on one row. *)
Definition deactivate (t : Z) (r : DbSession) : DbSession :=
  mkDbSession (db_id r) (db_creatorId r) (db_guildId r) (db_channelId r)
    (db_messageId r) (db_game r) (db_gamemode r) (db_playersNeeded r) (db_info r)
    (db_status r) (db_currentPlayers r) (db_confirmedPlayers r)
    (db_voiceChannelId r) (db_confirmationStartTime r)
    (db_createdAt r) t (db_expiresAt r) false.

(** ** Calls that leave the process *)

Inductive Effect :=
  (* drizzle queries *)
  | DbInsertSession (sid : string)
  | DbSelectSession (sid : string)
  | DbUpdateSession (sid : string) (u : Updates)
  | DbDeactivateSession (sid : string)
  | DbSelectActiveSessions
  | DbSelectGuildSettings (g : string)
  | DbUpsertGuildSettings (g : string) (ch : option string)
  | DbDeactivateExpired
  | DbInsertUserSession (user sid : string)
  | DbSelectUserSession (user : string)
  | DbDeleteUserSession (user : string)
  (* interaction responses *)
  | DeferReply
  | DeferUpdate
  | Reply
  | EditReply
  | FollowUp
  | InteractionUpdate
  | InteractionMessageEdit
  (* channels and permissions *)
  | CategoryCreate (gameKey : string)
  | VoiceChannelCreate (ch : string)
  | ChannelFetch (ch : string)
  | ChannelDelete (ch : string)
  | CategoryDelete (ch : string)
  | PermissionEdit (ch user : string)
  | PermissionDelete (ch user : string)
  | VoiceDisconnect (user : string)
  | MemberFetch (user : string)
  (* messages *)
  | MessageFetch (ch msg : string)
  | MessagesFetch (ch : string) (limit : nat)
  | MessageEdit (ch : string)
  | ChannelSend (ch : string).

Inductive Query :=
  | GuildCached (g : string)                (* client.guilds.cache.get(g) *)
  | ChannelCached (g ch : string)           (* guild.channels.cache.get(ch) *)
  | BotCanManageChannels
  | BotCanCreateVoice
  | CategoryCached (gameKey : string)
  | CategoryNowEmpty (ch : string)          (* parent named with the pad emoji and without children *)
  | MemberCached (user : string)
  | MemberInVoice (user ch : string)        (* member.voice.channel?.id === ch *)
  | ErrorIsUnknownMessage                   (* error.code === 10008 *)
  | SearchFindsFooter (sid : string)        (* a fetched message whose footer tags the session *)
  | SearchFindsJoinable (sid : string).     (* ... and that has no buttons or this session's join button *)

Definition is_db_effect (e : Effect) : bool :=
  match e with
  | DbInsertSession _ | DbSelectSession _ | DbUpdateSession _ _
  | DbDeactivateSession _ | DbSelectActiveSessions | DbSelectGuildSettings _
  | DbUpsertGuildSettings _ _ | DbDeactivateExpired | DbInsertUserSession _ _
  | DbSelectUserSession _ | DbDeleteUserSession _ => true
  | _ => false
  end.

(** What the outside world answers.  [eff_ok n e]: the call [e], made
    after [n] earlier calls, succeeds.  [query n q]: the answer to the cache
    read [q] at that moment. *)
Record Env := mkEnv {
  now : Z;                                  (* Date.now() *)
  eff_ok : nat -> Effect -> bool;
  query : nat -> Query -> bool;
  members_of : string -> list string;       (* channel.members of a voice channel *)
  known_guilds : list string;               (* client.guilds.cache.values() *)
  fresh_channel : string;                   (* id of the voice channel discord creates *)
  fresh_message : nat -> string;            (* id of a message the bot sends *)
  random_suffix : string                    (* Math.random().toString(36).substr(2, 4) *)
}.

(** A pending [setTimeout] callback. *)
Inductive Timer :=
  | RecruitmentTimer (sid : string) (delay : Z)      (* handleLfgCommand, lines 1261-1267 *)
  | RestoredExpiryTimer (sid : string) (delay : Z)   (* loadSessionData, lines 449-451 *)
  | ConfirmationTimer (sid : string) (delay : Z).    (* handleJoinLfg, line 1788 *)

Record World := mkWorld {
  activeSessions : gmap string Session;
  userCreatedSessions : gmap string string;
  guildSettingsCache : gmap string (option string);
  voiceChannelOperations : gmap string Z;
  timers : gmap nat Timer;                  (* scheduled and not yet fired or cleared *)
  next_timer : nat;
  lfg_sessions : gmap string DbSession;     (* table lfg_sessions *)
  guild_settings : gmap string (option string);   (* table guild_settings *)
  user_sessions : gmap string string;       (* table user_sessions *)
  trace : list (Effect * bool)
}.

Definition with_activeSessions (f : gmap string Session -> gmap string Session) (w : World) : World :=
  mkWorld (f (activeSessions w)) (userCreatedSessions w) (guildSettingsCache w)
    (voiceChannelOperations w) (timers w) (next_timer w) (lfg_sessions w)
    (guild_settings w) (user_sessions w) (trace w).

Definition with_userCreatedSessions (f : gmap string string -> gmap string string) (w : World) : World :=
  mkWorld (activeSessions w) (f (userCreatedSessions w)) (guildSettingsCache w)
    (voiceChannelOperations w) (timers w) (next_timer w) (lfg_sessions w)
    (guild_settings w) (user_sessions w) (trace w).

Definition with_guildSettingsCache (f : gmap string (option string) -> gmap string (option string)) (w : World) : World :=
  mkWorld (activeSessions w) (userCreatedSessions w) (f (guildSettingsCache w))
    (voiceChannelOperations w) (timers w) (next_timer w) (lfg_sessions w)
    (guild_settings w) (user_sessions w) (trace w).

Definition with_voiceChannelOperations (f : gmap string Z -> gmap string Z) (w : World) : World :=
  mkWorld (activeSessions w) (userCreatedSessions w) (guildSettingsCache w)
    (f (voiceChannelOperations w)) (timers w) (next_timer w) (lfg_sessions w)
    (guild_settings w) (user_sessions w) (trace w).

Definition with_timers (f : gmap nat Timer -> gmap nat Timer) (w : World) : World :=
  mkWorld (activeSessions w) (userCreatedSessions w) (guildSettingsCache w)
    (voiceChannelOperations w) (f (timers w)) (next_timer w) (lfg_sessions w)
    (guild_settings w) (user_sessions w) (trace w).

Definition with_next_timer (n : nat) (w : World) : World :=
  mkWorld (activeSessions w) (userCreatedSessions w) (guildSettingsCache w)
    (voiceChannelOperations w) (timers w) n (lfg_sessions w)
    (guild_settings w) (user_sessions w) (trace w).

Definition with_lfg_sessions (f : gmap string DbSession -> gmap string DbSession) (w : World) : World :=
  mkWorld (activeSessions w) (userCreatedSessions w) (guildSettingsCache w)
    (voiceChannelOperations w) (timers w) (next_timer w) (f (lfg_sessions w))
    (guild_settings w) (user_sessions w) (trace w).

Definition with_guild_settings (f : gmap string (option string) -> gmap string (option string)) (w : World) : World :=
  mkWorld (activeSessions w) (userCreatedSessions w) (guildSettingsCache w)
    (voiceChannelOperations w) (timers w) (next_timer w) (lfg_sessions w)
    (f (guild_settings w)) (user_sessions w) (trace w).

Definition with_user_sessions (f : gmap string string -> gmap string string) (w : World) : World :=
  mkWorld (activeSessions w) (userCreatedSessions w) (guildSettingsCache w)
    (voiceChannelOperations w) (timers w) (next_timer w) (lfg_sessions w)
    (guild_settings w) (f (user_sessions w)) (trace w).

Definition with_trace (f : list (Effect * bool) -> list (Effect * bool)) (w : World) : World :=
  mkWorld (activeSessions w) (userCreatedSessions w) (guildSettingsCache w)
    (voiceChannelOperations w) (timers w) (next_timer w) (lfg_sessions w)
    (guild_settings w) (user_sessions w) (f (trace w)).

(** ** The monad of handlers *)

Inductive Error :=
  | ExternalFailure (e : Effect)            (* a rejected request or query *)
  | DuplicateKey (table key : string)       (* primary-key violation *)
  | ReferenceError (name : string)          (* an identifier that is not in scope *)
  | PlainError (msg : string).              (* throw new Error(msg) *)

Inductive Outcome (A : Type) :=
  | Returned (a : A)
  | Thrown (err : Error).

Arguments Returned {A} a.
Arguments Thrown {A} err.

Definition M (A : Type) : Type := Env -> World -> Outcome A * World.

Definition ret {A} (a : A) : M A := fun _ w => (Returned a, w).

Definition throw {A} (err : Error) : M A := fun _ w => (Thrown err, w).

Definition bind {A B} (m : M A) (k : A -> M B) : M B :=
  fun env w =>
    match m env w with
    | (Returned a, w') => k a env w'
    | (Thrown err, w') => (Thrown err, w')
    end.

(** [try { m } catch (error) { h error }] *)
Definition try_catch {A} (m : M A) (h : Error -> M A) : M A :=
  fun env w =>
    match m env w with
    | (Returned a, w') => (Returned a, w')
    | (Thrown err, w') => h err env w'
    end.

(** [try { m } finally { f }]: [f] runs on every exit of [m]. *)
Definition try_finally {A} (m : M A) (f : M unit) : M A :=
  fun env w =>
    match m env w with
    | (r, w') =>
        match f env w' with
        | (Returned _, w'') => (r, w'')
        | (Thrown err, w'') => (Thrown err, w'')
        end
    end.

Notation "'let*' x := m 'in' k" := (bind m (fun x => k))
  (at level 10, x name, m at level 100, k at level 200).
Notation "m >>; k" := (bind m (fun _ => k))
  (at level 100, k at level 200, right associativity).

Definition get_world : M World := fun _ w => (Returned w, w).

Definition modify (f : World -> World) : M unit := fun _ w => (Returned tt, f w).

Definition date_now : M Z := fun env w => (Returned (now env), w).

Definition ask (q : Query) : M bool :=
  fun env w => (Returned (query env (length (trace w)) q), w).

Definition perform (e : Effect) : M unit :=
  fun env w =>
    let ok := eff_ok env (length (trace w)) e in
    let w' := with_trace (fun t => t ++ [(e, ok)]) w in
    if ok then (Returned tt, w') else (Thrown (ExternalFailure e), w').

(** [try { m } catch (error) { console.error(...) }] *)
Definition ignoring_errors (m : M unit) : M unit := try_catch m (fun _ => ret tt).

(** [for (const x of xs) { body x }] *)
Fixpoint for_each {A} (xs : list A) (body : A -> M unit) : M unit :=
  match xs with
  | [] => ret tt
  | x :: rest => body x >>; for_each rest body
  end.

(** [condition ? then : nothing] *)
Definition when (b : bool) (m : M unit) : M unit := if b then m else ret tt.

(** ** DatabaseStorage (lines 153-313)

    The drizzle query of each method is one [Effect] followed, when it
    succeeds, by its action on the tables. *)

(** The object handed to [storage.createSession] (lines 1190-1204). *)
Record NewSession := mkNewSession {
  n_id : string;
  n_creatorId : string;
  n_guildId : string;
  n_channelId : string;
  n_game : string;
  n_gamemode : string;
  n_playersNeeded : Z;
  n_info : option string;
  n_status : Status;
  n_currentPlayers : list string;
  n_confirmedPlayers : list string;
  n_voiceChannelId : option string;
  n_confirmationStartTime : option Z
}.

(** [{ ...session, expiresAt: new Date(Date.now() + 20 * 60 * 1000),
    updatedAt: new Date() }] with the column defaults of the schema. *)
Definition new_row (s : NewSession) (t : Z) : DbSession :=
  mkDbSession (n_id s) (n_creatorId s) (n_guildId s) (n_channelId s) None
    (n_game s) (n_gamemode s) (n_playersNeeded s) (n_info s) (n_status s)
    (n_currentPlayers s) (n_confirmedPlayers s) (n_voiceChannelId s)
    (n_confirmationStartTime s) t t (t + 20 * 60 * 1000)%Z true.

Definition lookup_active (sid : string) (tbl : gmap string DbSession) : option DbSession :=
  match tbl !! sid with
  | Some r => if db_isActive r then Some r else None
  | None => None
  end.

Definition createSession (session : NewSession) : M DbSession :=
  try_catch
    (perform (DbInsertSession (n_id session)) >>;
     let* w := get_world in
     let* t := date_now in
     match lfg_sessions w !! n_id session with
     | Some _ => throw (DuplicateKey "lfg_sessions" (n_id session))
     | None =>
         let row := new_row session t in
         modify (with_lfg_sessions (insert (n_id session) row)) >>;
         ret row
     end)
    (fun error => throw error).

Definition getSession (sessionId : string) : M (option DbSession) :=
  try_catch
    (perform (DbSelectSession sessionId) >>;
     let* w := get_world in
     ret (lookup_active sessionId (lfg_sessions w)))
    (fun _ => ret None).

Definition updateSession (sessionId : string) (updates : Updates) : M (option DbSession) :=
  try_catch
    (perform (DbUpdateSession sessionId updates) >>;
     let* w := get_world in
     let* t := date_now in
     match lookup_active sessionId (lfg_sessions w) with
     | Some r =>
         let r' := apply_updates updates t r in
         modify (with_lfg_sessions (insert sessionId r')) >>;
         ret (Some r')
     | None => ret None
     end)
    (fun _ => ret None).

Definition deleteSession (sessionId : string) : M bool :=
  try_catch
    (perform (DbDeactivateSession sessionId) >>;
     let* w := get_world in
     let* t := date_now in
     match lfg_sessions w !! sessionId with
     | Some r =>
         modify (with_lfg_sessions (insert sessionId (deactivate t r))) >>;
         ret true
     | None => ret false
     end)
    (fun _ => ret false).

Definition newer_first (a b : DbSession) : Prop := (db_createdAt b <= db_createdAt a)%Z.

#[global] Instance newer_first_dec : RelDecision newer_first.
Proof. intros a b. unfold newer_first. apply _. Defined.

(** [.where(isActive).orderBy(desc(createdAt))] *)
Definition active_rows (tbl : gmap string DbSession) : list DbSession :=
  merge_sort newer_first
    (filter (fun r => db_isActive r = true) (snd <$> map_to_list tbl)).

Definition getAllActiveSessions : M (list DbSession) :=
  try_catch
    (perform DbSelectActiveSessions >>;
     let* w := get_world in
     ret (active_rows (lfg_sessions w)))
    (fun _ => ret []).

(** The row of [guild_settings], reduced to its [lfgChannelId] column. *)
Definition getGuildSettings (guildId : string) : M (option (option string)) :=
  try_catch
    (perform (DbSelectGuildSettings guildId) >>;
     let* w := get_world in
     ret (guild_settings w !! guildId))
    (fun _ => ret None).

Definition setGuildSettings (guildId : string) (lfgChannelId : option string) : M (option (option string)) :=
  try_catch
    (perform (DbUpsertGuildSettings guildId lfgChannelId) >>;
     modify (with_guild_settings (insert guildId lfgChannelId)) >>;
     ret (Some lfgChannelId))
    (fun _ => ret None).

Definition is_expired (t : Z) (r : DbSession) : bool :=
  db_isActive r && bool_decide (db_expiresAt r < t)%Z.

Definition cleanupExpiredSessions : M nat :=
  try_catch
    (perform DbDeactivateExpired >>;
     let* w := get_world in
     let* t := date_now in
     let hit := filter (fun kv => is_expired t kv.2 = true) (lfg_sessions w) in
     modify (with_lfg_sessions
               (fmap (fun r => if is_expired t r then deactivate t r else r))) >>;
     ret (size hit))
    (fun _ => ret 0%nat).

Definition deleteUserSession (userId : string) : M bool :=
  try_catch
    (perform (DbDeleteUserSession userId) >>;
     modify (with_user_sessions (delete userId)) >>;
     ret true)
    (fun _ => ret false).

Definition createUserSession (userId sessionId : string) : M (string * string) :=
  try_catch
    (deleteUserSession userId >>;
     perform (DbInsertUserSession userId sessionId) >>;
     let* w := get_world in
     match user_sessions w !! userId with
     | Some _ => throw (DuplicateKey "user_sessions" userId)
     | None =>
         modify (with_user_sessions (insert userId sessionId)) >>;
         ret (userId, sessionId)
     end)
    (fun error => throw error).

Definition getUserSession (userId : string) : M (option string) :=
  try_catch
    (perform (DbSelectUserSession userId) >>;
     let* w := get_world in
     ret (user_sessions w !! userId))
    (fun _ => ret None).

(** ** Small pieces shared by the handlers *)

Definition channel_members (ch : string) : M (list string) :=
  fun env w => (Returned (members_of env ch), w).

(** [guild.channels.cache.get(ch)] for a guild object already at hand;
    the result is the id of the cached channel. *)
Definition cached_channel (g : string) (ch : option string) : M (option string) :=
  match ch with
  | None => ret None
  | Some c => let* hit := ask (ChannelCached g c) in ret (if hit then Some c else None)
  end.

(** [client.guilds.cache.get(g)?.channels.cache.get(ch)] *)
Definition cached_guild_channel (g : string) (ch : option string) : M (option string) :=
  let* guild := ask (GuildCached g) in
  if guild then cached_channel g ch else ret None.

(** [const category = ch.parent; await ch.delete(); if (category &&
    category.name.startsWith(pad) && category.children.cache.size === 0)
    await category.delete()] *)
Definition delete_channel_and_category (ch : string) : M unit :=
  perform (ChannelDelete ch) >>;
  let* empty := ask (CategoryNowEmpty ch) in
  when empty (perform (CategoryDelete ch)).

(** [Array.from(activeSessions.values()).find(p)] *)
Definition find_session (p : Session -> bool) (m : gmap string Session) : option Session :=
  List.find p (snd <$> map_to_list m).

(** [Array.from(activeSessions.entries()).find(p)], for the callers that
    go on to assign to the object they found. *)
Definition find_entry (p : Session -> bool) (m : gmap string Session) : option (string * Session) :=
  List.find (fun kv => p kv.2) (map_to_list m).

(** An assignment [session.x = v] to the session object stored under
    [ref]: the stored object changes, and so does the copy at hand. *)
Definition assign (ref : string) (f : Session -> Session) : M unit :=
  modify (with_activeSessions (alter f ref)).

Definition mutate (ref : string) (f : Session -> Session) (session : Session) : M Session :=
  assign ref f >>; ret (f session).

(** JavaScript truthiness of a string that may be [null]. *)
Definition truthy (o : option string) : bool :=
  match o with
  | Some x => bool_decide (x <> "")
  | None => false
  end.

(** [l.includes(x)] *)
Definition includes (l : list string) (x : string) : bool := bool_decide (x ∈ l).

(** [l.filter(id => id !== x)] *)
Definition without (x : string) (l : list string) : list string :=
  filter (fun id => id <> x) l.

(** [const i = l.indexOf(x); if (i > -1) l.splice(i, 1)] *)
Fixpoint remove_first (x : string) (l : list string) : list string :=
  match l with
  | [] => []
  | y :: rest => if bool_decide (y = x) then rest else y :: remove_first x rest
  end.

Definition sent_message_id : M string :=
  fun env w => (Returned (fresh_message env (length (trace w))), w).

Definition setTimeout (t : Timer) : M nat :=
  let* w := get_world in
  let tid := next_timer w in
  modify (fun w => with_next_timer (S tid) (with_timers (insert tid t) w)) >>;
  ret tid.

Definition clearTimeout (tid : nat) : M unit :=
  modify (with_timers (delete tid)).

(** [[...new Set(l)]]: the elements of [l] in order of first occurrence. *)
Definition Set_spread (l : list string) : list string :=
  fold_left (fun acc x => if bool_decide (x ∈ acc) then acc else acc ++ [x]) l [].

(** ** Guarded voice-channel operations (lines 689-800) *)

(** The part of [safeDeleteVoiceChannel] that follows a successful
    re-fetch (lines 711-753). *)
Definition delete_fetched_channel (channelId : string) : M bool :=
  let* allowed := ask BotCanManageChannels in
  if negb allowed then ret false else
  let* members := channel_members channelId in
  for_each members (fun member => ignoring_errors (perform (VoiceDisconnect member))) >>;
  delete_channel_and_category channelId >>;
  let* w := get_world in
  match find_session (fun s => bool_decide (voiceChannel s = Some channelId)) (activeSessions w) with
  | Some session =>
      ignoring_errors
        (updateSession (id session) (mkUpdates None None None None (Some None)) >>; ret tt)
  | None => ret tt
  end >>;
  ret true.

(** [safeDeleteVoiceChannel(voiceChannel, reason)]; [target] is the id of
    the channel object [voiceChannel], [None] for a missing object.
    [reason] only feeds log and audit texts. *)
Definition safeDeleteVoiceChannel (target : option string) : M bool :=
  match target with
  | None => ret false
  | Some channelId =>
      if bool_decide (channelId = "") then ret false else
      let operationKey := "delete_" +:+ channelId in
      let* w := get_world in
      if bool_decide (is_Some (voiceChannelOperations w !! operationKey)) then ret false else
      let* t := date_now in
      modify (with_voiceChannelOperations (insert operationKey t)) >>;
      try_finally
        (try_catch
           (let* channel :=
              try_catch (perform (ChannelFetch channelId) >>; ret true) (fun _ => ret false) in
            if negb channel then ret true else delete_fetched_channel channelId)
           (fun _ => ret false))
        (modify (with_voiceChannelOperations (delete operationKey)))
  end.

Inductive Action := grant | revoke | other_action.

(** [manageVoiceChannelAccess(voiceChannel, userId, action, reason)] *)
Definition manageVoiceChannelAccess (target : option string) (userId : string) (action : Action) : M bool :=
  match target with
  | None => ret false
  | Some channelId =>
      if bool_decide (userId = "") then ret false else
      let operationKey := "permission_" +:+ channelId +:+ "_" +:+ userId in
      let* w := get_world in
      if bool_decide (is_Some (voiceChannelOperations w !! operationKey)) then ret false else
      let* t := date_now in
      modify (with_voiceChannelOperations (insert operationKey t)) >>;
      try_finally
        (try_catch
           (match action with
            | grant => perform (PermissionEdit channelId userId)
            | revoke => perform (PermissionDelete channelId userId)
            | other_action => ret tt
            end >>;
            ret true)
           (fun _ => ret false))
        (modify (with_voiceChannelOperations (delete operationKey)))
  end.

(** The staleness loop of the synchronisation interval (lines 505-511):
    [if (now - timestamp > 30000) voiceChannelOperations.delete(key)]. *)
Definition sweep_stale_operations (t : Z) (ops : gmap string Z) : gmap string Z :=
  filter (fun kv => ~ (t - kv.2 > 30000)%Z) ops.

(** The callback of [setInterval(..., 5 * 60 * 1000)] (lines 492-515);
    [saveSessionData] only logs. *)
Definition synchronisation_tick : M unit :=
  ignoring_errors
    (cleanupExpiredSessions >>;
     let* t := date_now in
     modify (with_voiceChannelOperations (sweep_stale_operations t))).

(** [getOrCreateGameCategory] (lines 1329-1356); the [gameCategories] map
    it fills is never read. *)
Definition getOrCreateGameCategory (gameKey : string) : M unit :=
  let* category := ask (CategoryCached gameKey) in
  if category then ret tt else perform (CategoryCreate gameKey).

(** [createLfgVoiceChannel] (lines 803-854): the id of the new channel. *)
Definition createLfgVoiceChannel : M string :=
  try_catch
    (let* allowed := ask BotCanCreateVoice in
     if negb allowed
     then throw (PlainError "Bot lacks required permissions to create voice channels")
     else
       let* ch := (fun env w => (Returned (fresh_channel env), w)) in
       perform (VoiceChannelCreate ch) >>;
       ret ch)
    (fun error => throw error).

(** ** Expiration, reopening, finalisation *)

(** [if (session.timeoutId) { clearTimeout(session.timeoutId);
    session.timeoutId = null; }] *)
Definition clear_session_timeout (ref : string) (session : Session) : M Session :=
  match timeoutId session with
  | Some tid => clearTimeout tid >>; mutate ref (set_timeoutId None) session
  | None => ret session
  end.

(** [expireSession(sessionId, reason)] (lines 518-623) *)
Definition expireSession (sessionId : string) : M unit :=
  ignoring_errors
    (let* w := get_world in
     match activeSessions w !! sessionId with
     | None => ret tt
     | Some session =>
         let* channel := cached_guild_channel (guildId session) (Some (channelId session)) in
         ignoring_errors
           (let* vc := cached_guild_channel (guildId session) (voiceChannel session) in
            match vc with
            | Some ch => delete_channel_and_category ch
            | None => ret tt
            end) >>;
         match channel with
         | Some ch =>
             if truthy (messageId session)
             then ignoring_errors
                    (perform (MessageFetch ch (default "" (messageId session))) >>;
                     perform (MessageEdit ch))
             else ret tt
         | None => ret tt
         end >>;
         let* session := clear_session_timeout sessionId session in
         modify (with_activeSessions (delete sessionId)) >>;
         when (bool_decide (creator session <> ""))
              (modify (with_userCreatedSessions (delete (creator session)))) >>;
         modify (with_userCreatedSessions (filter (fun kv => kv.2 <> sessionId))) >>;
         for_each (currentPlayers session)
           (fun playerId => ignoring_errors (deleteUserSession playerId >>; ret tt)) >>;
         ignoring_errors (deleteSession sessionId >>; ret tt)
     end).

(** The message part of [reopenLfg] (lines 2374-2448) for a cached
    announcement channel [ch]. *)
Definition refresh_announcement (ref : string) (session : Session) (ch : string) : M unit :=
  let* messageUpdated :=
    try_catch
      (let* updated :=
         if truthy (messageId session) then
           try_catch
             (perform (MessageFetch ch (default "" (messageId session))) >>;
              perform (MessageEdit ch) >>;
              ret true)
             (fun fetchError =>
                let* unknown := ask ErrorIsUnknownMessage in
                if unknown then
                  assign ref (set_messageId None) >>;
                  updateSession (id session) (mkUpdates None None (Some None) None None) >>;
                  ret false
                else throw fetchError)
         else ret false in
       if updated then ret true else
       perform (MessagesFetch ch 50) >>;
       let* found := ask (SearchFindsFooter (id session)) in
       if found then perform (MessageEdit ch) >>; ret true else ret false)
      (fun _ =>
         try_catch
           (perform (MessagesFetch ch 100) >>;
            let* found := ask (SearchFindsJoinable (id session)) in
            if found then perform (MessageEdit ch) >>; ret true else ret false)
           (fun _ => ret false)) in
  if messageUpdated then ret tt else
  ignoring_errors
    (perform (ChannelSend ch) >>;
     let* response := sent_message_id in
     assign ref (set_messageId (Some response))).

(** [reopenLfg(session)] (lines 2328-2452); [ref] is the key under which
    the object [session] is stored. *)
Definition reopenLfg (ref : string) (session : Session) : M unit :=
  if bool_decide (length (currentPlayers session) = 0%nat) then
    ignoring_errors
      (let* channel := cached_guild_channel (guildId session) (voiceChannel session) in
       match channel with
       | Some ch => delete_channel_and_category ch
       | None => ret tt
       end) >>;
    modify (with_activeSessions (delete (id session))) >>;
    modify (with_userCreatedSessions (delete (creator session)))
  else
    let* session := mutate ref (set_status waiting) session in
    let* guild := ask (GuildCached (guildId session)) in
    if negb guild then ret tt else
    let* channel := cached_channel (guildId session) (Some (channelId session)) in
    match channel with
    | Some ch => refresh_announcement ref session ch
    | None => ret tt
    end.

(** [finalizeSession(session, interaction)] (lines 2454-2498) *)
Definition finalizeSession (ref : string) (session : Session) : M unit :=
  let* session := mutate ref (set_status active) session in
  ignoring_errors (perform InteractionMessageEdit).

(** ** Button handlers *)

(** What a handler reads from the interaction: the user who clicked, the
    guild and channel of the interaction, and the session id left after
    [interaction.customId.replace(prefix, '')]. *)
Record Interaction := mkInteraction {
  i_user : string;
  i_guild : string;
  i_channel : string;
  i_session : string
}.

(** [handleJoinLfg] (lines 1612-1862).  A [return interaction.editReply(...)]
    inside the [try] is not awaited there, so its rejection is not caught:
    the body reports such a pending reply and it is sent after the [try]. *)
Definition handleJoinLfg (interaction : Interaction) : M unit :=
  let sessionId := i_session interaction in
  let user := i_user interaction in
  let* pending_reply :=
    try_catch
      (perform DeferUpdate >>;
       let* w := get_world in
       match activeSessions w !! sessionId with
       | None => ignoring_errors (perform EditReply) >>; ret false
       | Some session =>
           if includes (currentPlayers session) user then ret true else
           if bool_decide (playersNeeded session <= Z.of_nat (length (currentPlayers session)))%Z
           then ret true else
           match find_session
                   (fun s => bool_decide (id s <> sessionId) && includes (currentPlayers s) user)
                   (activeSessions w) with
           | Some _ => ret true
           | None =>
               let* session :=
                 mutate sessionId (fun s => set_currentPlayers (currentPlayers s ++ [user]) s) session in
               ignoring_errors
                 (updateSession sessionId
                    (mkUpdates (Some (currentPlayers session)) (Some (status session)) None None None) >>;
                  createUserSession user sessionId >>;
                  ret tt) >>;
               ignoring_errors
                 (let* vc := cached_channel (i_guild interaction) (voiceChannel session) in
                  match vc with
                  | Some ch => manageVoiceChannelAccess (Some ch) user grant >>; ret tt
                  | None => ret tt
                  end) >>;
               if bool_decide (Z.of_nat (length (currentPlayers session)) = playersNeeded session) then
                 let* t := date_now in
                 let* session := mutate sessionId (set_status confirming) session in
                 let* session := mutate sessionId (set_confirmationStartTime (Some t)) session in
                 ignoring_errors
                   (perform EditReply >>;
                    let* channel := cached_channel (i_guild interaction) (Some (channelId session)) in
                    match channel with
                    | Some ch => perform (ChannelSend ch)
                    | None => ret tt
                    end) >>;
                 match timeoutId session with
                 | Some tid => clearTimeout tid
                 | None => ret tt
                 end >>;
                 let* tid := setTimeout (ConfirmationTimer sessionId 300000) in
                 let* session := mutate sessionId (set_timeoutId (Some tid)) session in
                 ignoring_errors
                   (updateSession sessionId
                      (mkUpdates (Some (currentPlayers session)) (Some confirming) None
                         (Some (confirmationStartTime session)) None) >>;
                    ret tt) >>;
                 ret false
               else
                 perform EditReply >>;
                 try_catch
                   (perform FollowUp)
                   (fun _ =>
                      ignoring_errors
                        (let* channel := cached_channel (i_guild interaction) (Some (channelId session)) in
                         match channel with
                         | Some ch => perform (ChannelSend ch)
                         | None => ret tt
                         end)) >>;
                 ret false
           end
       end)
      (fun _ => ignoring_errors (perform EditReply) >>; ret false) in
  when pending_reply (perform EditReply).

(** [handleConfirmation] (lines 1864-1920) *)
Definition handleConfirmation (interaction : Interaction) : M unit :=
  perform DeferReply >>;
  let sessionId := i_session interaction in
  let user := i_user interaction in
  let* w := get_world in
  match activeSessions w !! sessionId with
  | None => perform EditReply
  | Some session =>
      if negb (includes (currentPlayers session) user) then perform EditReply else
      if negb (bool_decide (status session = confirming)) then perform EditReply else
      if includes (confirmedPlayers session) user then perform EditReply else
      let* session :=
        mutate sessionId (fun s => set_confirmedPlayers (confirmedPlayers s ++ [user]) s) session in
      if bool_decide (length (confirmedPlayers session) = length (currentPlayers session)) then
        let* session := clear_session_timeout sessionId session in
        let* session := mutate sessionId (set_confirmationStartTime None) session in
        finalizeSession sessionId session
      else perform EditReply
  end.

(** [handleDecline] (lines 1922-2015) *)
Definition handleDecline (interaction : Interaction) : M unit :=
  perform DeferReply >>;
  let sessionId := i_session interaction in
  let user := i_user interaction in
  let* w := get_world in
  match activeSessions w !! sessionId with
  | None => perform EditReply
  | Some session =>
      if negb (includes (currentPlayers session) user) then perform EditReply else
      if bool_decide (user = creator session) then
        let* session := clear_session_timeout sessionId session in
        ignoring_errors
          (let* vc := cached_channel (i_guild interaction) (voiceChannel session) in
           match vc with
           | Some ch => perform (ChannelDelete ch)
           | None => ret tt
           end) >>;
        modify (with_activeSessions (delete sessionId)) >>;
        modify (with_userCreatedSessions (delete (creator session))) >>;
        for_each (currentPlayers session)
          (fun playerId =>
             modify (with_userCreatedSessions (delete playerId)) >>;
             ignoring_errors (deleteUserSession playerId >>; ret tt)) >>;
        ignoring_errors (deleteSession sessionId >>; ret tt) >>;
        perform InteractionUpdate >>;
        perform EditReply
      else
        let* session :=
          mutate sessionId (fun s => set_currentPlayers (without user (currentPlayers s)) s) session in
        let* session :=
          mutate sessionId (fun s => set_confirmedPlayers (without user (confirmedPlayers s)) s) session in
        let* session := clear_session_timeout sessionId session in
        let* session := mutate sessionId (set_confirmationStartTime None) session in
        ignoring_errors
          (let* vc := cached_channel (i_guild interaction) (voiceChannel session) in
           match vc with
           | Some ch =>
               perform (PermissionDelete ch user) >>;
               let* connected := ask (MemberInVoice user ch) in
               when connected (perform (VoiceDisconnect user))
           | None => ret tt
           end) >>;
        perform EditReply >>;
        reopenLfg sessionId session
  end.

(** [handleConfirmationTimeout] (lines 2017-2076) *)
Definition handleConfirmationTimeout (sessionId : string) : M unit :=
  let* w := get_world in
  match activeSessions w !! sessionId with
  | None => ret tt
  | Some session =>
      if negb (bool_decide (status session = confirming)) then ret tt else
      let* session := mutate sessionId (set_timeoutId None) session in
      let unconfirmedPlayers :=
        filter (fun id => id ∉ confirmedPlayers session) (currentPlayers session) in
      ignoring_errors
        (let* vc := cached_guild_channel (guildId session) (voiceChannel session) in
         match vc with
         | Some ch =>
             for_each unconfirmedPlayers
               (fun playerId =>
                  perform (PermissionDelete ch playerId) >>;
                  let* cached := ask (MemberCached playerId) in
                  let* member :=
                    if cached then ret true
                    else try_catch (perform (MemberFetch playerId) >>; ret true) (fun _ => ret false) in
                  let* connected := if member then ask (MemberInVoice playerId ch) else ret false in
                  when connected (perform (VoiceDisconnect playerId)))
         | None => ret tt
         end) >>;
      let keepPlayers := creator session :: confirmedPlayers session in
      let* session := mutate sessionId (set_currentPlayers (Set_spread keepPlayers)) session in
      let* session := mutate sessionId (set_confirmedPlayers []) session in
      let* session := mutate sessionId (set_status waiting) session in
      let* session := mutate sessionId (set_confirmationStartTime None) session in
      reopenLfg sessionId session
  end.


(** [handleLeaveLfg] (lines 2769-2873).  In the [catch],
    [interaction.replied] is false exactly when the first reply is the
    statement that threw. *)
Definition handleLeaveLfg (interaction : Interaction) : M unit :=
  let sessionId := i_session interaction in
  let user := i_user interaction in
  let* w := get_world in
  match activeSessions w !! sessionId with
  | None => perform Reply
  | Some session =>
      if negb (includes (currentPlayers session) user) then perform Reply else
      if bool_decide (user = creator session) then perform Reply else
      try_catch
        (perform Reply >>;
         let* session :=
           mutate sessionId (fun s => set_currentPlayers (without user (currentPlayers s)) s) session in
         let* session :=
           mutate sessionId (fun s => set_confirmedPlayers (without user (confirmedPlayers s)) s) session in
         let* vc := cached_channel (i_guild interaction) (voiceChannel session) in
         match vc with
         | Some ch =>
             manageVoiceChannelAccess (Some ch) user revoke >>;
             ignoring_errors
               (let* connected := ask (MemberInVoice user ch) in
                when connected (perform (VoiceDisconnect user)))
         | None => ret tt
         end >>;
         if bool_decide (length (currentPlayers session) = 0%nat) then
           ignoring_errors
             (let* vc := cached_channel (i_guild interaction) (voiceChannel session) in
              match vc with
              | Some ch => delete_channel_and_category ch
              | None => ret tt
              end) >>;
           modify (with_activeSessions (delete sessionId)) >>;
           modify (with_userCreatedSessions (delete (creator session))) >>;
           ignoring_errors (deleteSession sessionId >>; ret tt)
         else reopenLfg sessionId session)
        (fun error =>
           match error with
           | ExternalFailure Reply => ignoring_errors (perform Reply)
           | _ => ret tt
           end)
  end.

(** ** Session creation (handleLfgCommand, lines 1087-1327) *)

Record LfgOptions := mkLfgOptions {
  o_game : string;
  o_gamemode : string;
  o_players : Z;
  o_info : option string
}.

Definition SUPPORTED_GAMES : list (string * (string * list string)) :=
  [ ("valorant", ("Valorant", ["Competitive"; "Unrated"; "Spike Rush"; "Deathmatch"]));
    ("fortnite", ("Fortnite", ["Battle Royale"; "Zero Build"; "Creative"; "Save the World"]));
    ("brawlhalla", ("Brawlhalla", ["1v1"; "2v2"; "Ranked"; "Experimental"]));
    ("thefinals", ("The Finals", ["Quick Cash"; "Bank It"; "Tournament"]));
    ("roblox", ("Roblox", ["Various"; "Roleplay"; "Simulator"; "Obby"]));
    ("minecraft", ("Minecraft", ["Survival"; "Creative"; "PvP"; "Minigames"]));
    ("marvelrivals", ("Marvel Rivals", ["Quick Match"; "Competitive"; "Custom"]));
    ("rocketleague", ("Rocket League", ["3v3"; "2v2"; "1v1"; "Hoops"]));
    ("apexlegends", ("Apex Legends", ["Trios"; "Duos"; "Ranked"; "Arenas"]));
    ("callofduty", ("Call of Duty", ["Multiplayer"; "Warzone"; "Search & Destroy"]));
    ("overwatch", ("Overwatch", ["Competitive"; "Quick Play"; "Arcade"]));
    ("amongus", ("Among Us", ["Classic"; "Hide and Seek"; "Custom Rules"; "Private Lobby"])) ].

Definition supported_game (key : string) : option (string * list string) :=
  snd <$> List.find (fun entry => bool_decide (entry.1 = key)) SUPPORTED_GAMES.

(** The part of [handleLfgCommand] inside its [try] (lines 1180-1291),
    for a validated game; [gameName] is [gameData.name]. *)
Definition create_session_steps (interaction : Interaction) (options : LfgOptions) (gameName : string) : M unit :=
  let user := i_user interaction in
  getOrCreateGameCategory (o_game options) >>;
  let* voiceChannelId := createLfgVoiceChannel in
  let* t := date_now in
  let* suffix := (fun env w => (Returned (random_suffix env), w)) in
  let sessionId := user +:+ "-" +:+ pretty t +:+ "-" +:+ suffix in
  let sessionData :=
    mkNewSession sessionId user (i_guild interaction) (i_channel interaction) gameName
      (o_gamemode options) (o_players options) (o_info options) waiting [user] []
      (Some voiceChannelId) None in
  let* saved :=
    try_catch
      (createSession sessionData >>;
       createUserSession user sessionId >>;
       ret true)
      (fun _ =>
         ignoring_errors (perform (ChannelDelete voiceChannelId)) >>;
         perform EditReply >>;
         ret false) in
  if negb saved then ret tt else
  let session :=
    mkSession sessionId user (i_guild interaction) (i_channel interaction) None gameName
      (o_gamemode options) (o_players options) (o_info options) [user] []
      (Some voiceChannelId) t None waiting None in
  modify (with_activeSessions (insert sessionId session)) >>;
  modify (with_userCreatedSessions (insert user sessionId)) >>;
  let* tid := setTimeout (RecruitmentTimer sessionId (20 * 60 * 1000)) in
  assign sessionId (set_timeoutId (Some tid)) >>;
  perform EditReply >>;
  let* response := sent_message_id in
  assign sessionId (set_messageId (Some response)) >>;
  ignoring_errors
    (updateSession sessionId (mkUpdates None None (Some (Some response)) None None) >>; ret tt).

(** The [catch] of that [try] (lines 1293-1326).  [voiceChannel] is a
    [const] of the [try] block (line 1184) and is not in scope here, so
    evaluating the condition [if (voiceChannel)] of line 1312 throws a
    ReferenceError: the channel deletion and the failure reply behind it
    are never reached. *)
Definition create_session_rollback (interaction : Interaction) : M unit :=
  let user := i_user interaction in
  let* w := get_world in
  match userCreatedSessions w !! user with
  | Some partialSessionId =>
      modify (with_activeSessions (delete partialSessionId)) >>;
      modify (with_userCreatedSessions (delete user)) >>;
      ignoring_errors (deleteSession partialSessionId >>; ret tt)
  | None => ret tt
  end >>;
  throw (ReferenceError "voiceChannel").

Definition handleLfgCommand (interaction : Interaction) (options : LfgOptions) : M unit :=
  perform DeferReply >>;
  let user := i_user interaction in
  let* w := get_world in
  (* lines 1100-1121: an existing session created by this user *)
  let* free :=
    if truthy (userCreatedSessions w !! user) then
      let existingSessionId := default "" (userCreatedSessions w !! user) in
      match activeSessions w !! existingSessionId with
      | None =>
          modify (with_userCreatedSessions (delete user)) >>;
          ignoring_errors
            (let* dbSession := getSession existingSessionId in
             match dbSession with
             | Some _ => deleteSession existingSessionId >>; ret tt
             | None => ret tt
             end) >>;
          ret true
      | Some _ => perform EditReply >>; ret false
      end
    else ret true in
  if negb free then ret tt else
  (* lines 1124-1152: membership in another session *)
  let* w := get_world in
  let* proceed :=
    match find_entry (fun s => includes (currentPlayers s) user) (activeSessions w) with
    | Some (ref, userInSession) =>
        let* pending_reply :=
          try_catch
            (let* dbSession := getSession (id userInSession) in
             let stale :=
               match dbSession with
               | None => true
               | Some row => negb (includes (db_currentPlayers row) user)
               end in
             if stale then
               assign ref (fun s => set_currentPlayers (remove_first user (currentPlayers s)) s) >>;
               ret false
             else ret true)
            (fun _ => ret true) in
        if pending_reply then perform EditReply >>; ret false else ret true
    | None => ret true
    end in
  if negb proceed then ret tt else
  (* lines 1155-1164: the designated channel *)
  let* w := get_world in
  let restricted :=
    match guildSettingsCache w !! i_guild interaction with
    | Some lfgChannel =>
        truthy lfgChannel && bool_decide (i_channel interaction <> default "" lfgChannel)
    | None => false
    end in
  if restricted then perform EditReply else
  match supported_game (o_game options) with
  | None => perform EditReply
  | Some (gameName, modes) =>
      if negb (includes modes (o_gamemode options)) then perform EditReply else
      try_catch
        (create_session_steps interaction options gameName)
        (fun _ => create_session_rollback interaction)
  end.

(** ** Timers and sweeps *)

(** The callback scheduled at creation (lines 1261-1267). *)
Definition recruitment_timer_callback (sessionId : string) : M unit :=
  let* w := get_world in
  match activeSessions w !! sessionId with
  | Some currentSession =>
      if bool_decide (length (currentPlayers currentSession) = 1%nat)
         && bool_decide (status currentSession = waiting)
      then expireSession sessionId
      else ret tt
  | None => ret tt
  end.

(** The callback scheduled at restoration (lines 449-451). *)
Definition restored_timer_callback (sessionId : string) : M unit :=
  expireSession sessionId.

(** A pending timer fires: it leaves the table and its callback runs. *)
Definition fire_timer (tid : nat) : M unit :=
  let* w := get_world in
  match timers w !! tid with
  | None => ret tt
  | Some timer =>
      modify (with_timers (delete tid)) >>;
      match timer with
      | RecruitmentTimer sessionId _ => recruitment_timer_callback sessionId
      | RestoredExpiryTimer sessionId _ => restored_timer_callback sessionId
      | ConfirmationTimer sessionId _ => handleConfirmationTimeout sessionId
      end
  end.

(** [handleLfgTimeout] (lines 2323-2326) *)
Definition handleLfgTimeout (sessionId : string) : M unit := expireSession sessionId.

(** The condition of [checkExpiredConfirmations] on one session
    (lines 2292-2298); a start time of [0] is falsy. *)
Definition twoMinutes : Z := 2 * 60 * 1000.

Definition confirmation_expired (t : Z) (session : Session) : bool :=
  bool_decide (status session = confirming)
  && match confirmationStartTime session with
     | Some started => bool_decide (started <> 0)%Z && bool_decide (twoMinutes <= t - started)%Z
     | None => false
     end.

(** [checkExpiredConfirmations] (lines 2290-2304) *)
Definition checkExpiredConfirmations : M unit :=
  let* t := date_now in
  let* w := get_world in
  for_each (fst <$> map_to_list (activeSessions w))
    (fun sessionId =>
       let* w := get_world in
       match activeSessions w !! sessionId with
       | Some session =>
           if confirmation_expired t session then handleConfirmationTimeout sessionId else ret tt
       | None => ret tt
       end).

Definition twentyMinutes : Z := 20 * 60 * 1000.

(** The condition of [checkExpiredLfgSessions] on one session
    (lines 2312-2315). *)
Definition recruitment_expired (t : Z) (session : Session) : bool :=
  bool_decide (status session = waiting)
  && bool_decide (length (currentPlayers session) = 1%nat)
  && bool_decide (twentyMinutes <= t - createdAt session)%Z.

(** [checkExpiredLfgSessions] (lines 2306-2321) *)
Definition checkExpiredLfgSessions : M unit :=
  let* t := date_now in
  let* w := get_world in
  for_each (fst <$> map_to_list (activeSessions w))
    (fun sessionId =>
       let* w := get_world in
       match activeSessions w !! sessionId with
       | Some session =>
           if recruitment_expired t session then handleLfgTimeout sessionId else ret tt
       | None => ret tt
       end).

(** ** Restoration (loadSessionData, lines 360-489) *)

(** "Convert database session to memory format" (lines 420-437). *)
Definition restored_session (row : DbSession) : Session :=
  mkSession (db_id row) (db_creatorId row) (db_guildId row) (db_channelId row)
    (db_messageId row) (db_game row) (db_gamemode row) (db_playersNeeded row)
    (db_info row) (db_currentPlayers row) (db_confirmedPlayers row)
    (db_voiceChannelId row) (db_createdAt row) (db_confirmationStartTime row)
    (db_status row) None.

(** The body of the restoration loop for one row (lines 394-469). *)
Definition restore_row (dbSession : DbSession) : M unit :=
  try_catch
    (let* t := date_now in
     if bool_decide (t < db_expiresAt dbSession)%Z then
       let* guild := ask (GuildCached (db_guildId dbSession)) in
       let* channel :=
         if guild then cached_channel (db_guildId dbSession) (Some (db_channelId dbSession))
         else ret None in
       if negb guild || negb (bool_decide (is_Some channel)) then
         deleteSession (db_id dbSession) >>;
         when (guild && truthy (db_voiceChannelId dbSession))
           (ignoring_errors
              (let* vc := cached_channel (db_guildId dbSession) (db_voiceChannelId dbSession) in
               match vc with
               | Some ch => safeDeleteVoiceChannel (Some ch) >>; ret tt
               | None => ret tt
               end))
       else
         modify (with_activeSessions (insert (db_id dbSession) (restored_session dbSession))) >>;
         when (bool_decide (db_creatorId dbSession <> ""))
           (modify (with_userCreatedSessions (insert (db_creatorId dbSession) (db_id dbSession)))) >>;
         let timeRemaining := (db_expiresAt dbSession - t)%Z in
         if bool_decide (0 < timeRemaining)%Z then
           let* tid := setTimeout (RestoredExpiryTimer (db_id dbSession) timeRemaining) in
           assign (db_id dbSession) (set_timeoutId (Some tid))
         else ret tt
     else
       deleteSession (db_id dbSession) >>; ret tt)
    (fun _ => ignoring_errors (deleteSession (db_id dbSession) >>; ret tt)).

Definition loadSessionData : M unit :=
  try_catch
    (modify (with_activeSessions (fun _ => ∅)) >>;
     modify (with_userCreatedSessions (fun _ => ∅)) >>;
     modify (with_guildSettingsCache (fun _ => ∅)) >>;
     let* dbSessions := getAllActiveSessions in
     ignoring_errors
       (let* guilds := (fun env w => (Returned (known_guilds env), w)) in
        for_each guilds
          (fun g =>
             let* settings := getGuildSettings g in
             match settings with
             | Some lfgChannelId => modify (with_guildSettingsCache (insert g lfgChannelId))
             | None => ret tt
             end)) >>;
     for_each dbSessions restore_row >>;
     cleanupExpiredSessions >>;
     ret tt)
    (fun _ =>
       modify (with_activeSessions (fun _ => ∅)) >>;
       modify (with_userCreatedSessions (fun _ => ∅))).

(** ** Ending a session (handleEndLfgCommand, lines 2875-3094) *)

(** The message part of [handleEndLfgCommand] (lines 2986-3047) for a
    cached announcement channel [ch].  The searches look for the last six
    characters of the key [sessionId]; the extended search of the [catch]
    also accepts a message one of whose buttons names the session, and
    what it finds is the environment's answer to [SearchFindsJoinable]. *)
Definition close_announcement (sessionId : string) (session : Session) (ch : string) : M unit :=
  try_catch
    (let* updated :=
       if truthy (messageId session) then
         try_catch
           (perform (MessageFetch ch (default "" (messageId session))) >>;
            perform (MessageEdit ch) >>;
            ret true)
           (fun fetchError =>
              let* unknown := ask ErrorIsUnknownMessage in
              if unknown then ret false else throw fetchError)
       else ret false in
     if updated then ret tt else
     perform (MessagesFetch ch 50) >>;
     let* found := ask (SearchFindsFooter sessionId) in
     when found (perform (MessageEdit ch)))
    (fun _ =>
       ignoring_errors
         (perform (MessagesFetch ch 100) >>;
          let* found := ask (SearchFindsJoinable sessionId) in
          when found (perform (MessageEdit ch)))).

(** The recovery path (lines 2885-2922): the creator's row is looked up
    in the store and put back into the two maps. *)
Definition recover_session (userId : string) : M (option (string * Session)) :=
  try_catch
    (let* dbSessions := getAllActiveSessions in
     match List.find (fun row => bool_decide (db_creatorId row = userId)) dbSessions with
     | Some dbUserSession =>
         let session := restored_session dbUserSession in
         modify (with_activeSessions (insert (db_id dbUserSession) session)) >>;
         modify (with_userCreatedSessions (insert userId (db_id dbUserSession))) >>;
         ret (Some (db_id dbUserSession, session))
     | None => ret None
     end)
    (fun _ => ret None).

(** [handleEndLfgCommand] (lines 2875-3094).  No reply precedes the two
    [if (!interaction.replied && !interaction.deferred)] tests, so both
    hold when they are reached. *)
Definition handleEndLfgCommand (interaction : Interaction) : M unit :=
  let userId := i_user interaction in
  let* w := get_world in
  let* userSession :=
    match find_entry (fun s => bool_decide (creator s = userId)) (activeSessions w) with
    | Some entry => ret (Some entry)
    | None => recover_session userId
    end in
  match userSession with
  | None => perform Reply
  | Some (sessionId, session) =>
      try_catch
        (let* session := clear_session_timeout sessionId session in
         let* channel := cached_guild_channel (guildId session) (Some (channelId session)) in
         ignoring_errors
           (let* vc := cached_guild_channel (guildId session) (voiceChannel session) in
            match vc with
            | Some ch => delete_channel_and_category ch
            | None => ret tt
            end) >>;
         match channel with
         | Some ch => close_announcement sessionId session ch
         | None => ret tt
         end >>;
         modify (with_activeSessions (delete sessionId)) >>;
         modify (with_userCreatedSessions (delete (creator session))) >>;
         ignoring_errors (deleteSession sessionId >>; ret tt) >>;
         ignoring_errors (perform Reply))
        (fun _ => ignoring_errors (perform Reply))
  end.

(** ** Durations (parseDuration, lines 2500-2514) *)

(** [\d]: a decimal digit is a character from [0] (code 48) to [9]
    (code 57); its value, as [parseInt] reads it, is its distance from
    [0]. *)
Definition digit_value (c : ascii) : option Z :=
  let code := Z.of_N (N_of_ascii c) in
  if (48 <=? code)%Z && (code <=? 57)%Z then Some (code - 48)%Z else None.

(** [[smhd]]: a unit letter, and the milliseconds the [switch] multiplies
    by. *)
Definition unit_ms (c : ascii) : option Z :=
  match c with
  | "s" => Some 1000
  | "m" => Some (60 * 1000)
  | "h" => Some (60 * 60 * 1000)
  | "d" => Some (24 * 60 * 60 * 1000)
  | _ => None
  end%char%Z.

(** [durationStr.match(/(\d+)([smhd])/)]: the leftmost match.  [\d+] is
    greedy and what follows a run of digits is not a digit, so a match
    starts where a run of digits starts and takes the whole run, and the
    first run that is followed by a unit letter is the one matched.
    [amount] is the value of the run of digits read so far, [None]
    outside a run; the result is [parseInt(amount)] and the unit letter.
    (The value is exact while it stays below 2^53, where a JavaScript
    number holds every integer.) *)
Fixpoint match_duration (s : string) (amount : option Z) : option (Z * ascii) :=
  match s with
  | EmptyString => None
  | String c rest =>
      match digit_value c with
      | Some d => match_duration rest (Some (10 * default 0 amount + d)%Z)
      | None =>
          match amount, unit_ms c with
          | Some num, Some _ => Some (num, c)
          | _, _ => match_duration rest None
          end
      end
  end.

Definition parseDuration (durationStr : string) : Z :=
  match match_duration durationStr None with
  | None => 60 * 60 * 1000
  | Some (num, unit) =>
      match unit_ms unit with
      | Some milliseconds => num * milliseconds
      | None => 60 * 60 * 1000
      end
  end.

(** * Properties

    The vocabulary of the statements proved below. *)

(** [preserves I m]: whenever [I] holds before [m], it holds after [m],
    whether [m] returns or throws. *)
Definition preserves (I : World -> Prop) {A} (m : M A) : Prop :=
  forall env w, I w -> I (m env w).2.

(** [I] only looks at the session registry. *)
Definition sessions_only (I : World -> Prop) : Prop :=
  forall w w', activeSessions w = activeSessions w' -> I w -> I w'.

(** [m] leaves the session registry as it found it. *)
Definition keeps_sessions {A} (m : M A) : Prop :=
  forall env w, activeSessions (m env w).2 = activeSessions w.

(** [m] ends by returning a value: it does not throw. *)
Definition returns {A} (m : M A) (env : Env) (w : World) : Prop :=
  exists a, (m env w).1 = Returned a.









(** The session stored under [sid] satisfies [P]. *)
Definition session_at (sid : string) (P : Session -> Prop) (w : World) : Prop :=
  exists s, activeSessions w !! sid = Some s /\ P s.

(** What the timeout leaves in a session. *)
Definition reset_by_timeout (before after : Session) : Prop :=
  currentPlayers after = Set_spread (creator before :: confirmedPlayers before) /\
  confirmedPlayers after = [] /\
  status after = waiting /\
  confirmationStartTime after = None /\
  timeoutId after = None.

(** [calls_since t0 P w]: the trace of [w] is [t0] followed by calls that
    all satisfy [P]. *)
Definition calls_since (t0 : list (Effect * bool)) (P : Effect * bool -> Prop) (w : World) : Prop :=
  exists calls, trace w = t0 ++ calls /\ Forall P calls.

(** A rejected fetch of a channel. *)
Definition is_failed_fetch (call : Effect * bool) : Prop :=
  exists ch, call = (ChannelFetch ch, false).

(** [quiet t0 rows w]: since the trace was [t0], no drizzle query was
    sent, and the session table is [rows]. *)
Definition quiet (t0 : list (Effect * bool)) (rows : gmap string DbSession) (w : World) : Prop :=
  lfg_sessions w = rows /\
  exists calls, trace w = t0 ++ calls /\ Forall (fun call => is_db_effect call.1 = false) calls.

(** [wp m env w Q E]: run from [w] in [env], [m] either returns some [a]
    and leaves a world with [Q a], or throws some [err] and leaves a world
    with [E err]. *)
Definition wp {A} (m : M A) (env : Env) (w : World)
    (Q : A -> World -> Prop) (E : Error -> World -> Prop) : Prop :=
  match m env w with
  | (Returned a, w') => Q a w'
  | (Thrown err, w') => E err w'
  end.

(** The maps and timers of the process. *)
Definition memory (w : World) :=
  (activeSessions w, userCreatedSessions w, guildSettingsCache w, timers w, next_timer w).

(** The three tables of the store. *)
Definition tables (w : World) := (lfg_sessions w, guild_settings w, user_sessions w).

(** [m] leaves the part [f] of the world as it found it. *)
Definition keeps {A B} (f : World -> B) (m : M A) : Prop :=
  forall env w, f (m env w).2 = f w.

(** [w'] is [w] after some calls that leave the process: nothing but the
    trace has changed. *)
Definition only_calls (w w' : World) : Prop :=
  exists calls, w' = with_trace (fun t => t ++ calls) w.

(** The database answers every query. *)
Definition database_up (env : Env) : Prop :=
  forall n e, is_db_effect e = true -> eff_ok env n e = true.

(** The maps and timers other than the registry. *)
Definition others (w : World) :=
  (userCreatedSessions w, guildSettingsCache w, timers w, next_timer w).



(** Everything the process holds and stores: all of the world but the
    trace of calls and the table of operations in flight. *)
Definition state (w : World) := (memory w, tables w).

(** The rows of the session table are stored under their [id], the
    primary key of the table. *)
Definition rows_keyed (w : World) : Prop :=
  forall sid row, lfg_sessions w !! sid = Some row -> db_id row = sid.

(** * Example worlds

    The environments, sessions and worlds the examples run on. *)

(** Everything outside the process works: every call succeeds, every
    cache read hits. *)
Definition env_ok (t : Z) : Env :=
  mkEnv t (fun _ _ => true) (fun _ _ => true) (fun _ => []) ["g"] "vc1" (fun _ => "m2") "ab12".

(** An environment in which the platform answers and the database is down. *)
Definition env_db_down : Env :=
  mkEnv 1000 (fun _ e => negb (is_db_effect e)) (fun _ _ => true) (fun _ => []) []
    "vc1" (fun _ => "m1") "ab12".

(** The announcement cannot be posted: [interaction.editReply] is rejected. *)
Definition env_reply_lost : Env :=
  mkEnv 1000 (fun _ e => match e with EditReply => false | _ => true end)
    (fun _ _ => true) (fun _ => []) ["g"] "vc1" (fun _ => "m2") "ab12".

(** The membership row cannot be inserted. *)
Definition env_membership_lost : Env :=
  mkEnv 1000 (fun _ e => match e with DbInsertUserSession _ _ => false | _ => true end)
    (fun _ _ => true) (fun _ => []) ["g"] "vc1" (fun _ => "m2") "ab12".

(** The channel is gone: the fetch is rejected. *)
Definition env_channel_gone : Env :=
  mkEnv 1000 (fun _ e => match e with ChannelFetch _ => false | _ => true end)
    (fun _ _ => true) (fun _ => []) ["g"] "vc1" (fun _ => "m2") "ab12".

(** Nothing in memory, nothing stored. *)
Definition empty_world : World := mkWorld ∅ ∅ ∅ ∅ ∅ 0 ∅ ∅ ∅ [].

(** [user] clicks a button of the announcement of session [s1]. *)
Definition click (user : string) : Interaction := mkInteraction user "g" "c" "s1".

(** A full session of three in its confirmation phase: [confirmed] have
    confirmed, the timer [0] is the one scheduled when the session filled
    at time [1000]. *)
Definition trio (confirmed : list string) : Session :=
  mkSession "s1" "A" "g" "c" (Some "m1") "Valorant" "Unrated" 3 None
    ["A"; "B"; "C"] confirmed (Some "vc1") 0 (Some 1000%Z) confirming (Some 0%nat).

(** The stored row of that session, as the join that filled it wrote it. *)
Definition trio_row : DbSession :=
  mkDbSession "s1" "A" "g" "c" (Some "m1") "Valorant" "Unrated" 3 None confirming
    ["A"; "B"; "C"] [] (Some "vc1") (Some 1000%Z) 0 1000 1200000 true.

Definition trio_world (confirmed : list string) : World :=
  mkWorld {[ "s1" := trio confirmed ]} {[ "A" := "s1" ]} ∅ ∅
    {[ 0%nat := ConfirmationTimer "s1" 300000 ]} 1
    {[ "s1" := trio_row ]} ∅ {[ "A" := "s1"; "B" := "s1"; "C" := "s1" ]} [].

(** A full session of two in its confirmation phase; the creator has
    confirmed, [B] has not. *)
Definition duo : Session :=
  mkSession "s1" "A" "g" "c" (Some "m1") "Valorant" "Unrated" 2 None
    ["A"; "B"] ["A"] (Some "vc1") 0 (Some 1000%Z) confirming (Some 0%nat).

Definition duo_world : World :=
  mkWorld {[ "s1" := duo ]} {[ "A" := "s1" ]} ∅ ∅
    {[ 0%nat := ConfirmationTimer "s1" 300000 ]} 1 ∅ ∅ ∅ [].

(** A session of two that waits for its second player. *)
Definition open_duo : Session :=
  mkSession "s1" "A" "g" "c" (Some "m1") "Valorant" "Unrated" 2 None
    ["A"] [] (Some "vc1") 0 None waiting (Some 0%nat).

Definition open_duo_row : DbSession :=
  mkDbSession "s1" "A" "g" "c" (Some "m1") "Valorant" "Unrated" 2 None waiting
    ["A"] [] (Some "vc1") None 0 0 1200000 true.

Definition open_world : World :=
  mkWorld {[ "s1" := open_duo ]} {[ "A" := "s1" ]} ∅ ∅
    {[ 0%nat := RecruitmentTimer "s1" 1200000 ]} 1
    {[ "s1" := open_duo_row ]} ∅ {[ "A" := "s1" ]} [].

(** A stored session created at time [0] that [B] has joined. *)
Definition pair_row : DbSession :=
  mkDbSession "s1" "A" "g" "c" (Some "m1") "Valorant" "Unrated" 3 None waiting
    ["A"; "B"] [] (Some "vc1") None 0 500 1200000 true.

(** The store after a crash: that row and its two membership rows. *)
Definition stored_world : World :=
  mkWorld ∅ ∅ ∅ ∅ ∅ 0 {[ "s1" := pair_row ]} ∅ {[ "A" := "s1"; "B" := "s1" ]} [].

(** [A] runs [/lfg game:valorant gamemode:Unrated players:3]. *)
Definition lfg_request : Interaction := mkInteraction "A" "g" "c" "".

Definition lfg_options : LfgOptions := mkLfgOptions "valorant" "Unrated" 3 None.



(** * Reasoning about handlers *)

(** ** Running a computation *)

Lemma run_bind {A B} (m : M A) (k : A -> M B) env w a w' :
  m env w = (Returned a, w') -> bind m k env w = k a env w'.
Proof. intros H. unfold bind. now rewrite H. Qed.

Lemma run_bind_thrown {A B} (m : M A) (k : A -> M B) env w err w' :
  m env w = (Thrown err, w') -> bind m k env w = (Thrown err, w').
Proof. intros H. unfold bind. now rewrite H. Qed.

Lemma ignoring_errors_run (m : M unit) env w :
  ignoring_errors m env w = (Returned tt, (m env w).2).
Proof.
  unfold ignoring_errors, try_catch, ret.
  destruct (m env w) as [[[]|err] w']; reflexivity.
Qed.

(** ** Invariants of the world *)

Section Preservation.
Context (I : World -> Prop).

Lemma preserves_ret {A} (a : A) : preserves I (ret a).
Proof. intros env w H. exact H. Qed.

Lemma preserves_throw {A} err : preserves I (@throw A err).
Proof. intros env w H. exact H. Qed.

Lemma preserves_bind {A B} (m : M A) (k : A -> M B) :
  preserves I m -> (forall a, preserves I (k a)) -> preserves I (bind m k).
Proof.
  intros Hm Hk env w H. unfold bind.
  specialize (Hm env w H). destruct (m env w) as [[a|err] w']; simpl in *.
  - now apply Hk.
  - exact Hm.
Qed.

Lemma preserves_try_catch {A} (m : M A) (h : Error -> M A) :
  preserves I m -> (forall err, preserves I (h err)) -> preserves I (try_catch m h).
Proof.
  intros Hm Hh env w H. unfold try_catch.
  specialize (Hm env w H). destruct (m env w) as [[a|err] w']; simpl in *.
  - exact Hm.
  - now apply Hh.
Qed.

Lemma preserves_try_finally {A} (m : M A) (f : M unit) :
  preserves I m -> preserves I f -> preserves I (try_finally m f).
Proof.
  intros Hm Hf env w H. unfold try_finally.
  specialize (Hm env w H). destruct (m env w) as [r w']; simpl in *.
  specialize (Hf env w' Hm). destruct (f env w') as [[u|err] w'']; exact Hf.
Qed.

Lemma preserves_ignoring_errors (m : M unit) :
  preserves I m -> preserves I (ignoring_errors m).
Proof. intros Hm. apply preserves_try_catch; [exact Hm | intros; apply preserves_ret]. Qed.

Lemma preserves_when b (m : M unit) : preserves I m -> preserves I (when b m).
Proof. intros Hm. destruct b; [exact Hm | apply preserves_ret]. Qed.

Lemma preserves_for_each {A} (xs : list A) (body : A -> M unit) :
  (forall x, preserves I (body x)) -> preserves I (for_each xs body).
Proof.
  intros Hb. induction xs as [|x rest IH]; simpl.
  - apply preserves_ret.
  - apply preserves_bind; [apply Hb | intros _; exact IH].
Qed.

Lemma preserves_modify (f : World -> World) :
  (forall w, I w -> I (f w)) -> preserves I (modify f).
Proof. intros Hf env w H. now apply Hf. Qed.

Lemma preserves_get_world : preserves I get_world.
Proof. intros env w H. exact H. Qed.

Lemma preserves_date_now : preserves I date_now.
Proof. intros env w H. exact H. Qed.

Lemma preserves_ask q : preserves I (ask q).
Proof. intros env w H. exact H. Qed.

Lemma preserves_channel_members ch : preserves I (channel_members ch).
Proof. intros env w H. exact H. Qed.

Lemma preserves_sent_message_id : preserves I sent_message_id.
Proof. intros env w H. exact H. Qed.

Lemma preserves_read {A} (f : Env -> A) : preserves I (fun env w => (Returned (f env), w)).
Proof. intros env w H. exact H. Qed.

Lemma preserves_perform e :
  (forall w ok, I w -> I (with_trace (fun t => t ++ [(e, ok)]) w)) -> preserves I (perform e).
Proof.
  intros Hf env w H. unfold perform.
  destruct (eff_ok env (length (trace w)) e); simpl; now apply Hf.
Qed.
End Preservation.

(** One step of a preservation proof: split the computation at its
    outermost construct. *)
Ltac preserve_step :=
  lazymatch goal with
  | |- preserves _ (ret _) => apply preserves_ret
  | |- preserves _ (throw _) => apply preserves_throw
  | |- preserves _ get_world => apply preserves_get_world
  | |- preserves _ date_now => apply preserves_date_now
  | |- preserves _ (ask _) => apply preserves_ask
  | |- preserves _ (channel_members _) => apply preserves_channel_members
  | |- preserves _ sent_message_id => apply preserves_sent_message_id
  | |- preserves _ (fun env w => (Returned _, w)) => apply preserves_read
  | |- preserves _ (ignoring_errors _) => apply preserves_ignoring_errors
  | |- preserves _ (when _ _) => apply preserves_when
  | |- preserves _ (for_each _ _) => apply preserves_for_each; intros ?
  | |- preserves _ (try_finally _ _) => apply preserves_try_finally
  | |- preserves _ (try_catch _ _) => apply preserves_try_catch; [ | intros ? ]
  | |- preserves _ (bind _ _) => apply preserves_bind; [ | intros ? ]
  | |- preserves _ (match ?x with _ => _ end) => destruct x
  end.

Lemma keeps_sessions_preserves {A} (m : M A) I :
  sessions_only I -> keeps_sessions m -> preserves I m.
Proof. intros HI Hm env w H. apply (HI w); [symmetry; apply Hm | exact H]. Qed.

Lemma keeps_sessions_intro {A} (m : M A) :
  (forall X, preserves (fun w => activeSessions w = X) m) -> keeps_sessions m.
Proof. intros H env w. now apply (H (activeSessions w) env w). Qed.

Lemma keeps_sessions_eq {A} (m : M A) X :
  keeps_sessions m -> preserves (fun w => activeSessions w = X) m.
Proof. intros Hm env w Hw. now rewrite Hm. Qed.

Create HintDb keeps discriminated.

(** Closes [keeps_sessions m] for a computation built from the constructs
    above, assignments to the other components of the world, and
    computations already known to keep the registry. *)
Ltac keep_sessions :=
  apply keeps_sessions_intro; intros ?;
  repeat first
    [ lazymatch goal with
      | |- preserves _ (perform _) => apply preserves_perform; intros ? ? ?; assumption
      | |- preserves _ (modify _) => apply preserves_modify; intros ? ?; assumption
      | |- preserves _ _ => apply keeps_sessions_eq; solve [ eauto with keeps ]
      end
    | preserve_step ].

Lemma createSession_keeps session : keeps_sessions (createSession session).
Proof. unfold createSession. keep_sessions. Qed.

Lemma getSession_keeps sid : keeps_sessions (getSession sid).
Proof. unfold getSession. keep_sessions. Qed.

Lemma updateSession_keeps sid u : keeps_sessions (updateSession sid u).
Proof. unfold updateSession. keep_sessions. Qed.

Lemma deleteSession_keeps sid : keeps_sessions (deleteSession sid).
Proof. unfold deleteSession. keep_sessions. Qed.

Lemma deleteUserSession_keeps u : keeps_sessions (deleteUserSession u).
Proof. unfold deleteUserSession. keep_sessions. Qed.

Lemma createUserSession_keeps u sid : keeps_sessions (createUserSession u sid).
Proof. unfold createUserSession, deleteUserSession. keep_sessions. Qed.

Lemma manageVoiceChannelAccess_keeps target u a :
  keeps_sessions (manageVoiceChannelAccess target u a).
Proof. unfold manageVoiceChannelAccess. keep_sessions. Qed.

Lemma delete_channel_and_category_keeps ch : keeps_sessions (delete_channel_and_category ch).
Proof. unfold delete_channel_and_category. keep_sessions. Qed.

Lemma cached_channel_keeps g ch : keeps_sessions (cached_channel g ch).
Proof. unfold cached_channel. keep_sessions. Qed.

Lemma cached_guild_channel_keeps g ch : keeps_sessions (cached_guild_channel g ch).
Proof. unfold cached_guild_channel, cached_channel. keep_sessions. Qed.

Lemma setTimeout_keeps t : keeps_sessions (setTimeout t).
Proof. unfold setTimeout. keep_sessions. Qed.

Lemma clearTimeout_keeps tid : keeps_sessions (clearTimeout tid).
Proof. unfold clearTimeout. keep_sessions. Qed.

#[global] Hint Resolve createSession_keeps getSession_keeps updateSession_keeps
  deleteSession_keeps deleteUserSession_keeps createUserSession_keeps
  manageVoiceChannelAccess_keeps delete_channel_and_category_keeps
  cached_channel_keeps cached_guild_channel_keeps setTimeout_keeps
  clearTimeout_keeps : keeps.

(** A computation that keeps the registry preserves whatever only looks
    at the registry. *)
Ltac by_keeping HI :=
  apply keeps_sessions_preserves; [ apply HI | solve [ eauto with keeps ] ].



(** * The durable-store wrapper *)

Lemma try_catch_returns {A} (m : M A) (h : Error -> M A) env w :
  (forall err w', returns (h err) env w') -> returns (try_catch m h) env w.
Proof.
  intros Hh. unfold returns, try_catch.
  destruct (m env w) as [[a|err] w']; [now exists a | apply Hh].
Qed.

Lemma ret_returns {A} (a : A) env w : returns (ret a) env w.
Proof. now exists a. Qed.

(** The nine reading, updating, deleting and listing methods end in a
    [catch] that returns: none of them throws, whatever the database does. *)
Lemma storage_wrappers_never_throw env w :
  (forall sid, returns (getSession sid) env w) /\
  (forall sid u, returns (updateSession sid u) env w) /\
  (forall sid, returns (deleteSession sid) env w) /\
  returns getAllActiveSessions env w /\
  (forall g, returns (getGuildSettings g) env w) /\
  (forall g ch, returns (setGuildSettings g ch) env w) /\
  returns cleanupExpiredSessions env w /\
  (forall u, returns (getUserSession u) env w) /\
  (forall u, returns (deleteUserSession u) env w).
Proof.
  repeat split; intros; apply try_catch_returns; intros; apply ret_returns.
Qed.

(** C9. When the database rejects the query of [getSession],
    [updateSession], [getGuildSettings], [setGuildSettings] or
    [getUserSession], the method returns undefined; [deleteSession] and
    [deleteUserSession] return false, [getAllActiveSessions] returns the
    empty list and [cleanupExpiredSessions] returns 0; none of the nine ever
    throws.  [createSession] and [createUserSession] are the two that
    rethrow the database error of their insert to the caller. *)
Theorem storage_error_policy env w :
  let n := length (trace w) in
  (forall sid, eff_ok env n (DbSelectSession sid) = false ->
               (getSession sid env w).1 = Returned None) /\
  (forall sid u, eff_ok env n (DbUpdateSession sid u) = false ->
                 (updateSession sid u env w).1 = Returned None) /\
  (forall sid, eff_ok env n (DbDeactivateSession sid) = false ->
               (deleteSession sid env w).1 = Returned false) /\
  (eff_ok env n DbSelectActiveSessions = false ->
   (getAllActiveSessions env w).1 = Returned []) /\
  (forall g, eff_ok env n (DbSelectGuildSettings g) = false ->
             (getGuildSettings g env w).1 = Returned None) /\
  (forall g ch, eff_ok env n (DbUpsertGuildSettings g ch) = false ->
                (setGuildSettings g ch env w).1 = Returned None) /\
  (eff_ok env n DbDeactivateExpired = false ->
   (cleanupExpiredSessions env w).1 = Returned 0%nat) /\
  (forall u, eff_ok env n (DbSelectUserSession u) = false ->
             (getUserSession u env w).1 = Returned None) /\
  (forall u, eff_ok env n (DbDeleteUserSession u) = false ->
             (deleteUserSession u env w).1 = Returned false) /\
  (forall s, eff_ok env n (DbInsertSession (n_id s)) = false ->
             (createSession s env w).1 = Thrown (ExternalFailure (DbInsertSession (n_id s)))) /\
  (forall u sid, eff_ok env (S n) (DbInsertUserSession u sid) = false ->
                 (createUserSession u sid env w).1
                 = Thrown (ExternalFailure (DbInsertUserSession u sid))) /\
  (forall sid, returns (getSession sid) env w) /\
  (forall sid u, returns (updateSession sid u) env w) /\
  (forall sid, returns (deleteSession sid) env w) /\
  returns getAllActiveSessions env w /\
  (forall g, returns (getGuildSettings g) env w) /\
  (forall g ch, returns (setGuildSettings g ch) env w) /\
  returns cleanupExpiredSessions env w /\
  (forall u, returns (getUserSession u) env w) /\
  (forall u, returns (deleteUserSession u) env w).
Proof.
  intros n. subst n.
  repeat lazymatch goal with
  | |- _ /\ _ => split
  end;
  try (apply storage_wrappers_never_throw);
  intros;
  unfold getSession, updateSession, deleteSession, getAllActiveSessions,
    getGuildSettings, setGuildSettings, cleanupExpiredSessions, getUserSession,
    createSession, createUserSession, deleteUserSession,
    try_catch, bind, perform, ret, throw, modify; simpl;
  try match goal with H : eff_ok _ _ _ = false |- _ => rewrite H end;
  try reflexivity.
  destruct (eff_ok env (length (trace w)) (DbDeleteUserSession u)); simpl;
    rewrite last_length, H; reflexivity.
Qed.

Lemma storage_error_policy_witness :
  (getSession "s1" env_db_down empty_world).1 = Returned None /\
  (createSession (mkNewSession "s1" "A" "g" "c" "Valorant" "Unrated" 2 None waiting ["A"] []
                    (Some "vc1") None) env_db_down empty_world).1
  = Thrown (ExternalFailure (DbInsertSession "s1")).
Proof.
  pose proof (storage_error_policy env_db_down empty_world) as H. cbv zeta in H.
  destruct H as (Hget & _ & _ & _ & _ & _ & _ & _ & _ & Hcreate & _).
  split; [apply Hget; reflexivity | apply Hcreate; reflexivity].
Defined.

(** * The resource operation guard *)


Lemma try_finally_catch_returns {A} (body : M A) (a : A) (f : World -> World) env w :
  returns (try_finally (try_catch body (fun _ => ret a)) (modify f)) env w.
Proof.
  unfold returns, try_finally, try_catch, modify, ret.
  destruct (body env w) as [[b|err] w']; simpl; eauto.
Qed.






(** * Deleting a channel that is already gone *)

(** A guarded deletion that reaches its re-fetch (the channel object has
    an id and no deletion of it is in flight) and whose re-fetch is
    rejected returns true; the only external call it made is that fetch
    and the operation key is released again. *)
Lemma missing_channel_run env w ch :
  ch <> "" ->
  voiceChannelOperations w !! ("delete_" +:+ ch) = None ->
  eff_ok env (length (trace w)) (ChannelFetch ch) = false ->
  safeDeleteVoiceChannel (Some ch) env w
  = (Returned true, with_trace (fun t => t ++ [(ChannelFetch ch, false)]) w).
Proof.
  intros Hid Hfree Hgone. unfold safeDeleteVoiceChannel.
  rewrite bool_decide_false by assumption.
  unfold bind at 1, get_world. simpl.
  rewrite bool_decide_false by (rewrite Hfree; apply is_Some_None).
  unfold bind, date_now, modify, try_finally, try_catch, perform, ret. simpl.
  rewrite Hgone. simpl.
  unfold with_voiceChannelOperations, with_trace. simpl.
  rewrite delete_insert_id by assumption. reflexivity.
Qed.

Lemma calls_since_start P w : calls_since (trace w) P w.
Proof. exists []. split; [now rewrite app_nil_r | constructor]. Qed.

Lemma calls_since_inv t0 P w calls :
  calls_since t0 P w -> trace w = t0 ++ calls -> Forall P calls.
Proof.
  intros (calls' & Ht & Hall) Ht'. rewrite Ht in Ht'.
  apply app_inv_head in Ht'. now subst.
Qed.

Lemma preserves_perform_calls t0 (P : Effect * bool -> Prop) e :
  (forall ok, P (e, ok)) -> preserves (calls_since t0 P) (perform e).
Proof.
  intros He. apply preserves_perform. intros w ok (calls & Ht & Hcalls).
  exists (calls ++ [(e, ok)]). simpl. rewrite Ht, app_assoc.
  split; [reflexivity|]. apply Forall_app. split; [exact Hcalls|]. now constructor.
Qed.

(** Once the channel is fetched, the deletion does not fetch it again. *)
Lemma delete_fetched_channel_calls t0 ch :
  preserves (calls_since t0 (fun call => ~ is_failed_fetch call)) (delete_fetched_channel ch).
Proof.
  unfold delete_fetched_channel, delete_channel_and_category, updateSession.
  repeat first
    [ lazymatch goal with
      | |- preserves _ (perform _) =>
          apply preserves_perform_calls; intros ? [? [=]]
      | |- preserves _ (modify _) => apply preserves_modify; intros ? H; exact H
      end
    | preserve_step ].
Qed.

(** C10. Whenever a call of the guarded deletion makes its re-fetch of the
    channel and the re-fetch finds nothing (the fetch is rejected, which
    [.catch(() => null)] turns into [null]), the call returns true. *)
Theorem delete_of_missing_channel_succeeds target env w calls :
  trace (safeDeleteVoiceChannel target env w).2 = trace w ++ calls ->
  Exists is_failed_fetch calls ->
  (safeDeleteVoiceChannel target env w).1 = Returned true.
Proof.
  intros Htrace Hgone.
  assert (Hidle : trace (safeDeleteVoiceChannel target env w).2 = trace w -> False).
  { intros Hsame. rewrite Hsame in Htrace.
    rewrite <- (app_nil_r (trace w)) in Htrace at 1.
    apply app_inv_head in Htrace. subst calls. now apply Exists_nil in Hgone. }
  destruct target as [ch|]; [|exfalso; now apply Hidle].
  destruct (decide (ch = "")) as [Hid|Hid].
  { exfalso. apply Hidle. unfold safeDeleteVoiceChannel.
    now rewrite (bool_decide_true _ Hid). }
  destruct (voiceChannelOperations w !! ("delete_" +:+ ch)) as [ts|] eqn:Hkey.
  { exfalso. apply Hidle. unfold safeDeleteVoiceChannel.
    rewrite (bool_decide_false _ Hid). unfold bind at 1, get_world. simpl.
    rewrite Hkey. now rewrite bool_decide_true by eauto. }
  destruct (eff_ok env (length (trace w)) (ChannelFetch ch)) eqn:Hfetch.
  2:{ now rewrite missing_channel_run. }
  exfalso.
  assert (Hcalls : calls_since (trace w) (fun call => ~ is_failed_fetch call)
                     (safeDeleteVoiceChannel (Some ch) env w).2).
  { unfold safeDeleteVoiceChannel.
    rewrite (bool_decide_false _ Hid). unfold bind at 1, get_world. simpl.
    rewrite Hkey. rewrite bool_decide_false by apply is_Some_None.
    unfold bind at 1, date_now. unfold bind at 1, modify at 1.
    unfold try_finally, try_catch at 1.
    erewrite run_bind
      by (unfold try_catch, bind, perform, ret; simpl; rewrite Hfetch; reflexivity).
    simpl.
    match goal with
    | |- context [ delete_fetched_channel ch env ?w1 ] =>
        pose proof (delete_fetched_channel_calls (trace w) ch env w1) as Hrest;
        destruct (delete_fetched_channel ch env w1) as [[b|err] w2]
    end; simpl in *; apply Hrest;
      (exists [(ChannelFetch ch, true)]; split; [reflexivity|];
       constructor; [intros [? [=]] | constructor]). }
  pose proof (calls_since_inv _ _ _ _ Hcalls Htrace) as Hnone.
  apply Exists_exists in Hgone as (call & Hin & Hfail).
  rewrite Forall_forall in Hnone. exact (Hnone call Hin Hfail).
Qed.

Lemma delete_of_missing_channel_succeeds_witness :
  (safeDeleteVoiceChannel (Some "vc1") env_channel_gone empty_world).1 = Returned true.
Proof.
  apply (delete_of_missing_channel_succeeds (Some "vc1") env_channel_gone empty_world
           [(ChannelFetch "vc1", false)]).
  - reflexivity.
  - apply Exists_cons_hd. exists "vc1". reflexivity.
Defined.

(** * Confirmed players are current players *)


























(** ** Who can become a confirmed player *)

























(** * The confirmation timeout *)

(** [[...new Set(l)]] has the elements of [l], each once. *)
Lemma Set_spread_from_elem (l acc : list string) x :
  x ∈ fold_left (fun acc x => if bool_decide (x ∈ acc) then acc else acc ++ [x]) l acc
  <-> x ∈ acc \/ x ∈ l.
Proof.
  revert acc. induction l as [|y l IH]; intros acc; simpl.
  - rewrite elem_of_nil. tauto.
  - rewrite IH, elem_of_cons. case_bool_decide as Hy.
    + split; [tauto|]. intros [H|[->|H]]; tauto.
    + rewrite elem_of_app, list_elem_of_singleton. tauto.
Qed.

Lemma Set_spread_from_NoDup (l acc : list string) :
  NoDup acc ->
  NoDup (fold_left (fun acc x => if bool_decide (x ∈ acc) then acc else acc ++ [x]) l acc).
Proof.
  revert acc. induction l as [|y l IH]; intros acc Hacc; simpl; [exact Hacc|].
  apply IH. case_bool_decide as Hy; [exact Hacc|].
  apply NoDup_app. split; [exact Hacc|]. split; [|apply NoDup_singleton].
  intros x Hx Hx'. apply list_elem_of_singleton in Hx'. now subst.
Qed.

Lemma Set_spread_elem l x : x ∈ Set_spread l <-> x ∈ l.
Proof. unfold Set_spread. rewrite Set_spread_from_elem, elem_of_nil. tauto. Qed.

Lemma Set_spread_NoDup l : NoDup (Set_spread l).
Proof. apply Set_spread_from_NoDup, NoDup_nil_2. Qed.

Lemma Set_spread_cons_nonempty x l : Set_spread (x :: l) <> [].
Proof.
  intros H. assert (Hx : x ∈ Set_spread (x :: l)) by (apply Set_spread_elem, elem_of_cons; now left).
  rewrite H in Hx. now apply elem_of_nil in Hx.
Qed.

Lemma session_at_sessions_only sid P : sessions_only (session_at sid P).
Proof. intros w w' Heq [s [Hs HP]]. exists s. now rewrite <- Heq. Qed.

Lemma preserves_assign_at sid P ref f :
  (forall s, P s -> P (f s)) -> preserves (session_at sid P) (assign ref f).
Proof.
  intros Hf env w [s [Hs HP]]. unfold session_at, assign, modify. simpl.
  rewrite lookup_alter. case_decide as Hk.
  - subst. rewrite Hs. simpl. eauto.
  - eauto.
Qed.

(** Leaves of a proof that the session under [sid] keeps a property that
    assignments to [status := waiting] and to [messageId] do not disturb. *)
Ltac session_leaf Hmsg Hstatus :=
  lazymatch goal with
  | |- preserves _ (perform _) => apply preserves_perform; intros ? ? H; exact H
  | |- preserves _ (modify _) => apply preserves_modify; intros ? H; exact H
  | |- preserves _ (assign _ (set_messageId _)) =>
      apply preserves_assign_at; intros ? ?; now apply Hmsg
  | |- preserves _ (mutate _ (set_status waiting) _) =>
      unfold mutate; apply preserves_bind;
      [ apply preserves_assign_at; intros ? ?; now apply Hstatus
      | intros ?; apply preserves_ret ]
  | |- preserves _ _ => by_keeping (session_at_sessions_only)
  end.

Lemma reopenLfg_at sid P ref session :
  currentPlayers session <> [] ->
  (forall s v, P s -> P (set_messageId v s)) ->
  (forall s, P s -> P (set_status waiting s)) ->
  preserves (session_at sid P) (reopenLfg ref session).
Proof.
  intros Hne Hmsg Hstatus. unfold reopenLfg.
  rewrite bool_decide_false by (destruct (currentPlayers session); [done | discriminate]).
  unfold refresh_announcement.
  repeat first [ session_leaf Hmsg Hstatus | preserve_step ].
Qed.

(** The revocation loop of the timeout leaves the registry alone. *)
Lemma revoke_unconfirmed_keeps g vc players :
  keeps_sessions
    (let* vc := cached_guild_channel g vc in
     match vc with
     | Some ch =>
         for_each players
           (fun playerId =>
              perform (PermissionDelete ch playerId) >>;
              let* cached := ask (MemberCached playerId) in
              let* member :=
                if cached then ret true
                else try_catch (perform (MemberFetch playerId) >>; ret true) (fun _ => ret false) in
              let* connected := if member then ask (MemberInVoice playerId ch) else ret false in
              when connected (perform (VoiceDisconnect playerId)))
     | None => ret tt
     end).
Proof. unfold cached_guild_channel, cached_channel. keep_sessions. Qed.

(** C2. When the confirmation timeout runs on a session that is
    confirming, the session stays in the registry with: as current players
    the creator followed by the players who had confirmed, each once (a
    list without duplicates whose members are exactly the creator and the
    previously confirmed players); no confirmed players; status waiting;
    no confirmation start time; and no timer handle. *)
Theorem confirmation_timeout_resets env w sid s :
  activeSessions w !! sid = Some s ->
  status s = confirming ->
  exists s',
    activeSessions (handleConfirmationTimeout sid env w).2 !! sid = Some s' /\
    reset_by_timeout s s' /\
    NoDup (currentPlayers s') /\
    (forall x, x ∈ currentPlayers s' <-> x = creator s \/ x ∈ confirmedPlayers s).
Proof.
  intros Hs Hst.
  assert (Hat : session_at sid (reset_by_timeout s) (handleConfirmationTimeout sid env w).2).
  { unfold handleConfirmationTimeout.
    rewrite (run_bind get_world _ env w w w eq_refl). rewrite Hs.
    rewrite bool_decide_true by exact Hst. simpl.
    erewrite run_bind by reflexivity.
    erewrite run_bind by apply ignoring_errors_run.
    match goal with
    | |- context [ (?m env ?w0).2 ] =>
        lazymatch m with
        | bind (cached_guild_channel _ _) _ =>
            pose proof (revoke_unconfirmed_keeps _ _ _ env w0 : activeSessions (m env w0).2 = _) as Hkeep;
            revert Hkeep; generalize (m env w0).2
        end
    end.
    intros w2 Hkeep. simpl in Hkeep.
    do 4 (erewrite run_bind by reflexivity).
    apply reopenLfg_at.
    - simpl. apply Set_spread_cons_nonempty.
    - intros s0 v H0. exact H0.
    - intros s0 (H1 & H2 & H3 & H4 & H5). repeat split; assumption.
    - unfold session_at. simpl. rewrite Hkeep.
      rewrite !lookup_alter_eq, Hs. simpl. eexists. split; [reflexivity|].
      repeat split. }
  destruct Hat as [s' [Hs' Hreset]]. exists s'. split; [exact Hs'|]. split; [exact Hreset|].
  destruct Hreset as (Hcur & _). rewrite Hcur. split; [apply Set_spread_NoDup|].
  intros x. rewrite Set_spread_elem, elem_of_cons. tauto.
Qed.

Lemma confirmation_timeout_resets_witness :
  exists s',
    activeSessions (handleConfirmationTimeout "s1" (env_ok 301000) (trio_world ["A"])).2 !! "s1"
    = Some s' /\
    currentPlayers s' = ["A"] /\ confirmedPlayers s' = [] /\ status s' = waiting /\
    confirmationStartTime s' = None.
Proof.
  destruct (confirmation_timeout_resets (env_ok 301000) (trio_world ["A"]) "s1" (trio ["A"])
              eq_refl eq_refl) as (s' & Hs' & (H1 & H2 & H3 & H4 & _) & _).
  exists s'. repeat split; assumption.
Defined.

(** * The last confirmation *)

(** C3, as the code has it. When the clicking user is the last member of
    a confirming session who had not confirmed (adding them to the
    confirmed players gives the current players, up to order), and the
    interaction is acknowledged, the handler records the confirmation,
    clears the timer of the session, clears the confirmation start time
    and makes the session active; the session stays in [activeSessions] and
    [userCreatedSessions] is untouched. *)
Theorem last_confirmation_activates env w i s :
  eff_ok env (length (trace w)) DeferReply = true ->
  activeSessions w !! i_session i = Some s ->
  status s = confirming ->
  i_user i ∉ confirmedPlayers s ->
  confirmedPlayers s ++ [i_user i] ≡ₚ currentPlayers s ->
  let w' := (handleConfirmation i env w).2 in
  exists s',
    activeSessions w' !! i_session i = Some s' /\
    status s' = active /\
    confirmationStartTime s' = None /\
    timeoutId s' = None /\
    confirmedPlayers s' = confirmedPlayers s ++ [i_user i] /\
    currentPlayers s' = currentPlayers s /\
    (forall tid, timeoutId s = Some tid -> timers w' !! tid = None) /\
    userCreatedSessions w' = userCreatedSessions w.
Proof.
  intros Hdefer Hs Hst Hnew Hall w'. subst w'.
  assert (Hin : i_user i ∈ currentPlayers s).
  { rewrite <- Hall. apply elem_of_app. right. now apply list_elem_of_singleton. }
  assert (Hlen : length (confirmedPlayers s ++ [i_user i]) = length (currentPlayers s)).
  { now apply Permutation_length. }
  unfold handleConfirmation.
  erewrite run_bind by (unfold perform; rewrite Hdefer; reflexivity).
  erewrite run_bind by reflexivity. simpl. rewrite Hs. unfold includes.
  rewrite (bool_decide_true _ Hin). simpl.
  rewrite (bool_decide_true _ Hst). simpl.
  rewrite (bool_decide_false _ Hnew). simpl.
  erewrite run_bind by reflexivity. simpl.
  rewrite (bool_decide_true _ Hlen).
  unfold clear_session_timeout, finalizeSession. simpl.
  destruct (timeoutId s) as [tid|] eqn:Htid.
  - repeat (erewrite run_bind by reflexivity).
    rewrite ignoring_errors_run. unfold perform. simpl.
    eexists. split.
    { destruct (eff_ok env _ InteractionMessageEdit); simpl;
        rewrite !lookup_alter_eq, Hs; reflexivity. }
    simpl. repeat split.
    + intros tid' [= <-].
      destruct (eff_ok env _ InteractionMessageEdit); simpl; apply lookup_delete_eq.
    + destruct (eff_ok env _ InteractionMessageEdit); reflexivity.
  - repeat (erewrite run_bind by reflexivity).
    rewrite ignoring_errors_run. unfold perform. simpl.
    eexists. split.
    { destruct (eff_ok env _ InteractionMessageEdit); simpl;
        rewrite !lookup_alter_eq, Hs; reflexivity. }
    simpl. repeat split.
    + rewrite Htid. reflexivity.
    + intros tid' [=].
    + destruct (eff_ok env _ InteractionMessageEdit); reflexivity.
Qed.

Lemma last_confirmation_activates_witness :
  exists s',
    activeSessions (handleConfirmation (click "B") (env_ok 2000) duo_world).2 !! "s1" = Some s' /\
    status s' = active /\ confirmationStartTime s' = None /\ timeoutId s' = None.
Proof.
  assert (Hnew : "B" ∉ confirmedPlayers duo).
  { simpl. intros H. apply list_elem_of_singleton in H. discriminate H. }
  destruct (last_confirmation_activates (env_ok 2000) duo_world (click "B") duo
              eq_refl eq_refl eq_refl Hnew (reflexivity _))
    as (s' & Hs' & H1 & H2 & H3 & _).
  exists s'. repeat split; assumption.
Defined.

(** After the last confirmation of [duo], the session is still in the
    registry and its creator is still in the creator index: finalisation
    does not remove it. *)
Lemma finalized_session_stays_tracked :
  let w' := (handleConfirmation (click "B") (env_ok 2000) duo_world).2 in
  status <$> activeSessions w' !! "s1" = Some active /\
  activeSessions w' !! "s1" <> None /\
  userCreatedSessions w' !! "A" = Some "s1".
Proof. vm_compute. repeat split; [discriminate]. Qed.

(** * Writes to the durable store *)

Lemma quiet_start w : quiet (trace w) (lfg_sessions w) w.
Proof. split; [reflexivity|]. exists []. now rewrite app_nil_r. Qed.

Lemma preserves_perform_quiet t0 rows e :
  is_db_effect e = false -> preserves (quiet t0 rows) (perform e).
Proof.
  intros He. apply preserves_perform. intros w ok [Hrows (calls & Ht & Hcalls)].
  split; [exact Hrows|]. exists (calls ++ [(e, ok)]). simpl. rewrite Ht, app_assoc.
  split; [reflexivity|]. apply Forall_app. split; [exact Hcalls|]. now constructor.
Qed.

Ltac quiet_leaf :=
  lazymatch goal with
  | |- preserves _ (perform _) => apply preserves_perform_quiet; reflexivity
  | |- preserves _ (modify _) => apply preserves_modify; intros ? H; exact H
  | |- preserves _ (assign _ _) => unfold assign
  | |- preserves _ (mutate _ _ _) => unfold mutate
  | |- preserves _ (clearTimeout _) => unfold clearTimeout
  end.

(** No path through [handleConfirmation] sends a query to the database:
    whatever it changes in memory, the store is not told. *)
Lemma handleConfirmation_never_writes i env w :
  quiet (trace w) (lfg_sessions w) (handleConfirmation i env w).2.
Proof.
  assert (Hall : forall t0 rows, preserves (quiet t0 rows) (handleConfirmation i)).
  { intros t0 rows.
    unfold handleConfirmation, clear_session_timeout, finalizeSession.
    repeat first [ quiet_leaf | preserve_step ]. }
  apply Hall, quiet_start.
Qed.

(** C4 at a failing input: [B] confirms in a session of three where nobody
    had confirmed.  The handler returns, the session in memory has [B]
    confirmed, and the only calls that left the process are the two
    interaction responses: no write reaches the store, whose row is as it
    was. *)
Theorem confirmation_is_not_written_to_the_store :
  let r := handleConfirmation (click "B") (env_ok 2000) (trio_world []) in
  r.1 = Returned tt /\
  confirmedPlayers <$> activeSessions r.2 !! "s1" = Some ["B"] /\
  trace r.2 = [(DeferReply, true); (EditReply, true)] /\
  lfg_sessions r.2 = lfg_sessions (trio_world []).
Proof. vm_compute. repeat split. Qed.

(** The same for a member who leaves and for a member who declines: the
    lists change in memory, and no call writes them to the store. *)
Lemma leave_is_not_written_to_the_store :
  let r := handleLeaveLfg (click "B") (env_ok 2000) (trio_world ["B"]) in
  currentPlayers <$> activeSessions r.2 !! "s1" = Some ["A"; "C"] /\
  confirmedPlayers <$> activeSessions r.2 !! "s1" = Some [] /\
  Forall (fun call => is_db_effect call.1 = false) (trace r.2) /\
  lfg_sessions r.2 = lfg_sessions (trio_world ["B"]).
Proof. vm_compute. repeat split; repeat constructor. Qed.

Lemma decline_is_not_written_to_the_store :
  let r := handleDecline (click "B") (env_ok 2000) (trio_world ["B"]) in
  currentPlayers <$> activeSessions r.2 !! "s1" = Some ["A"; "C"] /\
  confirmedPlayers <$> activeSessions r.2 !! "s1" = Some [] /\
  Forall (fun call => is_db_effect call.1 = false) (trace r.2) /\
  lfg_sessions r.2 = lfg_sessions (trio_world ["B"]).
Proof. vm_compute. repeat split; repeat constructor. Qed.

Lemma timeout_is_not_written_to_the_store :
  let r := handleConfirmationTimeout "s1" (env_ok 301000) (trio_world ["A"]) in
  currentPlayers <$> activeSessions r.2 !! "s1" = Some ["A"] /\
  Forall (fun call => is_db_effect call.1 = false) (trace r.2) /\
  lfg_sessions r.2 = lfg_sessions (trio_world ["A"]).
Proof. vm_compute. repeat split; repeat constructor. Qed.

(** Joining is the path that does write: the new list of current players
    is sent to the store, and stays in memory when that write fails. *)
Lemma join_is_written_to_the_store :
  let r := handleJoinLfg (click "B") (env_ok 1000) open_world in
  currentPlayers <$> activeSessions r.2 !! "s1" = Some ["A"; "B"] /\
  db_currentPlayers <$> lfg_sessions r.2 !! "s1" = Some ["A"; "B"] /\
  let r' := handleJoinLfg (click "B") env_db_down open_world in
  currentPlayers <$> activeSessions r'.2 !! "s1" = Some ["A"; "B"] /\
  db_currentPlayers <$> lfg_sessions r'.2 !! "s1" = Some ["A"].
Proof. vm_compute. repeat split. Qed.

(** * The recruitment timer *)

(** The callback scheduled at creation expires only a session that is
    still alone and waiting. *)
Lemma recruitment_timer_callback_guarded env w sid s :
  activeSessions w !! sid = Some s ->
  length (currentPlayers s) <> 1%nat \/ status s <> waiting ->
  recruitment_timer_callback sid env w = (Returned tt, w).
Proof.
  intros Hs Hguard. unfold recruitment_timer_callback.
  rewrite (run_bind get_world _ env w w w eq_refl). rewrite Hs.
  destruct Hguard as [H|H]; rewrite (bool_decide_false _ H);
    [reflexivity | rewrite andb_false_r; reflexivity].
Qed.

(** So does the sweep. *)
Lemma recruitment_expired_guarded t s :
  recruitment_expired t s = true ->
  status s = waiting /\ length (currentPlayers s) = 1%nat /\ (twentyMinutes <= t - createdAt s)%Z.
Proof.
  unfold recruitment_expired. rewrite !andb_true_iff, !bool_decide_eq_true. tauto.
Qed.

Lemma cached_guild_channel_run g ch env w :
  exists found, cached_guild_channel g ch env w = (Returned found, w).
Proof.
  unfold cached_guild_channel, cached_channel, bind, ask, ret.
  destruct (query env (length (trace w)) (GuildCached g)); [|eauto].
  destruct ch; eauto.
Qed.

(** The callback scheduled at restoration has no such guard: whatever the
    members and the status of the session it names, the session leaves the
    registry. *)
Lemma restored_timer_callback_unguarded env w sid s :
  activeSessions w !! sid = Some s ->
  activeSessions (restored_timer_callback sid env w).2 !! sid = None.
Proof.
  intros Hs. unfold restored_timer_callback, expireSession.
  rewrite ignoring_errors_run. simpl.
  rewrite (run_bind get_world _ env w w w eq_refl), Hs.
  destruct (cached_guild_channel_run (guildId s) (Some (channelId s)) env w) as [channel Hch].
  rewrite (run_bind _ _ _ _ _ _ Hch).
  (* the voice channel is deleted, or not: the registry is as it was *)
  erewrite run_bind by apply ignoring_errors_run.
  set (w1 := (_ env w).2).
  assert (Hw1 : activeSessions w1 = activeSessions w) by (subst w1; keep_sessions).
  clearbody w1.
  (* the announcement is edited, or not: the same *)
  set (edit := match channel with Some _ => _ | None => _ end).
  assert (Hedit : edit env w1 = (Returned tt, (edit env w1).2)).
  { subst edit. destruct channel as [ch|]; [|reflexivity].
    destruct (truthy (messageId s)); [rewrite ignoring_errors_run|]; reflexivity. }
  rewrite (run_bind _ _ _ _ _ _ Hedit).
  set (w2 := (edit env w1).2).
  assert (Hw2 : activeSessions w2 = activeSessions w1) by (subst w2 edit; keep_sessions).
  clearbody w2. clear Hedit edit.
  (* the entry is deleted, and nothing after that touches the registry *)
  set (rest := fun session : Session => bind (modify (with_activeSessions (delete sid))) _).
  assert (Hrest : forall session w3, activeSessions (rest session env w3).2 !! sid = None).
  { intros session w3. subst rest. cbv beta. erewrite run_bind by reflexivity.
    match goal with
    | |- activeSessions (?m env ?w4).2 !! sid = None =>
        assert (Hm : keeps_sessions m) by keep_sessions; rewrite Hm
    end.
    simpl. apply lookup_delete_eq. }
  unfold clear_session_timeout.
  destruct (timeoutId s) as [tid|]; repeat (erewrite run_bind by reflexivity); apply Hrest.
Qed.

(** C5 at a failing input: the process restarts at minute 10 of a waiting
    session of two.  Restoration puts the session back in the registry and
    schedules timer [0] for the remaining ten minutes; when that timer
    fires, the session, which still has two members, is expired: it leaves
    the registry, its voice channel is deleted and its row is deactivated. *)
Theorem restored_timer_expires_a_joined_session :
  let restored := (loadSessionData (env_ok 600000) stored_world).2 in
  let fired := (fire_timer 0 (env_ok 1200000) restored).2 in
  currentPlayers <$> activeSessions restored !! "s1" = Some ["A"; "B"] /\
  status <$> activeSessions restored !! "s1" = Some waiting /\
  timers restored !! 0%nat = Some (RestoredExpiryTimer "s1" 600000) /\
  activeSessions fired !! "s1" = None /\
  (ChannelDelete "vc1", true) ∈ trace fired /\
  db_isActive <$> lfg_sessions fired !! "s1" = Some false.
Proof.
  vm_compute. repeat split. apply list_elem_of_In. simpl. tauto.
Qed.

(** * The confirmation window *)

(** The sweep treats a confirmation phase as expired from 120000 ms on. *)
Lemma confirmation_expired_iff t s :
  confirmation_expired t s = true <->
  status s = confirming /\
  exists started,
    confirmationStartTime s = Some started /\ started <> 0%Z /\ (120000 <= t - started)%Z.
Proof.
  unfold confirmation_expired, twoMinutes. rewrite andb_true_iff, bool_decide_eq_true.
  destruct (confirmationStartTime s) as [started|].
  - rewrite andb_true_iff, !bool_decide_eq_true. split.
    + intros (Hst & Hne & Hle). split; [exact Hst|]. exists started. repeat split; [exact Hne | lia].
    + intros (Hst & started' & [= <-] & Hne & Hle). repeat split; [exact Hst | exact Hne | lia].
  - split; [intros [_ [=]] | intros (_ & started & [=] & _)].
Qed.

(** C6 at a failing input: [B] fills the session at time [1000].  The
    timer scheduled by the join has a delay of 300000 ms; the sweep that
    runs 120000 ms after the start of the confirmation phase already
    processes the timeout, and [B] is dropped three minutes before the
    timer is due. *)
Theorem sweep_and_timer_disagree :
  let filled := (handleJoinLfg (click "B") (env_ok 1000) open_world).2 in
  let swept := (checkExpiredConfirmations (env_ok 121000) filled).2 in
  status <$> activeSessions filled !! "s1" = Some confirming /\
  confirmationStartTime <$> activeSessions filled !! "s1" = Some (Some 1000%Z) /\
  timers filled !! 1%nat = Some (ConfirmationTimer "s1" 300000) /\
  twoMinutes = 120000%Z /\
  status <$> activeSessions swept !! "s1" = Some waiting /\
  currentPlayers <$> activeSessions swept !! "s1" = Some ["A"].
Proof. vm_compute. repeat split. Qed.

(** Until the window of the sweep has elapsed, the sweep leaves the
    session alone. *)
Lemma sweep_waits_two_minutes :
  let filled := (handleJoinLfg (click "B") (env_ok 1000) open_world).2 in
  let swept := (checkExpiredConfirmations (env_ok 120999) filled).2 in
  status <$> activeSessions swept !! "s1" = Some confirming.
Proof. vm_compute. reflexivity. Qed.

(** * Rolling back a failed creation *)

(** Whenever the rollback of the creation runs, it ends in the
    ReferenceError, without having asked for the deletion of any channel. *)
Lemma create_session_rollback_throws i env w :
  (create_session_rollback i env w).1 = Thrown (ReferenceError "voiceChannel") /\
  calls_since (trace w) (fun call => forall ch, call.1 <> ChannelDelete ch)
    (create_session_rollback i env w).2.
Proof.
  split.
  - unfold create_session_rollback.
    rewrite (run_bind get_world _ env w w w eq_refl).
    destruct (userCreatedSessions w !! i_user i) as [partial|]; [|reflexivity].
    unfold bind, modify. simpl. rewrite ignoring_errors_run. reflexivity.
  - assert (Hall : forall t0, preserves
              (calls_since t0 (fun call => forall ch, call.1 <> ChannelDelete ch))
              (create_session_rollback i)).
    { intros t0. unfold create_session_rollback, deleteSession.
      repeat first
        [ lazymatch goal with
          | |- preserves _ (perform _) => apply preserves_perform_calls; intros ? ? [=]
          | |- preserves _ (modify _) => apply preserves_modify; intros ? H; exact H
          end
        | preserve_step ]. }
    apply Hall, calls_since_start.
Qed.

(** C7 at a failing input: the session is created and stored, then the
    announcement is rejected.  The rollback empties the registry and the
    creator index and deactivates the row, and then throws a
    ReferenceError: the voice channel that was created is never deleted.
    The membership row and the recruitment timer stay behind as well. *)
Theorem rollback_leaves_the_voice_channel :
  let r := handleLfgCommand lfg_request lfg_options env_reply_lost empty_world in
  r.1 = Thrown (ReferenceError "voiceChannel") /\
  (VoiceChannelCreate "vc1", true) ∈ trace r.2 /\
  (forall ok, (ChannelDelete "vc1", ok) ∉ trace r.2) /\
  activeSessions r.2 = ∅ /\
  userCreatedSessions r.2 = ∅ /\
  db_isActive <$> lfg_sessions r.2 !! "A-1000-ab12" = Some false /\
  user_sessions r.2 !! "A" = Some "A-1000-ab12" /\
  timers r.2 !! 0%nat = Some (RecruitmentTimer "A-1000-ab12" (20 * 60 * 1000)).
Proof.
  vm_compute. repeat split.
  - apply list_elem_of_In. simpl. tauto.
  - intros ok H. apply list_elem_of_In in H. simpl in H.
    repeat (destruct H as [H|H]; [discriminate H|]). exact H.
Qed.

(** When the membership row cannot be inserted after the session row was,
    the voice channel is deleted but the session row stays active in the
    store. *)
Lemma rollback_leaves_the_session_row :
  let r := handleLfgCommand lfg_request lfg_options env_membership_lost empty_world in
  r.1 = Returned tt /\
  (ChannelDelete "vc1", true) ∈ trace r.2 /\
  activeSessions r.2 = ∅ /\
  db_isActive <$> lfg_sessions r.2 !! "A-1000-ab12" = Some true.
Proof.
  vm_compute. repeat split. apply list_elem_of_In. simpl. tauto.
Qed.

(** When the session row itself cannot be inserted, the rollback is
    complete: the channel is deleted and nothing is stored. *)
Lemma rollback_after_failed_insert :
  let r := handleLfgCommand lfg_request lfg_options env_db_down empty_world in
  r.1 = Returned tt /\
  (ChannelDelete "vc1", true) ∈ trace r.2 /\
  activeSessions r.2 = ∅ /\ userCreatedSessions r.2 = ∅ /\
  lfg_sessions r.2 = ∅ /\ user_sessions r.2 = ∅ /\ timers r.2 = ∅.
Proof.
  vm_compute. repeat split. apply list_elem_of_In. simpl. tauto.
Qed.

(** * Running a handler step by step *)

Arguments manageVoiceChannelAccess : simpl never.
Arguments safeDeleteVoiceChannel : simpl never.
Arguments createSession : simpl never.
Arguments getSession : simpl never.
Arguments updateSession : simpl never.
Arguments deleteSession : simpl never.
Arguments getAllActiveSessions : simpl never.
Arguments createUserSession : simpl never.
Arguments deleteUserSession : simpl never.
Arguments cached_channel : simpl never.
Arguments cached_guild_channel : simpl never.
Arguments delete_channel_and_category : simpl never.
Arguments clear_session_timeout : simpl never.
Arguments expireSession : simpl never.
Arguments refresh_announcement : simpl never.
Arguments reopenLfg : simpl never.
Arguments finalizeSession : simpl never.
Arguments handleConfirmationTimeout : simpl never.
Arguments setTimeout : simpl never.

Lemma wp_ret {A} (a : A) env w (Q : A -> World -> Prop) E : Q a w -> wp (ret a) env w Q E.
Proof. intros H. exact H. Qed.

Lemma wp_throw {A} err env w (Q : A -> World -> Prop) (E : Error -> World -> Prop) :
  E err w -> wp (throw err) env w Q E.
Proof. intros H. exact H. Qed.

Lemma wp_bind {A B} (m : M A) (k : A -> M B) env w Q E :
  wp m env w (fun a w' => wp (k a) env w' Q E) E -> wp (bind m k) env w Q E.
Proof. unfold wp, bind. destruct (m env w) as [[a|err] w']; auto. Qed.

Lemma wp_try_catch {A} (m : M A) (h : Error -> M A) env w Q E :
  wp m env w Q (fun err w' => wp (h err) env w' Q E) -> wp (try_catch m h) env w Q E.
Proof. unfold wp, try_catch. destruct (m env w) as [[a|err] w']; auto. Qed.

Lemma wp_ignoring_errors (m : M unit) env w (Q : unit -> World -> Prop) E :
  wp m env w (fun _ => Q tt) (fun _ => Q tt) -> wp (ignoring_errors m) env w Q E.
Proof.
  intros H. apply wp_try_catch. unfold wp in *.
  destruct (m env w) as [[[]|err] w']; exact H.
Qed.

Lemma wp_try_finally {A} (m : M A) (f : M unit) env w Q E :
  wp m env w (fun a w' => wp f env w' (fun _ => Q a) E)
             (fun err w' => wp f env w' (fun _ => E err) E) ->
  wp (try_finally m f) env w Q E.
Proof.
  unfold wp, try_finally. destruct (m env w) as [[a|err] w'];
    destruct (f env w') as [[u|err'] w'']; auto.
Qed.

Lemma wp_mono {A} (m : M A) env w (Q Q' : A -> World -> Prop) (E E' : Error -> World -> Prop) :
  wp m env w Q E ->
  (forall a w', Q a w' -> Q' a w') ->
  (forall err w', E err w' -> E' err w') ->
  wp m env w Q' E'.
Proof. unfold wp. destruct (m env w) as [[a|err] w']; auto. Qed.

Lemma wp_get_world env w (Q : World -> World -> Prop) E : Q w w -> wp get_world env w Q E.
Proof. intros H. exact H. Qed.

Lemma wp_date_now env w (Q : Z -> World -> Prop) E : Q (now env) w -> wp date_now env w Q E.
Proof. intros H. exact H. Qed.

Lemma wp_ask q env w (Q : bool -> World -> Prop) E :
  Q (query env (length (trace w)) q) w -> wp (ask q) env w Q E.
Proof. intros H. exact H. Qed.

Lemma wp_read {A} (f : Env -> A) env w (Q : A -> World -> Prop) E :
  Q (f env) w -> wp (fun env w => (Returned (f env), w)) env w Q E.
Proof. intros H. exact H. Qed.

Lemma wp_modify f env w (Q : unit -> World -> Prop) E : Q tt (f w) -> wp (modify f) env w Q E.
Proof. intros H. exact H. Qed.

Lemma wp_assign ref f env w (Q : unit -> World -> Prop) E :
  Q tt (with_activeSessions (alter f ref) w) -> wp (assign ref f) env w Q E.
Proof. intros H. exact H. Qed.

Lemma wp_mutate ref f session env w (Q : Session -> World -> Prop) E :
  Q (f session) (with_activeSessions (alter f ref) w) -> wp (mutate ref f session) env w Q E.
Proof. intros H. exact H. Qed.

Lemma wp_perform e env w (Q : unit -> World -> Prop) (E : Error -> World -> Prop) :
  (eff_ok env (length (trace w)) e = true ->
   Q tt (with_trace (fun t => t ++ [(e, true)]) w)) ->
  (eff_ok env (length (trace w)) e = false ->
   E (ExternalFailure e) (with_trace (fun t => t ++ [(e, false)]) w)) ->
  wp (perform e) env w Q E.
Proof.
  intros Hok Hfail. unfold wp, perform.
  destruct (eff_ok env (length (trace w)) e); simpl; auto.
Qed.

Lemma wp_for_each {A} (Inv : list A -> World -> Prop) (xs : list A) (body : A -> M unit)
    env w (Q : unit -> World -> Prop) E :
  Inv [] w ->
  (forall done x rest w, xs = done ++ x :: rest -> Inv done w ->
     wp (body x) env w (fun _ => Inv (done ++ [x])) E) ->
  (forall w, Inv xs w -> Q tt w) ->
  wp (for_each xs body) env w Q E.
Proof.
  intros H0 Hbody HQ.
  cut (forall rest done w, xs = done ++ rest -> Inv done w ->
         wp (for_each rest body) env w Q E).
  { intros H. now apply (H xs [] w). }
  clear w H0. intros rest. induction rest as [|x rest IH]; intros done w Hxs Hw; simpl.
  - apply wp_ret, HQ. rewrite app_nil_r in Hxs. now subst.
  - apply wp_bind. eapply wp_mono; [exact (Hbody done x rest w Hxs Hw) | | auto].
    intros a w' Hw'. cbv beta in Hw'. apply (IH (done ++ [x])); [|exact Hw'].
    now rewrite <- app_assoc.
Qed.


Lemma wp_keeps {A B} (f : World -> B) (m : M A) env w (Q : A -> World -> Prop) E :
  keeps f m ->
  (forall a w', f w' = f w -> Q a w') ->
  (forall err w', f w' = f w -> E err w') ->
  wp m env w Q E.
Proof.
  intros Hm HQ HE. specialize (Hm env w). unfold wp.
  destruct (m env w) as [[a|err] w']; auto.
Qed.

Lemma wp_run {A} (m : M A) env w a w' (Q : A -> World -> Prop) E :
  m env w = (Returned a, w') -> Q a w' -> wp m env w Q E.
Proof. intros Hrun H. unfold wp. now rewrite Hrun. Qed.

(** What the statements below read off a run. *)
Lemma wp_final {A} (m : M A) env w (R : World -> Prop) :
  wp m env w (fun _ => R) (fun _ => R) -> R (m env w).2.
Proof. unfold wp. destruct (m env w) as [[a|err] w']; auto. Qed.

Lemma wp_returns {A} (m : M A) env w (R : World -> Prop) :
  wp m env w (fun _ => R) (fun _ _ => False) -> returns m env w /\ R (m env w).2.
Proof.
  unfold wp, returns. destruct (m env w) as [[a|err] w']; simpl; [eauto | tauto].
Qed.

Lemma wp_result {A} (m : M A) env w (R : A -> World -> Prop) :
  wp m env w R (fun _ _ => False) -> exists a, (m env w).1 = Returned a /\ R a (m env w).2.
Proof.
  unfold wp. destruct (m env w) as [[a|err] w']; simpl; [eauto | tauto].
Qed.

(** One step of a run: split the computation at its outermost construct. *)
Ltac wp_step :=
  lazymatch goal with
  | |- wp (ret _) _ _ _ _ => apply wp_ret
  | |- wp (throw _) _ _ _ _ => apply wp_throw
  | |- wp (bind _ _) _ _ _ _ => apply wp_bind
  | |- wp get_world _ _ _ _ => apply wp_get_world
  | |- wp date_now _ _ _ _ => apply wp_date_now
  | |- wp (ask _) _ _ _ _ => apply wp_ask
  | |- wp (modify _) _ _ _ _ => apply wp_modify
  | |- wp (assign _ _) _ _ _ _ => apply wp_assign
  | |- wp (mutate _ _ _) _ _ _ _ => apply wp_mutate
  | |- wp (clearTimeout _) _ _ _ _ => apply wp_modify
  | |- wp (ignoring_errors _) _ _ _ _ => apply wp_ignoring_errors
  | |- wp (try_catch _ _) _ _ _ _ => apply wp_try_catch
  | |- wp (try_finally _ _) _ _ _ _ => apply wp_try_finally
  | |- wp (fun env w => (Returned _, w)) _ _ _ _ => apply wp_read
  end; cbv beta.

Ltac wp_steps := repeat wp_step.

(** The steps that need no decision: sequencing, reads and assignments. *)
Ltac wp_simple :=
  lazymatch goal with
  | |- wp (ret _) _ _ _ _ => apply wp_ret
  | |- wp (bind _ _) _ _ _ _ => apply wp_bind
  | |- wp get_world _ _ _ _ => apply wp_get_world
  | |- wp date_now _ _ _ _ => apply wp_date_now
  | |- wp (ask _) _ _ _ _ => apply wp_ask
  | |- wp (modify _) _ _ _ _ => apply wp_modify
  | |- wp (assign _ _) _ _ _ _ => apply wp_assign
  | |- wp (mutate _ _ _) _ _ _ _ => apply wp_mutate
  | |- wp (clearTimeout _) _ _ _ _ => apply wp_modify
  | |- wp (fun env w => (Returned _, w)) _ _ _ _ => apply wp_read
  end; cbv beta.

Ltac wp_go := repeat wp_simple.

(** ** Parts of the world a computation leaves alone *)

Lemma keeps_intro {A B} (f : World -> B) (m : M A) :
  (forall X, preserves (fun w => f w = X) m) -> keeps f m.
Proof. intros H env w. now apply (H (f w) env w). Qed.

Lemma keeps_eq {A B} (f : World -> B) (m : M A) X :
  keeps f m -> preserves (fun w => f w = X) m.
Proof. intros Hm env w Hw. now rewrite Hm. Qed.

Create HintDb frame discriminated.

(** Closes [keeps f m] for a computation built from the constructs of the
    monad, assignments to other parts of the world, and computations
    already known to keep [f]. *)
Ltac keeping :=
  lazymatch goal with
  | |- keeps ?f _ =>
      apply keeps_intro; intros ?;
      repeat first
        [ lazymatch goal with
          | |- preserves _ (perform _) =>
              apply preserves_perform; intros ? ? ?; assumption
          | |- preserves _ (modify _) => apply preserves_modify; intros ? ?; assumption
          | |- preserves _ (assign _ _) => apply preserves_modify; intros ? ?; assumption
          | |- preserves _ _ => apply (keeps_eq f); solve [ eauto with frame ]
          end
        | preserve_step ]
  end.

Lemma createSession_memory session : keeps memory (createSession session).
Proof. unfold createSession. keeping. Qed.

Lemma getSession_memory sid : keeps memory (getSession sid).
Proof. unfold getSession. keeping. Qed.

Lemma updateSession_memory sid u : keeps memory (updateSession sid u).
Proof. unfold updateSession. keeping. Qed.

Lemma deleteSession_memory sid : keeps memory (deleteSession sid).
Proof. unfold deleteSession. keeping. Qed.

Lemma deleteUserSession_memory u : keeps memory (deleteUserSession u).
Proof. unfold deleteUserSession. keeping. Qed.

Lemma createUserSession_memory u sid : keeps memory (createUserSession u sid).
Proof. unfold createUserSession, deleteUserSession. keeping. Qed.

Lemma getAllActiveSessions_memory : keeps memory getAllActiveSessions.
Proof. unfold getAllActiveSessions. keeping. Qed.

Lemma manageVoiceChannelAccess_memory target u a :
  keeps memory (manageVoiceChannelAccess target u a).
Proof. unfold manageVoiceChannelAccess. keeping. Qed.

Lemma delete_channel_and_category_memory ch : keeps memory (delete_channel_and_category ch).
Proof. unfold delete_channel_and_category. keeping. Qed.

Lemma cached_channel_memory g ch : keeps memory (cached_channel g ch).
Proof. unfold cached_channel. keeping. Qed.

Lemma cached_guild_channel_memory g ch : keeps memory (cached_guild_channel g ch).
Proof. unfold cached_guild_channel, cached_channel. keeping. Qed.

#[global] Hint Resolve createSession_memory getSession_memory updateSession_memory
  deleteSession_memory deleteUserSession_memory createUserSession_memory
  getAllActiveSessions_memory manageVoiceChannelAccess_memory
  delete_channel_and_category_memory cached_channel_memory
  cached_guild_channel_memory : frame.

Lemma only_calls_refl w : only_calls w w.
Proof. exists []. destruct w. unfold with_trace. simpl. now rewrite app_nil_r. Qed.

Lemma only_calls_step w w' call :
  only_calls w w' -> only_calls w (with_trace (fun t => t ++ [call]) w').
Proof.
  intros [calls ->]. exists (calls ++ [call]).
  unfold with_trace. simpl. now rewrite app_assoc.
Qed.

Ltac only_calls := repeat apply only_calls_step; apply only_calls_refl.

Lemma find_session_None p m key s :
  find_session p m = None -> m !! key = Some s -> p s = false.
Proof.
  unfold find_session. intros Hnone Hs.
  apply (find_none _ _ Hnone). apply list_elem_of_In, list_elem_of_fmap.
  exists (key, s). split; [reflexivity | now apply elem_of_map_to_list].
Qed.

Lemma find_session_Some p m s :
  find_session p m = Some s -> p s = true /\ exists key, m !! key = Some s.
Proof.
  unfold find_session. intros Hsome. apply find_some in Hsome as [Hin Hp].
  split; [exact Hp|]. apply list_elem_of_In, list_elem_of_fmap in Hin as ([key s'] & -> & Hin).
  exists key. now apply elem_of_map_to_list.
Qed.

(** * Joining *)

(** A join is refused, and changes nothing, when the session is gone,
    when the user is already one of its players, when it is full, or when
    the user is a player of another session. *)
Theorem join_refused interaction env w :
  let sid := i_session interaction in
  let user := i_user interaction in
  (forall s, activeSessions w !! sid = Some s ->
     user ∈ currentPlayers s \/
     (playersNeeded s <= Z.of_nat (length (currentPlayers s)))%Z \/
     exists key other,
       activeSessions w !! key = Some other /\ id other <> sid /\ user ∈ currentPlayers other) ->
  only_calls w (handleJoinLfg interaction env w).2.
Proof.
  intros sid user Hrefused. apply wp_final. unfold handleJoinLfg.
  fold sid user.
  assert (Hend : forall w' pending, only_calls w w' ->
            wp (when pending (perform EditReply)) env w'
               (fun _ => only_calls w) (fun _ => only_calls w)).
  { intros w' [|] Hw'; simpl; [|exact Hw'].
    apply wp_perform; intros _; now apply only_calls_step. }
  wp_step. wp_step. wp_step.
  apply wp_perform; intros _; cbv beta.
  2:{ wp_steps. apply wp_perform; intros _; apply Hend; only_calls. }
  wp_step. wp_step. simpl.
  destruct (activeSessions w !! sid) as [session|] eqn:Hs.
  2:{ wp_steps. apply wp_perform; intros _; wp_step; apply Hend; only_calls. }
  unfold includes. case_bool_decide as Hin; [wp_step; apply Hend; only_calls|].
  case_bool_decide as Hfull; [wp_step; apply Hend; only_calls|].
  destruct (find_session _ _) as [other|] eqn:Hfind; [wp_step; apply Hend; only_calls|].
  exfalso. destruct (Hrefused session eq_refl) as [H | [H | (key & other & Hother & Hid & Hmem)]];
    [contradiction | contradiction |].
  pose proof (find_session_None _ _ key other Hfind Hother) as Hp. simpl in Hp.
  rewrite bool_decide_true in Hp by exact Hid.
  rewrite bool_decide_true in Hp by exact Hmem. discriminate.
Qed.

Lemma wp_ignoring_keeps {B} (f : World -> B) (m : M unit) env w (Q : unit -> World -> Prop) E :
  keeps f m -> (forall w', f w' = f w -> Q tt w') -> wp (ignoring_errors m) env w Q E.
Proof.
  intros Hm HQ. apply wp_ignoring_errors.
  apply (wp_keeps f); [exact Hm | intros _; exact HQ | intros _; exact HQ].
Qed.

Lemma memory_eq w w' :
  memory w' = memory w ->
  activeSessions w' = activeSessions w /\ userCreatedSessions w' = userCreatedSessions w /\
  guildSettingsCache w' = guildSettingsCache w /\ timers w' = timers w /\
  next_timer w' = next_timer w.
Proof. unfold memory. intros [= -> -> -> -> ->]. repeat split. Qed.

(** Steps over a block whose failures are only logged and that leaves
    the maps and timers alone. *)
Ltac wp_skip :=
  lazymatch goal with
  | |- wp (ignoring_errors _) _ _ _ _ =>
      apply (wp_ignoring_keeps memory); [ keeping | ];
      let w' := fresh "w" in
      let H := fresh "Hmem" in
      intros w' H; apply memory_eq in H; simpl in H;
      let H1 := fresh "Hsessions" in
      let H2 := fresh "Hcreators" in
      let H3 := fresh "Hsettings" in
      let H4 := fresh "Htimers" in
      let H5 := fresh "Hnext" in
      destruct H as (H1 & H2 & H3 & H4 & H5); cbv beta
  end.

Lemma wp_setTimeout t env w (Q : nat -> World -> Prop) E :
  Q (next_timer w)
    (with_next_timer (S (next_timer w)) (with_timers (insert (next_timer w) t) w)) ->
  wp (setTimeout t) env w Q E.
Proof. intros H. exact H. Qed.

(** Reads a part of the current world back to the world the run started
    from. *)
Ltac settle :=
  cbn [activeSessions userCreatedSessions guildSettingsCache timers next_timer
       with_activeSessions with_userCreatedSessions with_guildSettingsCache
       with_voiceChannelOperations with_timers with_next_timer with_lfg_sessions
       with_guild_settings with_user_sessions with_trace];
  repeat match goal with
  | H : activeSessions ?x = _ |- context [activeSessions ?x] => rewrite H
  | H : userCreatedSessions ?x = _ |- context [userCreatedSessions ?x] => rewrite H
  | H : guildSettingsCache ?x = _ |- context [guildSettingsCache ?x] => rewrite H
  | H : timers ?x = _ |- context [timers ?x] => rewrite H
  | H : next_timer ?x = _ |- context [next_timer ?x] => rewrite H
  end.

Lemma alter_as_insert {V} (f : V -> V) (k : string) (m : gmap string V) v :
  m !! k = Some v -> alter f k m = <[k := f v]> m.
Proof.
  intros Hk. apply map_eq. intros j. destruct (decide (j = k)) as [->|Hne].
  - now rewrite lookup_alter_eq, lookup_insert_eq, Hk.
  - now rewrite lookup_alter_ne, lookup_insert_ne by congruence.
Qed.

(** A join that passes the checks, once the click is acknowledged, appends
    the user to the current players of the session and changes no other
    session.  When that fills the session it starts confirming: the
    confirmation start is the time of the join, a 5-minute confirmation
    timer is scheduled under a new id and the timer the session held is
    cancelled.  Otherwise status, timer id and timers are as before. *)
Theorem join_adds_the_player interaction env w s :
  let sid := i_session interaction in
  let user := i_user interaction in
  eff_ok env (length (trace w)) DeferUpdate = true ->
  activeSessions w !! sid = Some s ->
  user ∉ currentPlayers s ->
  (Z.of_nat (length (currentPlayers s)) < playersNeeded s)%Z ->
  (forall key other,
     activeSessions w !! key = Some other -> id other <> sid -> user ∉ currentPlayers other) ->
  let w' := (handleJoinLfg interaction env w).2 in
  exists s',
    activeSessions w' = <[sid := s']> (activeSessions w) /\
    currentPlayers s' = currentPlayers s ++ [user] /\
    confirmedPlayers s' = confirmedPlayers s /\
    if bool_decide (Z.of_nat (length (currentPlayers s)) + 1 = playersNeeded s)%Z
    then status s' = confirming /\
         confirmationStartTime s' = Some (now env) /\
         timeoutId s' = Some (next_timer w) /\
         timers w' !! next_timer w = Some (ConfirmationTimer sid 300000) /\
         (forall old, timeoutId s = Some old -> old <> next_timer w -> timers w' !! old = None)
    else status s' = status s /\ timeoutId s' = timeoutId s /\ timers w' = timers w.
Proof.
  intros sid user Hdefer Hs Hnew Hroom Hfree w'. subst w'.
  apply wp_final. unfold handleJoinLfg. fold sid user.
  wp_step. wp_step. wp_step.
  apply wp_perform; [intros _; cbv beta | congruence].
  wp_step. wp_step. simpl. rewrite Hs.
  unfold includes. rewrite bool_decide_false by exact Hnew.
  rewrite bool_decide_false by lia.
  destruct (find_session _ _) as [other|] eqn:Hfind.
  { exfalso. apply find_session_Some in Hfind as [Hp [key Hother]].
    apply andb_true_iff in Hp as [Hid Hmem].
    apply bool_decide_eq_true in Hid, Hmem. exact (Hfree key other Hother Hid Hmem). }
  wp_step. wp_step. wp_step. wp_skip. wp_step. wp_skip.
  cbn [currentPlayers set_currentPlayers playersNeeded].
  replace (Z.of_nat (length (currentPlayers s ++ [user])))
    with (Z.of_nat (length (currentPlayers s)) + 1)%Z
    by (rewrite length_app; simpl; lia).
  case_bool_decide as Hfilled.
  - do 7 wp_step. wp_skip. wp_step.
    assert (Hcleared : forall (Q : unit -> World -> Prop) E,
              Q tt (match timeoutId s with
                    | Some tid => with_timers (delete tid) w2
                    | None => w2
                    end) ->
              wp (match timeoutId s with
                  | Some tid => clearTimeout tid
                  | None => ret tt
                  end) env w2 Q E).
    { intros Q E HQ. destruct (timeoutId s); exact HQ. }
    apply Hcleared. clear Hcleared.
    wp_step. apply wp_setTimeout. wp_step. wp_step. wp_step. wp_skip. wp_step.
    simpl. eexists. settle.
    assert (Hcount : next_timer (match timeoutId s with
                                | Some tid => with_timers (delete tid) w2
                                | None => w2
                                end) = next_timer w).
    { destruct (timeoutId s); settle; reflexivity. }
    assert (Hregistry : activeSessions (match timeoutId s with
                                | Some tid => with_timers (delete tid) w2
                                | None => w2
                                end) = activeSessions w2).
    { destruct (timeoutId s); reflexivity. }
    rewrite Hcount, Hregistry. settle.
    rewrite (alter_as_insert _ _ _ _ Hs), !alter_insert_eq.
    split; [reflexivity|]. simpl.
    repeat split.
    + apply lookup_insert_eq.
    + intros old Hold Hne. rewrite Hold. settle.
      rewrite lookup_insert_ne by congruence. apply lookup_delete_eq.
  - wp_step. apply wp_perform; intros _; cbv beta.
    + wp_step. wp_step. apply wp_perform; intros _; cbv beta.
      * wp_step. simpl. eexists. settle.
        rewrite (alter_as_insert _ _ _ _ Hs). repeat split.
      * wp_skip. wp_step. simpl. eexists. settle.
        rewrite (alter_as_insert _ _ _ _ Hs). repeat split.
    + wp_step. wp_step. apply wp_perform; intros _; cbv beta;
        wp_step; simpl; eexists; settle;
        rewrite (alter_as_insert _ _ _ _ Hs); repeat split.
Qed.

(** * The tables of the store *)


(** Deleting a session row is a soft delete: the row stays in the table
    with [isActive] false, and from then on [getSession] does not find it
    and [updateSession] neither returns nor changes it. *)
Theorem deleted_session_is_hidden sid env w env' :
  let w' := (deleteSession sid env w).2 in
  (deleteSession sid env w).1 = Returned true ->
  (exists row, lfg_sessions w !! sid = Some row /\
               lfg_sessions w' !! sid = Some (deactivate (now env) row)) /\
  (getSession sid env' w').1 = Returned None /\
  forall u, (updateSession sid u env' w').1 = Returned None /\
            lfg_sessions (updateSession sid u env' w').2 = lfg_sessions w'.
Proof.
  intros w'. subst w'.
  unfold deleteSession, getSession, updateSession, try_catch, bind, perform, get_world,
    date_now, modify, ret. simpl.
  destruct (eff_ok env (length (trace w)) (DbDeactivateSession sid)); simpl; [|discriminate].
  destruct (lfg_sessions w !! sid) as [row|] eqn:Hrow; simpl; [|discriminate].
  intros _. split; [|split].
  - exists row. split; [reflexivity|]. apply lookup_insert_eq.
  - destruct (eff_ok env' _ _); simpl; [|reflexivity].
    unfold lookup_active. now rewrite lookup_insert_eq.
  - intros u. destruct (eff_ok env' _ _); simpl; [|split; reflexivity].
    unfold lookup_active. rewrite lookup_insert_eq. simpl. split; reflexivity.
Qed.

(** [createUserSession] replaces the membership row of the user: when its
    two queries succeed it returns the new row, the user's row names the
    new session whatever it named before, the rows of other users are
    untouched, and [getUserSession] returns the new row. *)
Theorem membership_is_replaced user sid env w env' :
  eff_ok env (length (trace w)) (DbDeleteUserSession user) = true ->
  eff_ok env (S (length (trace w))) (DbInsertUserSession user sid) = true ->
  let r := createUserSession user sid env w in
  r.1 = Returned (user, sid) /\
  user_sessions r.2 = <[user := sid]> (user_sessions w) /\
  (eff_ok env' (length (trace r.2)) (DbSelectUserSession user) = true ->
   (getUserSession user env' r.2).1 = Returned (Some sid)).
Proof.
  intros Hdelete Hinsert r. subst r.
  unfold createUserSession, deleteUserSession, getUserSession, try_catch, bind, perform,
    get_world, modify, ret, throw. simpl.
  rewrite Hdelete. simpl. rewrite length_app, Nat.add_comm. simpl. rewrite Hinsert. simpl.
  rewrite lookup_delete_eq. simpl. rewrite insert_delete_eq.
  repeat split. intros ->. simpl. now rewrite lookup_insert_eq.
Qed.

Lemma is_expired_deactivate t t' row : is_expired t (deactivate t' row) = false.
Proof. reflexivity. Qed.

(** [cleanupExpiredSessions] deactivates exactly the active rows whose
    expiry is in the past: afterwards no active row is expired, the rows
    that were not expired are unchanged, no row is added or removed, and
    the number returned is the number of rows deactivated. *)
Theorem cleanup_deactivates_expired_rows env w :
  eff_ok env (length (trace w)) DbDeactivateExpired = true ->
  let r := cleanupExpiredSessions env w in
  r.1 = Returned (size (filter (fun kv => is_expired (now env) kv.2 = true) (lfg_sessions w))) /\
  (forall sid row, lfg_sessions r.2 !! sid = Some row ->
     db_isActive row = true -> (now env <= db_expiresAt row)%Z) /\
  (forall sid row, lfg_sessions w !! sid = Some row ->
     lfg_sessions r.2 !! sid
     = Some (if is_expired (now env) row then deactivate (now env) row else row)) /\
  (forall sid, lfg_sessions w !! sid = None -> lfg_sessions r.2 !! sid = None).
Proof.
  intros Hok r. subst r.
  unfold cleanupExpiredSessions, try_catch, bind, perform, get_world, date_now, modify, ret.
  simpl. rewrite Hok. simpl. split; [reflexivity|]. split; [|split].
  - intros sid row. rewrite lookup_fmap. destruct (lfg_sessions w !! sid) as [row0|]; [|discriminate].
    simpl. intros [= <-]. destruct (is_expired (now env) row0) eqn:Hexp; [discriminate|].
    intros Hactive. unfold is_expired in Hexp. rewrite Hactive in Hexp. simpl in Hexp.
    apply bool_decide_eq_false in Hexp. lia.
  - intros sid row Hrow. now rewrite lookup_fmap, Hrow.
  - intros sid Hrow. now rewrite lookup_fmap, Hrow.
Qed.

Lemma elem_of_active_rows tbl row :
  row ∈ active_rows tbl <-> db_isActive row = true /\ exists sid, tbl !! sid = Some row.
Proof.
  unfold active_rows. rewrite merge_sort_Permutation, list_elem_of_filter.
  rewrite list_elem_of_fmap. split.
  - intros [Hact ([sid row'] & -> & Hin)]. split; [exact Hact|].
    exists sid. now apply elem_of_map_to_list.
  - intros [Hact [sid Hrow]]. split; [exact Hact|].
    exists (sid, row). split; [reflexivity | now apply elem_of_map_to_list].
Qed.

Lemma newer_first_total : Total newer_first.
Proof. intros a b. unfold newer_first. lia. Qed.

(** [getAllActiveSessions] never throws; the rows it returns are active
    rows of the table, newest first; when its query succeeds every active
    row is among them. *)
Theorem listed_sessions_are_active_newest_first env w :
  exists rows,
    (getAllActiveSessions env w).1 = Returned rows /\
    Sorted newer_first rows /\
    (forall row, row ∈ rows ->
       db_isActive row = true /\ exists sid, lfg_sessions w !! sid = Some row) /\
    (eff_ok env (length (trace w)) DbSelectActiveSessions = true ->
     forall sid row, lfg_sessions w !! sid = Some row -> db_isActive row = true -> row ∈ rows).
Proof.
  pose proof (elem_of_active_rows (lfg_sessions w)) as Hmem.
  unfold getAllActiveSessions, try_catch, bind, perform, get_world, ret. simpl.
  destruct (eff_ok env (length (trace w)) DbSelectActiveSessions); simpl.
  - exists (active_rows (lfg_sessions w)). split; [reflexivity|].
    split; [apply (@Sorted_merge_sort _ newer_first _ newer_first_total)|]. split.
    + intros row Hrow. now apply Hmem.
    + intros _ sid row Hrow Hact. apply Hmem. eauto.
  - exists []. split; [reflexivity|]. split; [constructor|]. split.
    + intros row Hrow. now apply elem_of_nil in Hrow.
    + discriminate.
Qed.

(** * Expiring a session *)

Lemma wp_cached_channel g ch env w (Q : option string -> World -> Prop) E :
  (forall found, Q found w) -> wp (cached_channel g ch) env w Q E.
Proof. intros H. destruct ch; apply H. Qed.

Lemma wp_cached_guild_channel g ch env w (Q : option string -> World -> Prop) E :
  (forall found, Q found w) -> wp (cached_guild_channel g ch) env w Q E.
Proof.
  intros H. unfold wp. destruct (cached_guild_channel_run g ch env w) as [found ->]. apply H.
Qed.

(** Steps over a computation that leaves the maps and timers alone. *)
Ltac wp_rest :=
  apply (wp_keeps memory); [ keeping | | ];
  (let w' := fresh "w" in
   let H := fresh "Hmem" in
   intros ? w' H; apply memory_eq in H; simpl in H;
   let H1 := fresh "Hsessions" in
   let H2 := fresh "Hcreators" in
   let H3 := fresh "Hsettings" in
   let H4 := fresh "Htimers" in
   let H5 := fresh "Hnext" in
   destruct H as (H1 & H2 & H3 & H4 & H5); cbv beta).

Lemma wp_clear_session_timeout ref session env w (Q : Session -> World -> Prop) E :
  (forall w',
     activeSessions w' = alter (set_timeoutId None) ref (activeSessions w) \/
     activeSessions w' = activeSessions w /\ timeoutId session = None ->
     userCreatedSessions w' = userCreatedSessions w ->
     (forall tid, timeoutId session = Some tid -> timers w' !! tid = None) ->
     (forall tid, timers w' !! tid = None \/ timers w' !! tid = timers w !! tid) ->
     tables w' = tables w ->
     Q (set_timeoutId None session) w') ->
  wp (clear_session_timeout ref session) env w Q E.
Proof.
  intros H. unfold clear_session_timeout.
  destruct (timeoutId session) as [tid|] eqn:Htid.
  - wp_step. wp_step. wp_step. apply H; simpl.
    + now left.
    + reflexivity.
    + intros ? [= <-]. apply lookup_delete_eq.
    + intros tid'. destruct (decide (tid' = tid)) as [->|Hne].
      * left. apply lookup_delete_eq.
      * right. now apply lookup_delete_ne.
    + reflexivity.
  - wp_step.
    assert (Heq : session = set_timeoutId None session)
      by (destruct session; unfold set_timeoutId; simpl in *; subst; reflexivity).
    rewrite Heq. apply H; auto. discriminate.
Qed.

Lemma expireSession_missing sid env w :
  activeSessions w !! sid = None -> expireSession sid env w = (Returned tt, w).
Proof.
  intros Hs. unfold expireSession. rewrite ignoring_errors_run.
  unfold bind, get_world. simpl. now rewrite Hs.
Qed.

Lemma creator_index_cleared (m : gmap string string) c sid :
  let m' := filter (fun kv => kv.2 <> sid)
              (if bool_decide (c <> "") then delete c m else m) in
  (forall u, m' !! u <> Some sid) /\
  (c <> "" -> m' !! c = None) /\
  (forall u sid', m' !! u = Some sid' -> m !! u = Some sid').
Proof.
  intros m'. subst m'. split; [|split].
  - intros u Hu. apply map_lookup_filter_Some in Hu as [_ Hne]. now apply Hne.
  - intros Hc. rewrite bool_decide_true by exact Hc.
    apply map_lookup_filter_None. left. apply lookup_delete_eq.
  - intros u sid' Hu. apply map_lookup_filter_Some in Hu as [Hu _].
    case_bool_decide; [|exact Hu]. now apply lookup_delete_Some in Hu as [_ Hu].
Qed.

(** What [expireSession] leaves in memory, whatever the platform and the
    database answer. *)
Lemma expireSession_memory sid env w s :
  activeSessions w !! sid = Some s ->
  let w' := (expireSession sid env w).2 in
  activeSessions w' = delete sid (activeSessions w) /\
  ((forall u, userCreatedSessions w' !! u <> Some sid) /\
   (creator s <> "" -> userCreatedSessions w' !! creator s = None) /\
   (forall u sid', userCreatedSessions w' !! u = Some sid' ->
                   userCreatedSessions w !! u = Some sid')) /\
  (forall tid, timeoutId s = Some tid -> timers w' !! tid = None) /\
  (forall tid, timers w' !! tid = None \/ timers w' !! tid = timers w !! tid).
Proof.
  intros Hs w'. subst w'. apply wp_final. unfold expireSession.
  wp_step. wp_step. wp_step. rewrite Hs.
  wp_step. apply wp_cached_guild_channel. intros channel.
  wp_step. wp_skip. wp_step.
  assert (Hmsg : forall (Q : unit -> World -> Prop) E,
            (forall w', memory w' = memory w0 -> Q tt w') ->
            wp match channel with
               | Some ch =>
                   if truthy (messageId s)
                   then ignoring_errors
                          (perform (MessageFetch ch (default "" (messageId s))) >>;
                           perform (MessageEdit ch))
                   else ret tt
               | None => ret tt
               end env w0 Q E).
  { intros Q E HQ. destruct channel as [ch|]; [|now apply HQ].
    destruct (truthy (messageId s)); [|now apply HQ].
    apply (wp_ignoring_keeps memory); [keeping | exact HQ]. }
  apply Hmsg. clear Hmsg. intros w1 Hmem1. apply memory_eq in Hmem1.
  destruct Hmem1 as (Hs1 & Hu1 & _ & Ht1 & _).
  wp_step. apply wp_clear_session_timeout. intros w2 Hs2 Hu2 Hcleared Htimers2 _.
  assert (Hdel : delete sid (activeSessions w2) = delete sid (activeSessions w)).
  { destruct Hs2 as [-> | [-> _]]; rewrite Hs1; settle; [apply delete_alter_eq | reflexivity]. }
  assert (Htim : forall tid, timers w2 !! tid = None \/ timers w2 !! tid = timers w !! tid).
  { intros tid. destruct (Htimers2 tid) as [Hx|Hx]; [now left | right].
    rewrite Hx, Ht1. now settle. }
  assert (Huc : userCreatedSessions w2 = userCreatedSessions w).
  { rewrite Hu2, Hu1. now settle. }
  clear Hs2 Htimers2 Hu2 Hs1 Hu1 Ht1.
  wp_step. wp_step. wp_step.
  assert (Hwhen : forall (Q : unit -> World -> Prop) E w3,
            Q tt (with_userCreatedSessions
                    (fun m => if bool_decide (creator s <> "") then delete (creator s) m else m)
                    w3) ->
            wp (when (bool_decide (creator (set_timeoutId None s) <> ""))
                  (modify (with_userCreatedSessions (delete (creator (set_timeoutId None s))))))
               env w3 Q E).
  { intros Q E w3 HQ. simpl. destruct (bool_decide (creator s <> "")); [exact HQ|].
    destruct w3. exact HQ. }
  apply Hwhen. clear Hwhen.
  wp_step. wp_step. wp_step.
  wp_rest; [wp_skip|]; settle; rewrite Hdel;
    (split; [reflexivity|]; split; [apply creator_index_cleared|]; split; assumption).
Qed.

Lemma tables_eq w w' :
  tables w' = tables w ->
  lfg_sessions w' = lfg_sessions w /\ guild_settings w' = guild_settings w /\
  user_sessions w' = user_sessions w.
Proof. unfold tables. intros [= -> -> ->]. repeat split. Qed.

Lemma delete_channel_and_category_tables ch : keeps tables (delete_channel_and_category ch).
Proof. unfold delete_channel_and_category. keeping. Qed.

Lemma cached_channel_tables g ch : keeps tables (cached_channel g ch).
Proof. unfold cached_channel. keeping. Qed.

Lemma cached_guild_channel_tables g ch : keeps tables (cached_guild_channel g ch).
Proof. unfold cached_guild_channel, cached_channel. keeping. Qed.

Lemma manageVoiceChannelAccess_tables target u a :
  keeps tables (manageVoiceChannelAccess target u a).
Proof. unfold manageVoiceChannelAccess. keeping. Qed.

Lemma clear_session_timeout_tables ref session : keeps tables (clear_session_timeout ref session).
Proof. unfold clear_session_timeout, mutate, clearTimeout. keeping. Qed.

#[global] Hint Resolve delete_channel_and_category_tables cached_channel_tables
  cached_guild_channel_tables manageVoiceChannelAccess_tables
  clear_session_timeout_tables : frame.

Lemma wp_when_modify (b : bool) (f : World -> World) env w (Q : unit -> World -> Prop) E :
  Q tt (if b then f w else w) -> wp (when b (modify f)) env w Q E.
Proof. intros HQ. destruct b; exact HQ. Qed.

(** Steps over a block that leaves the tables alone; with a failing
    block only logged when it sits in [ignoring_errors]. *)
Ltac wp_skip_tables :=
  lazymatch goal with
  | |- wp (ignoring_errors _) _ _ _ _ =>
      apply (wp_ignoring_keeps tables); [ keeping | ];
      let w' := fresh "w" in
      let H := fresh "Htab" in
      intros w' H; apply tables_eq in H; simpl in H;
      let H1 := fresh "Hrows" in
      let H2 := fresh "Hguilds" in
      let H3 := fresh "Hmembers" in
      destruct H as (H1 & H2 & H3); cbv beta
  | |- wp _ _ _ _ _ =>
      apply (wp_keeps tables); [ keeping | | ];
      (let w' := fresh "w" in
       let H := fresh "Htab" in
       intros ? w' H; apply tables_eq in H; simpl in H;
       let H1 := fresh "Hrows" in
       let H2 := fresh "Hguilds" in
       let H3 := fresh "Hmembers" in
       destruct H as (H1 & H2 & H3); cbv beta)
  end.

Ltac settle_tables :=
  cbn [lfg_sessions guild_settings user_sessions
       with_activeSessions with_userCreatedSessions with_guildSettingsCache
       with_voiceChannelOperations with_timers with_next_timer with_lfg_sessions
       with_guild_settings with_user_sessions with_trace];
  repeat match goal with
  | H : lfg_sessions ?x = _ |- context [lfg_sessions ?x] => rewrite H
  | H : guild_settings ?x = _ |- context [guild_settings ?x] => rewrite H
  | H : user_sessions ?x = _ |- context [user_sessions ?x] => rewrite H
  end.

Lemma wp_deleteUserSession_up user env w (Q : bool -> World -> Prop) E :
  database_up env ->
  Q true (with_user_sessions (delete user)
            (with_trace (fun t => t ++ [(DbDeleteUserSession user, true)]) w)) ->
  wp (deleteUserSession user) env w Q E.
Proof.
  intros Hup HQ. unfold wp, deleteUserSession, try_catch, bind, perform, modify, ret.
  rewrite Hup by reflexivity. exact HQ.
Qed.

Lemma wp_deleteSession_up sid env w (Q : bool -> World -> Prop) E :
  database_up env ->
  (forall w' found,
     lfg_sessions w' = (match lfg_sessions w !! sid with
                        | Some row => <[sid := deactivate (now env) row]> (lfg_sessions w)
                        | None => lfg_sessions w
                        end) ->
     user_sessions w' = user_sessions w ->
     memory w' = memory w ->
     Q found w') ->
  wp (deleteSession sid) env w Q E.
Proof.
  intros Hup HQ.
  unfold wp, deleteSession, try_catch, bind, perform, modify, ret, get_world, date_now.
  rewrite Hup by reflexivity. simpl.
  destruct (lfg_sessions w !! sid) as [row|] eqn:Hrow; simpl;
    apply HQ; simpl; rewrite ?Hrow; reflexivity.
Qed.

(** With the database up, every membership row named in the loop is gone
    after it and the session table is as before. *)
Lemma wp_delete_memberships players env w (Q : unit -> World -> Prop) E :
  database_up env ->
  (forall w',
     lfg_sessions w' = lfg_sessions w ->
     (forall p, p ∈ players -> user_sessions w' !! p = None) ->
     Q tt w') ->
  wp (for_each players
        (fun playerId => ignoring_errors (deleteUserSession playerId >>; ret tt)))
     env w Q E.
Proof.
  intros Hup HQ.
  apply (wp_for_each
           (fun done w' => lfg_sessions w' = lfg_sessions w /\
                           forall p, p ∈ done -> user_sessions w' !! p = None)).
  - split; [reflexivity|]. intros p Hp. now apply elem_of_nil in Hp.
  - intros done x rest w' _ [Hrows Hdone].
    apply wp_ignoring_errors. apply wp_bind. apply wp_deleteUserSession_up; [exact Hup|].
    apply wp_ret. simpl. split; [exact Hrows|].
    intros p Hp. apply elem_of_app in Hp as [Hp|Hp].
    + destruct (decide (p = x)) as [->|Hne]; [apply lookup_delete_eq|].
      rewrite lookup_delete_ne by congruence. now apply Hdone.
    + apply list_elem_of_singleton in Hp as ->. apply lookup_delete_eq.
  - intros w' [Hrows Hdone]. now apply HQ.
Qed.

(** What [expireSession] leaves in the store when the database is up. *)
Lemma expireSession_store sid env w s :
  database_up env ->
  activeSessions w !! sid = Some s ->
  let w' := (expireSession sid env w).2 in
  lookup_active sid (lfg_sessions w') = None /\
  (forall p, p ∈ currentPlayers s -> user_sessions w' !! p = None) /\
  (forall sid', sid' <> sid -> lfg_sessions w' !! sid' = lfg_sessions w !! sid').
Proof.
  intros Hup Hs w'. subst w'. apply wp_final. unfold expireSession.
  wp_step. wp_step. wp_step. rewrite Hs.
  wp_step. apply wp_cached_guild_channel. intros channel.
  wp_step. wp_skip_tables. wp_step.
  assert (Hmsg : forall (Q : unit -> World -> Prop) E,
            (forall w', tables w' = tables w0 -> Q tt w') ->
            wp match channel with
               | Some ch =>
                   if truthy (messageId s)
                   then ignoring_errors
                          (perform (MessageFetch ch (default "" (messageId s))) >>;
                           perform (MessageEdit ch))
                   else ret tt
               | None => ret tt
               end env w0 Q E).
  { intros Q E HQ. destruct channel as [ch|]; [|now apply HQ].
    destruct (truthy (messageId s)); [|now apply HQ].
    apply (wp_ignoring_keeps tables); [keeping | exact HQ]. }
  apply Hmsg. clear Hmsg. intros w1 Htab1. apply tables_eq in Htab1.
  destruct Htab1 as (Hrows1 & _ & Hmembers1).
  wp_step. apply wp_clear_session_timeout. intros w2 _ _ _ _ Htab2.
  apply tables_eq in Htab2. destruct Htab2 as (Hrows2 & _ & Hmembers2).
  wp_step. wp_step. wp_step. apply wp_when_modify.
  wp_step. wp_step. wp_step.
  apply wp_delete_memberships; [exact Hup|]. intros w4 Hrows4 Hgone.
  assert (Hrows3 : lfg_sessions w4 = lfg_sessions w).
  { rewrite Hrows4. destruct (bool_decide _); settle_tables; reflexivity. }
  clear Hrows4.
  wp_step. wp_step. apply wp_deleteSession_up; [exact Hup|].
  intros w5 found Hrows5 Hmembers5 _. wp_step.
  unfold lookup_active. rewrite Hrows5, Hmembers5, Hrows3.
  split; [|split].
  - destruct (lfg_sessions w !! sid) as [row|] eqn:Hrow.
    + now rewrite lookup_insert_eq.
    + now rewrite Hrow.
  - exact Hgone.
  - intros sid' Hne. destruct (lfg_sessions w !! sid) as [row|]; [|reflexivity].
    now rewrite lookup_insert_ne by congruence.
Qed.

(** [expireSession] on a session of the registry never throws, whatever
    the platform and the database answer, and leaves no trace of the
    session in memory: the session is out of the registry (the other
    sessions are untouched), no user is recorded as its creator, and its
    timer is cancelled.  When the database answers, its row is inactive
    and the membership rows of its players are gone. *)
Theorem expired_session_is_torn_down sid env w s :
  activeSessions w !! sid = Some s ->
  let r := expireSession sid env w in
  r.1 = Returned tt /\
  activeSessions r.2 = delete sid (activeSessions w) /\
  (forall u, userCreatedSessions r.2 !! u <> Some sid) /\
  (forall tid, timeoutId s = Some tid -> timers r.2 !! tid = None) /\
  (database_up env ->
   lookup_active sid (lfg_sessions r.2) = None /\
   forall p, p ∈ currentPlayers s -> user_sessions r.2 !! p = None).
Proof.
  intros Hs r. subst r.
  destruct (expireSession_memory sid env w s Hs) as (Hreg & (Hidx & _) & Htimer & _).
  split; [|split; [exact Hreg | split; [exact Hidx | split; [exact Htimer|]]]].
  - unfold expireSession. now rewrite ignoring_errors_run.
  - intros Hup. destruct (expireSession_store sid env w s Hup Hs) as (Hrow & Hmem & _).
    split; assumption.
Qed.

(** * The recruitment sweep *)

(** [checkExpiredLfgSessions] never throws and removes from the registry
    exactly the sessions that are waiting with a single player 20 minutes
    or more after their creation; every other session stays as it is and
    no session is added. *)
Theorem recruitment_sweep_expires_lone_sessions env w :
  let r := checkExpiredLfgSessions env w in
  r.1 = Returned tt /\
  activeSessions r.2
  = filter (fun kv => recruitment_expired (now env) kv.2 = false) (activeSessions w).
Proof.
  intros r. subst r.
  cut (wp checkExpiredLfgSessions env w
         (fun _ w' => activeSessions w'
                      = filter (fun kv => recruitment_expired (now env) kv.2 = false)
                          (activeSessions w))
         (fun _ _ => False)).
  { intros H. apply wp_result in H as ([] & Hrun & Hpost). split; assumption. }
  unfold checkExpiredLfgSessions. wp_step. wp_step. wp_step. wp_step.
  set (m := activeSessions w).
  apply (wp_for_each
           (fun done w' =>
              activeSessions w'
              = filter (fun kv => kv.1 ∉ done \/ recruitment_expired (now env) kv.2 = false) m)).
  - symmetry. apply map_filter_id. intros k s _. left. apply not_elem_of_nil.
  - intros done x rest w' _ Hinv. wp_step. wp_step.
    assert (Hstep : forall m',
              (forall k s, m' !! k = Some s <->
                 m !! k = Some s /\
                 (k ∉ done ++ [x] \/ recruitment_expired (now env) s = false)) ->
              m' = filter (fun kv => kv.1 ∉ done ++ [x]
                                     \/ recruitment_expired (now env) kv.2 = false) m).
    { intros m' Hm'. apply map_eq. intros k. apply option_eq. intros s.
      now rewrite Hm', map_lookup_filter_Some. }
    assert (Hlook : forall k s, activeSessions w' !! k = Some s <->
              m !! k = Some s /\ (k ∉ done \/ recruitment_expired (now env) s = false)).
    { intros k s. now rewrite Hinv, map_lookup_filter_Some. }
    destruct (activeSessions w' !! x) as [session|] eqn:Hx.
    + destruct (recruitment_expired (now env) session) eqn:Hexp.
      * unfold handleLfgTimeout.
        pose proof (expireSession_memory x env w' session Hx) as (Hreg & _).
        assert (Hret : (expireSession x env w').1 = Returned tt)
          by (unfold expireSession; now rewrite ignoring_errors_run).
        unfold wp. destruct (expireSession x env w') as [[[]|err] w''];
          simpl in *; [|discriminate].
        rewrite Hreg. apply Hstep. intros k s.
        rewrite lookup_delete_Some, Hlook, elem_of_app, list_elem_of_singleton.
        apply Hlook in Hx as [Hmx _].
        split.
        -- intros (Hne & Hk & [Hnew|Hold]); (split; [exact Hk|]); [left | now right].
           intros [?|?]; [contradiction | congruence].
        -- intros (Hk & Hcond).
           assert (Hne : x <> k).
           { intros <-. rewrite Hmx in Hk. injection Hk as <-.
             destruct Hcond as [Hnot | Hfalse]; [|congruence].
             apply Hnot. now right. }
           split; [exact Hne|]. split; [exact Hk|].
           destruct Hcond as [Hnot | Hfalse]; [left | now right].
           intros Hin. apply Hnot. now left.
      * wp_step. apply Hstep. intros k s.
        rewrite Hlook, elem_of_app, list_elem_of_singleton.
        apply Hlook in Hx as [Hmx _].
        split; intros (Hk & Hcond); (split; [exact Hk|]).
        -- destruct (decide (k = x)) as [->|Hne].
           ++ right. rewrite Hmx in Hk. now injection Hk as <-.
           ++ destruct Hcond as [Hnot | Hfalse]; [left | now right]. tauto.
        -- destruct Hcond as [Hnot | Hfalse]; [left | now right]. tauto.
    + wp_step. apply Hstep. intros k s.
      rewrite Hlook, elem_of_app, list_elem_of_singleton.
      split; intros (Hk & Hcond); (split; [exact Hk|]).
      * destruct (decide (k = x)) as [->|Hne].
        -- exfalso. assert (Hsome : activeSessions w' !! x = Some s) by now apply Hlook.
           congruence.
        -- destruct Hcond as [Hnot | Hfalse]; [left | now right]. tauto.
      * destruct Hcond as [Hnot | Hfalse]; [left | now right]. tauto.
  - intros w' ->. apply map_filter_ext. intros k s Hk. simpl.
    split; [|now right]. intros [Hnot | Hfalse]; [|exact Hfalse].
    exfalso. apply Hnot. apply list_elem_of_fmap. exists (k, s).
    split; [reflexivity | now apply elem_of_map_to_list].
Qed.

(** * Reopening *)

Lemma keeps_memory_preserves (I : World -> Prop) {A} (m : M A) :
  (forall w w', memory w' = memory w -> I w -> I w') -> keeps memory m -> preserves I m.
Proof. intros HI Hm env w Hw. apply (HI w); [apply Hm | exact Hw]. Qed.


Lemma set_messageId_same s : set_messageId (messageId s) s = s.
Proof. now destruct s. Qed.

(** The message part of [reopenLfg] changes at most the [messageId] of
    the session it is given. *)
Lemma refresh_announcement_registry m0 X sid s0 session ch :
  preserves (fun w => (exists v, activeSessions w = <[sid := set_messageId v s0]> m0)
                      /\ others w = X)
    (refresh_announcement sid session ch).
Proof.
  assert (Hmem : forall w w', memory w' = memory w ->
            (exists v, activeSessions w = <[sid := set_messageId v s0]> m0) /\ others w = X ->
            (exists v, activeSessions w' = <[sid := set_messageId v s0]> m0) /\ others w' = X).
  { intros w w' Heq [[v Hv] HX]. apply memory_eq in Heq as (Hs & Hu & Hg & Ht & Hn).
    unfold others. rewrite Hs, Hu, Hg, Ht, Hn. split; [now exists v | exact HX]. }
  unfold refresh_announcement.
  repeat first
    [ lazymatch goal with
      | |- preserves _ (perform _) => apply preserves_perform; intros ? ? ?; assumption
      | |- preserves _ (assign _ (set_messageId ?v')) =>
          apply preserves_modify; intros ? [[v Hv] HX]; split; [|exact HX];
          exists v'; simpl; rewrite Hv, alter_insert_eq; reflexivity
      | |- preserves _ (updateSession _ _) =>
          apply (keeps_memory_preserves _ _ Hmem); solve [ eauto with frame ]
      end
    | preserve_step ].
Qed.

Lemma bind_returns {A B} (m : M A) (k : A -> M B) env w :
  returns m env w -> (forall a w', returns (k a) env w') -> returns (bind m k) env w.
Proof.
  intros [a Ha] Hk. unfold returns, bind in *.
  destruct (m env w) as [[a'|err] w']; simpl in *; [apply Hk | discriminate].
Qed.

Lemma ignoring_errors_returns (m : M unit) env w : returns (ignoring_errors m) env w.
Proof. apply try_catch_returns. intros. apply ret_returns. Qed.

Lemma refresh_announcement_returns ref session ch env w :
  returns (refresh_announcement ref session ch) env w.
Proof.
  unfold refresh_announcement. apply bind_returns.
  - apply try_catch_returns. intros. apply try_catch_returns. intros. apply ret_returns.
  - intros [|] w'; [apply ret_returns | apply ignoring_errors_returns].
Qed.

Lemma wp_preserves_returns (I : World -> Prop) {A} (m : M A) env w :
  preserves I m -> returns m env w -> I w -> wp m env w (fun _ => I) (fun _ _ => False).
Proof.
  intros Hm [a Ha] Hw. specialize (Hm env w Hw). unfold wp.
  destruct (m env w) as [[a'|err] w']; simpl in *; [exact Hm | discriminate].
Qed.

(** [reopenLfg] on a session that still has players: the session is set
    back to waiting, its announcement may get a new message id, nothing
    else in memory changes, and nothing is thrown. *)
Lemma wp_reopenLfg sid session s0 env w (Q : unit -> World -> Prop) E :
  activeSessions w !! sid = Some s0 ->
  currentPlayers session <> [] ->
  (forall w' v,
     activeSessions w' = <[sid := set_messageId v (set_status waiting s0)]> (activeSessions w) ->
     others w' = others w ->
     Q tt w') ->
  wp (reopenLfg sid session) env w Q E.
Proof.
  intros Hs Hplayers HQ. unfold reopenLfg.
  rewrite bool_decide_false by (now rewrite length_zero_iff_nil).
  wp_step. wp_step. wp_step. wp_step.
  assert (Hhere : activeSessions (with_activeSessions (alter (set_status waiting) sid) w)
                  = <[sid := set_messageId (messageId s0) (set_status waiting s0)]> (activeSessions w)).
  { simpl. now rewrite (alter_as_insert _ _ _ _ Hs). }
  destruct (negb _); [wp_step; eapply HQ; [exact Hhere | reflexivity]|].
  wp_step. apply wp_cached_channel. intros [ch|]; [|wp_step; eapply HQ; [exact Hhere | reflexivity]].
  eapply wp_mono.
  - apply (wp_preserves_returns _ _ env _
             (refresh_announcement_registry (activeSessions w) (others w) sid
                (set_status waiting s0) _ ch)).
    + apply refresh_announcement_returns.
    + split; [eexists; exact Hhere | reflexivity].
  - intros [] w' [[v Hv] HX]. now apply (HQ w' v).
  - intros err w' [].
Qed.

Lemma manageVoiceChannelAccess_returns target user action env w :
  returns (manageVoiceChannelAccess target user action) env w.
Proof.
  unfold manageVoiceChannelAccess. destruct target as [ch|]; [|apply ret_returns].
  case_bool_decide; [apply ret_returns|].
  unfold returns, bind, get_world. simpl.
  case_bool_decide; [now exists false|].
  unfold date_now, modify. simpl. apply try_finally_catch_returns.
Qed.

Lemma wp_keeps_returns {A B} (f : World -> B) (m : M A) env w (Q : A -> World -> Prop) E :
  keeps f m -> returns m env w -> (forall a w', f w' = f w -> Q a w') -> wp m env w Q E.
Proof.
  intros Hm [a Ha] HQ. specialize (Hm env w). unfold wp.
  destruct (m env w) as [[a'|err] w']; simpl in *; [now apply HQ | discriminate].
Qed.

(** * Leaving *)

(** A leave is refused, and changes nothing, when the session is gone,
    when the user is not one of its players, or when the user is its
    creator: the creator cannot leave their own session. *)
Theorem leave_refused interaction env w :
  (forall s, activeSessions w !! i_session interaction = Some s ->
     i_user interaction ∉ currentPlayers s \/ i_user interaction = creator s) ->
  only_calls w (handleLeaveLfg interaction env w).2.
Proof.
  intros Hrefused. apply wp_final. unfold handleLeaveLfg.
  assert (Hreply : wp (perform Reply) env w (fun _ => only_calls w) (fun _ => only_calls w))
    by (apply wp_perform; intros _; only_calls).
  wp_step. wp_step. destruct (activeSessions w !! i_session interaction) as [s|]; [|exact Hreply].
  unfold includes. case_bool_decide as Hin; simpl; [|exact Hreply].
  case_bool_decide as Hcreator; simpl; [exact Hreply|].
  exfalso. destruct (Hrefused s eq_refl); contradiction.
Qed.

(** A player other than the creator who leaves is taken out of both
    player lists.  If players remain, the session goes back to waiting
    and nothing else in memory changes: a confirmation timer that was
    running stays scheduled.  If nobody remains, the session leaves the
    registry and the creator index. *)
Theorem leave_removes_the_player interaction env w s :
  let sid := i_session interaction in
  let user := i_user interaction in
  activeSessions w !! sid = Some s ->
  user ∈ currentPlayers s ->
  user <> creator s ->
  eff_ok env (length (trace w)) Reply = true ->
  let r := handleLeaveLfg interaction env w in
  r.1 = Returned tt /\
  if bool_decide (without user (currentPlayers s) = [])
  then activeSessions r.2 = delete sid (activeSessions w) /\
       userCreatedSessions r.2 = delete (creator s) (userCreatedSessions w)
  else exists s',
       activeSessions r.2 = <[sid := s']> (activeSessions w) /\
       currentPlayers s' = without user (currentPlayers s) /\
       confirmedPlayers s' = without user (confirmedPlayers s) /\
       status s' = waiting /\
       others r.2 = others w.
Proof.
  intros sid user Hs Hin Hcreator Hreply r. subst r.
  match goal with
  | |- (?m env w).1 = _ /\ ?R (?m env w).2 => idtac
  | |- _ /\ ?G =>
      cut (wp (handleLeaveLfg interaction) env w (fun _ w' =>
             if bool_decide (without user (currentPlayers s) = [])
             then activeSessions w' = delete sid (activeSessions w) /\
                  userCreatedSessions w' = delete (creator s) (userCreatedSessions w)
             else exists s',
                  activeSessions w' = <[sid := s']> (activeSessions w) /\
                  currentPlayers s' = without user (currentPlayers s) /\
                  confirmedPlayers s' = without user (confirmedPlayers s) /\
                  status s' = waiting /\
                  others w' = others w) (fun _ _ => False))
  end.
  { intros H. apply wp_result in H as ([] & Hrun & Hpost). split; assumption. }
  unfold handleLeaveLfg. fold sid user. wp_step. wp_step. rewrite Hs.
  unfold includes. rewrite bool_decide_true by exact Hin.
  rewrite bool_decide_false by exact Hcreator. simpl.
  wp_step. wp_step. apply wp_perform; [intros _; cbv beta | congruence].
  wp_step. wp_step. wp_step. wp_step. wp_step.
  apply wp_cached_channel. intros vc.
  wp_step.
  assert (Hvoice : forall (Q : unit -> World -> Prop) E w1,
            (forall w', memory w' = memory w1 -> Q tt w') ->
            wp match vc with
               | Some ch =>
                   manageVoiceChannelAccess (Some ch) user revoke >>;
                   ignoring_errors
                     (let* connected := ask (MemberInVoice user ch) in
                      when connected (perform (VoiceDisconnect user)))
               | None => ret tt
               end env w1 Q E).
  { intros Q E w1 HQ. destruct vc as [ch|]; [|now apply HQ].
    wp_step.
    apply (wp_keeps_returns memory);
      [apply manageVoiceChannelAccess_memory | apply manageVoiceChannelAccess_returns|].
    intros _ w2 Hw2.
    apply (wp_ignoring_keeps memory); [keeping|].
    intros w3 Hw3. apply HQ. now rewrite Hw3. }
  apply Hvoice. clear Hvoice. intros w1 Hmem1. apply memory_eq in Hmem1. simpl in Hmem1.
  destruct Hmem1 as (Hsessions & Hcreators & Hsettings & Htimers & Hnext).
  cbn [currentPlayers set_currentPlayers set_confirmedPlayers].
  destruct (decide (without user (currentPlayers s) = [])) as [Hempty|Hempty].
  - rewrite (bool_decide_true _ Hempty).
    rewrite bool_decide_true by (now rewrite Hempty).
    wp_step. wp_skip. wp_step. wp_step. wp_step. wp_step. wp_skip.
    settle. rewrite !delete_alter_eq. split; reflexivity.
  - rewrite (bool_decide_false _ Hempty).
    rewrite bool_decide_false by (now rewrite length_zero_iff_nil).
    apply (wp_reopenLfg sid _
             (set_confirmedPlayers (without user (confirmedPlayers s))
                (set_currentPlayers (without user (currentPlayers s)) s))).
    + rewrite Hsessions, !lookup_alter_eq, Hs. reflexivity.
    + exact Hempty.
    + intros w2 v Hw2 Hothers. eexists. rewrite Hw2, Hsessions, !insert_alter_eq.
      split; [reflexivity|]. simpl. repeat split.
      rewrite Hothers. unfold others. now rewrite Hcreators, Hsettings, Htimers, Hnext.
Qed.

(** * Declining *)

(** What a decline by the creator leaves in memory. *)
Lemma creator_decline_memory interaction env w s :
  let sid := i_session interaction in
  let user := i_user interaction in
  eff_ok env (length (trace w)) DeferReply = true ->
  activeSessions w !! sid = Some s ->
  user ∈ currentPlayers s ->
  user = creator s ->
  let w' := (handleDecline interaction env w).2 in
  activeSessions w' = delete sid (activeSessions w) /\
  (forall u, userCreatedSessions w' !! u
             = if bool_decide (u = creator s \/ u ∈ currentPlayers s) then None
               else userCreatedSessions w !! u) /\
  (forall tid, timeoutId s = Some tid -> timers w' !! tid = None).
Proof.
  intros sid user Hdefer Hs Hin Hcreator w'. subst w'.
  apply wp_final. unfold handleDecline. fold sid user.
  wp_step. apply wp_perform; [intros _; cbv beta | congruence].
  wp_step. wp_step. cbn [activeSessions with_trace]. rewrite Hs.
  unfold includes. rewrite bool_decide_true by exact Hin.
  rewrite bool_decide_true by exact Hcreator. simpl.
  wp_step. apply wp_clear_session_timeout. intros w1 Hs1 Hu1 Hcleared Htimers1 _.
  assert (Hdel : delete sid (activeSessions w1) = delete sid (activeSessions w)).
  { destruct Hs1 as [-> | [-> _]]; settle; [apply delete_alter_eq | reflexivity]. }
  simpl in Hu1. clear Hs1 Htimers1.
  wp_go. wp_skip. wp_go.
  apply (wp_for_each
           (fun done w' =>
              activeSessions w' = delete sid (activeSessions w) /\
              timers w' = timers w1 /\
              forall u, userCreatedSessions w' !! u
                        = if bool_decide (u = creator s \/ u ∈ done) then None
                          else userCreatedSessions w !! u)).
  - settle. rewrite Hdel. split; [reflexivity|]. split; [reflexivity|].
    intros u. cbn [creator set_timeoutId]. case_bool_decide as Hu.
    + destruct Hu as [-> | Hu]; [apply lookup_delete_eq | now apply elem_of_nil in Hu].
    + apply lookup_delete_ne. intros <-. apply Hu. now left.
  - intros done x rest w3 _ (Hreg & Htim & Hidx). wp_step. wp_step.
    apply (wp_ignoring_keeps memory); [keeping|]. intros w4 Hmem4.
    apply memory_eq in Hmem4. simpl in Hmem4.
    destruct Hmem4 as (Hs4 & Hu4 & _ & Ht4 & _).
    rewrite Hs4, Ht4. split; [exact Hreg|]. split; [exact Htim|].
    intros u. rewrite Hu4. destruct (decide (u = x)) as [->|Hne].
    + rewrite lookup_delete_eq. rewrite bool_decide_true; [reflexivity|].
      right. apply elem_of_app. right. now apply list_elem_of_singleton.
    + rewrite lookup_delete_ne by congruence. rewrite Hidx.
      rewrite (bool_decide_ext (u = creator s \/ u ∈ done ++ [x]) (u = creator s \/ u ∈ done));
        [reflexivity|].
      rewrite elem_of_app, list_elem_of_singleton. tauto.
  - intros w3 (Hreg & Htim & Hidx). cbv beta.
    assert (Hpost : activeSessions w3 = delete sid (activeSessions w) /\
              (forall u, userCreatedSessions w3 !! u
                         = if bool_decide (u = creator s \/ u ∈ currentPlayers s) then None
                           else userCreatedSessions w !! u) /\
              (forall tid, timeoutId s = Some tid -> timers w3 !! tid = None)).
    { split; [exact Hreg|]. split; [exact Hidx|].
      intros tid Htid. rewrite Htim. now apply Hcleared. }
    clear Hreg Htim Hidx.
    wp_step. apply (wp_ignoring_keeps memory); [keeping|]. intros w4 Hmem4.
    assert (Hpost4 : activeSessions w4 = delete sid (activeSessions w) /\
              (forall u, userCreatedSessions w4 !! u
                         = if bool_decide (u = creator s \/ u ∈ currentPlayers s) then None
                           else userCreatedSessions w !! u) /\
              (forall tid, timeoutId s = Some tid -> timers w4 !! tid = None)).
    { apply memory_eq in Hmem4 as (-> & -> & _ & -> & _). exact Hpost. }
    clear Hpost Hmem4.
    wp_step. apply wp_perform; intros _; [|exact Hpost4].
    apply wp_perform; intros _; exact Hpost4.
Qed.

(** What a decline by the creator leaves in the store when the database
    is up. *)
Lemma creator_decline_store interaction env w s :
  let sid := i_session interaction in
  let user := i_user interaction in
  database_up env ->
  eff_ok env (length (trace w)) DeferReply = true ->
  activeSessions w !! sid = Some s ->
  user ∈ currentPlayers s ->
  user = creator s ->
  let w' := (handleDecline interaction env w).2 in
  lookup_active sid (lfg_sessions w') = None /\
  (forall p, p ∈ currentPlayers s -> user_sessions w' !! p = None).
Proof.
  intros sid user Hup Hdefer Hs Hin Hcreator w'. subst w'.
  apply wp_final. unfold handleDecline. fold sid user.
  wp_step. apply wp_perform; [intros _; cbv beta | congruence].
  wp_step. wp_step. cbn [activeSessions with_trace]. rewrite Hs.
  unfold includes. rewrite bool_decide_true by exact Hin.
  rewrite bool_decide_true by exact Hcreator. simpl.
  wp_step. apply wp_clear_session_timeout. intros w1 _ _ _ _ Htab1.
  apply tables_eq in Htab1. simpl in Htab1. destruct Htab1 as (Hrows1 & _ & Hmembers1).
  wp_go. wp_skip_tables. wp_go.
  apply (wp_for_each
           (fun done w' => lfg_sessions w' = lfg_sessions w /\
                           forall p, p ∈ done -> user_sessions w' !! p = None)).
  - settle_tables. split; [reflexivity|]. intros p Hp. now apply elem_of_nil in Hp.
  - intros done x rest w3 _ [Hrows3 Hdone]. wp_go.
    apply wp_ignoring_errors. apply wp_bind. apply wp_deleteUserSession_up; [exact Hup|].
    apply wp_ret. simpl. split; [exact Hrows3|].
    intros p Hp. apply elem_of_app in Hp as [Hp|Hp].
    + destruct (decide (p = x)) as [->|Hne]; [apply lookup_delete_eq|].
      rewrite lookup_delete_ne by congruence. now apply Hdone.
    + apply list_elem_of_singleton in Hp as ->. apply lookup_delete_eq.
  - intros w3 [Hrows3 Hdone]. cbv beta.
    wp_step. apply wp_ignoring_errors. apply wp_bind.
    apply wp_deleteSession_up; [exact Hup|]. intros w4 found Hrows4 Hmembers4 _.
    apply wp_ret.
    assert (Hpost : lookup_active sid (lfg_sessions w4) = None /\
              forall p, p ∈ currentPlayers s -> user_sessions w4 !! p = None).
    { unfold lookup_active. rewrite Hrows4, Hmembers4, Hrows3. split; [|exact Hdone].
      destruct (lfg_sessions w !! sid) as [row|] eqn:Hrow.
      - now rewrite lookup_insert_eq.
      - now rewrite Hrow. }
    clear - Hpost.
    wp_step. apply wp_perform; intros _; [|exact Hpost].
    apply wp_perform; intros _; exact Hpost.
Qed.

(** When the creator declines, the session ends: it leaves the registry
    (the other sessions are untouched), the creator-index entries of the
    creator and of every player are removed, and its timer is cancelled,
    whatever the platform and the database answer.  When the database
    answers, its row is inactive and the membership rows of its players
    are gone. *)
Theorem creator_decline_ends_the_session interaction env w s :
  let sid := i_session interaction in
  let user := i_user interaction in
  eff_ok env (length (trace w)) DeferReply = true ->
  activeSessions w !! sid = Some s ->
  user ∈ currentPlayers s ->
  user = creator s ->
  let w' := (handleDecline interaction env w).2 in
  activeSessions w' = delete sid (activeSessions w) /\
  (forall u, u = creator s \/ u ∈ currentPlayers s -> userCreatedSessions w' !! u = None) /\
  (forall u, u <> creator s -> u ∉ currentPlayers s ->
             userCreatedSessions w' !! u = userCreatedSessions w !! u) /\
  (forall tid, timeoutId s = Some tid -> timers w' !! tid = None) /\
  (database_up env ->
   lookup_active sid (lfg_sessions w') = None /\
   forall p, p ∈ currentPlayers s -> user_sessions w' !! p = None).
Proof.
  intros sid user Hdefer Hs Hin Hcreator w'. subst w'.
  destruct (creator_decline_memory interaction env w s Hdefer Hs Hin Hcreator)
    as (Hreg & Hidx & Htimer).
  split; [exact Hreg|]. split; [|split; [|split; [exact Htimer|]]].
  - intros u Hu. rewrite Hidx. now rewrite bool_decide_true.
  - intros u Hne Hnot. rewrite Hidx. rewrite bool_decide_false; [reflexivity | tauto].
  - intros Hup. now apply creator_decline_store.
Qed.


(** * Confirming *)

(** A confirmation is refused, and changes nothing, when the session is
    gone, when the user is not one of its players, when it is not
    confirming, or when the user has confirmed already. *)
Lemma confirmation_refused interaction env w :
  (forall s, activeSessions w !! i_session interaction = Some s ->
     i_user interaction ∉ currentPlayers s \/ status s <> confirming \/
     i_user interaction ∈ confirmedPlayers s) ->
  only_calls w (handleConfirmation interaction env w).2.
Proof.
  intros Hrefused. apply wp_final. unfold handleConfirmation.
  wp_step. apply wp_perform; intros _; [cbv beta | only_calls].
  assert (Hreply : forall w', only_calls w w' ->
            wp (perform EditReply) env w' (fun _ => only_calls w) (fun _ => only_calls w)).
  { intros w' Hw'. apply wp_perform; intros _; now apply only_calls_step. }
  wp_step. wp_step. cbn [activeSessions with_trace].
  destruct (activeSessions w !! i_session interaction) as [s|]; [|apply Hreply; only_calls].
  unfold includes. case_bool_decide as Hin; simpl; [|apply Hreply; only_calls].
  case_bool_decide as Hst; simpl; [|apply Hreply; only_calls].
  case_bool_decide as Hconf; simpl; [apply Hreply; only_calls|].
  exfalso. destruct (Hrefused s eq_refl) as [H | [H | H]]; contradiction.
Qed.

(** Confirming is idempotent: once a confirmation click has been
    acknowledged, a second click of the same user on the same session
    changes nothing, whether the first one was refused, recorded, or
    completed the session. *)
Theorem confirming_twice_is_confirming_once interaction env env' w :
  eff_ok env (length (trace w)) DeferReply = true ->
  let w1 := (handleConfirmation interaction env w).2 in
  only_calls w1 (handleConfirmation interaction env' w1).2.
Proof.
  intros Hdefer w1. apply confirmation_refused. subst w1.
  set (sid := i_session interaction). set (user := i_user interaction).
  apply (wp_final _ _ _
           (fun w' => forall s, activeSessions w' !! sid = Some s ->
                        user ∉ currentPlayers s \/ status s <> confirming \/
                        user ∈ confirmedPlayers s)).
  unfold handleConfirmation. fold sid user.
  wp_step. apply wp_perform; [intros _; cbv beta | congruence].
  wp_step. wp_step. cbn [activeSessions with_trace].
  assert (Hreply : forall w',
            (forall s, activeSessions w' !! sid = Some s ->
               user ∉ currentPlayers s \/ status s <> confirming \/ user ∈ confirmedPlayers s) ->
            wp (perform EditReply) env w'
              (fun _ w' => forall s, activeSessions w' !! sid = Some s ->
                 user ∉ currentPlayers s \/ status s <> confirming \/ user ∈ confirmedPlayers s)
              (fun _ w' => forall s, activeSessions w' !! sid = Some s ->
                 user ∉ currentPlayers s \/ status s <> confirming \/ user ∈ confirmedPlayers s)).
  { intros w' Hw'. apply wp_perform; intros _; exact Hw'. }
  destruct (activeSessions w !! sid) as [s|] eqn:Hs.
  2:{ apply Hreply. simpl. intros s Hs'. congruence. }
  unfold includes. case_bool_decide as Hin; simpl.
  2:{ apply Hreply. simpl. intros s' Hs'. left. congruence. }
  case_bool_decide as Hst; simpl.
  2:{ apply Hreply. simpl. intros s' Hs'. right. left. congruence. }
  case_bool_decide as Hconf; simpl.
  { apply Hreply. simpl. intros s' Hs'. right. right. congruence. }
  wp_go.
  assert (Hpushed : forall w',
            (exists s', activeSessions w' !! sid = Some s' /\ user ∈ confirmedPlayers s') ->
            forall s', activeSessions w' !! sid = Some s' ->
              user ∉ currentPlayers s' \/ status s' <> confirming \/ user ∈ confirmedPlayers s').
  { intros w' (s' & Hs' & Hu) s'' Hs''. right. right. congruence. }
  case_bool_decide as Hall.
  - wp_step. apply wp_clear_session_timeout. intros w2 Hs2 _ _ _ _.
    unfold finalizeSession. wp_go. apply (wp_ignoring_keeps memory); [keeping|].
    intros w3 Hmem3. apply memory_eq in Hmem3 as (Hs3 & _). apply Hpushed.
    rewrite Hs3. settle.
    destruct Hs2 as [Hs2 | [Hs2 _]]; rewrite Hs2; settle; rewrite !lookup_alter_eq, Hs;
      simpl; (eexists; split; [reflexivity|]); simpl; apply elem_of_app; right;
      now apply list_elem_of_singleton.
  - apply Hreply. apply Hpushed. settle. rewrite lookup_alter_eq, Hs. simpl.
    eexists. split; [reflexivity|]. simpl. apply elem_of_app. right.
    now apply list_elem_of_singleton.
Qed.

(** * The confirmation timeout, run twice *)

Lemma handleConfirmationTimeout_idle sid env w :
  (forall s, activeSessions w !! sid = Some s -> status s <> confirming) ->
  handleConfirmationTimeout sid env w = (Returned tt, w).
Proof.
  intros Hidle. unfold handleConfirmationTimeout, bind, get_world. simpl.
  destruct (activeSessions w !! sid) as [s|] eqn:Hs; [|reflexivity].
  now rewrite bool_decide_false by (now apply Hidle).
Qed.

(** The confirmation timeout is idempotent: after it has run for a
    session, whatever the platform and the database answered, running it
    again for that session (by the timer after the sweep, or by the sweep
    after the timer) returns at once and changes nothing. *)
Theorem timeout_twice_is_timeout_once sid env env' w :
  let w1 := (handleConfirmationTimeout sid env w).2 in
  handleConfirmationTimeout sid env' w1 = (Returned tt, w1).
Proof.
  intros w1. apply handleConfirmationTimeout_idle. subst w1.
  apply (wp_final _ _ _
           (fun w' => forall s, activeSessions w' !! sid = Some s -> status s <> confirming)).
  unfold handleConfirmationTimeout. wp_step. wp_step.
  destruct (activeSessions w !! sid) as [s|] eqn:Hs.
  2:{ wp_step. intros s Hs'. congruence. }
  case_bool_decide as Hst; simpl.
  2:{ wp_step. intros s' Hs'. congruence. }
  wp_go. wp_skip. wp_go.
  apply (wp_reopenLfg sid _
           (set_confirmationStartTime None
              (set_status waiting
                 (set_confirmedPlayers []
                    (set_currentPlayers (Set_spread (creator s :: confirmedPlayers s))
                       (set_timeoutId None s)))))).
  - settle. now rewrite !lookup_alter_eq, Hs.
  - simpl. apply Set_spread_cons_nonempty.
  - intros w2 v Hw2 _ s' Hs'. rewrite Hw2, lookup_insert_eq in Hs'.
    injection Hs' as <-. discriminate.
Qed.

(** * Well-formed sessions *)

















(** One assignment to a session object, followed by the rest. *)
Ltac wp_mutation :=
  lazymatch goal with
  | |- wp (bind (mutate _ _ _) _) _ _ _ _ => apply wp_bind; apply wp_mutate; cbv beta
  end.








Lemma preserves_wp (I : World -> Prop) {A} (m : M A) :
  (forall env w, I w -> wp m env w (fun _ => I) (fun _ => I)) -> preserves I m.
Proof. intros H env w Hw. apply wp_final. now apply H. Qed.






(** * Moderation removal *)



(** * Ending a session *)

Lemma keeps_state {A} (m : M A) : keeps memory m -> keeps tables m -> keeps state m.
Proof. intros Hm Ht env w. unfold state. now rewrite Hm, Ht. Qed.

#[global] Hint Resolve keeps_state : frame.

Lemma state_eq w w' :
  state w' = state w ->
  (activeSessions w' = activeSessions w /\ userCreatedSessions w' = userCreatedSessions w /\
   guildSettingsCache w' = guildSettingsCache w /\ timers w' = timers w /\
   next_timer w' = next_timer w) /\
  (lfg_sessions w' = lfg_sessions w /\ guild_settings w' = guild_settings w /\
   user_sessions w' = user_sessions w).
Proof.
  unfold state, memory, tables. intros [= -> -> -> -> -> -> -> ->]. repeat split.
Qed.

(** Steps over a block whose failures are only logged and that changes
    neither the memory nor the tables. *)
Ltac wp_skip_state :=
  lazymatch goal with
  | |- wp (ignoring_errors _) _ _ _ _ =>
      apply (wp_ignoring_keeps state); [ keeping | ];
      let w' := fresh "w" in
      let H := fresh "Hstate" in
      intros w' H; apply state_eq in H; simpl in H;
      let H1 := fresh "Hsessions" in
      let H2 := fresh "Hcreators" in
      let H3 := fresh "Hsettings" in
      let H4 := fresh "Htimers" in
      let H5 := fresh "Hnext" in
      let H6 := fresh "Hrows" in
      let H7 := fresh "Hguilds" in
      let H8 := fresh "Hmembers" in
      destruct H as ((H1 & H2 & H3 & H4 & H5) & (H6 & H7 & H8)); cbv beta
  end.

Lemma find_entry_Some p m k s :
  find_entry p m = Some (k, s) -> m !! k = Some s /\ p s = true.
Proof.
  unfold find_entry. intros H. apply find_some in H as [Hin Hp].
  split; [|exact Hp]. apply elem_of_map_to_list. apply list_elem_of_In. exact Hin.
Qed.

Lemma find_entry_None p m k s :
  find_entry p m = None -> m !! k = Some s -> p s = false.
Proof.
  unfold find_entry. intros Hnone Hs.
  apply (find_none _ _ Hnone (k, s)). now apply list_elem_of_In, elem_of_map_to_list.
Qed.

Lemma close_announcement_returns sid session ch env w :
  returns (close_announcement sid session ch) env w.
Proof.
  unfold close_announcement. apply try_catch_returns. intros. apply ignoring_errors_returns.
Qed.

Lemma close_announcement_memory sid session ch : keeps memory (close_announcement sid session ch).
Proof. unfold close_announcement. keeping. Qed.

Lemma close_announcement_tables sid session ch : keeps tables (close_announcement sid session ch).
Proof. unfold close_announcement. keeping. Qed.

#[global] Hint Resolve close_announcement_memory close_announcement_tables : frame.

(** The soft delete of a row, whatever the database answers: the memory
    and the membership table are untouched, and when the database is up
    the row is inactive afterwards. *)
Lemma wp_deleteSession sid env w (Q : bool -> World -> Prop) E :
  (forall w' found,
     memory w' = memory w ->
     user_sessions w' = user_sessions w ->
     (forall sid', sid' <> sid -> lfg_sessions w' !! sid' = lfg_sessions w !! sid') ->
     (database_up env -> lookup_active sid (lfg_sessions w') = None) ->
     Q found w') ->
  wp (deleteSession sid) env w Q E.
Proof.
  intros HQ.
  unfold wp, deleteSession, try_catch, bind, perform, modify, ret, get_world, date_now.
  destruct (eff_ok env (length (trace w)) (DbDeactivateSession sid)) eqn:Hok; simpl.
  - destruct (lfg_sessions w !! sid) as [row|] eqn:Hrow; simpl; apply HQ; simpl;
      try reflexivity.
    + intros sid' Hne. now rewrite lookup_insert_ne by congruence.
    + intros _. unfold lookup_active. now rewrite lookup_insert_eq.
    + intros _. unfold lookup_active. now rewrite Hrow.
  - apply HQ; simpl; try reflexivity.
    intros Hup. rewrite Hup in Hok by reflexivity. discriminate.
Qed.

(** The part of [handleEndLfgCommand] that ends the session it was
    given. *)
Lemma wp_end_session sid session s env w (Q : unit -> World -> Prop) E :
  activeSessions w !! sid = Some s ->
  timeoutId session = timeoutId s ->
  (forall w',
     activeSessions w' = delete sid (activeSessions w) ->
     userCreatedSessions w' = delete (creator session) (userCreatedSessions w) ->
     (forall tid, timeoutId s = Some tid -> timers w' !! tid = None) ->
     (forall sid', sid' <> sid -> lfg_sessions w' !! sid' = lfg_sessions w !! sid') ->
     (database_up env -> lookup_active sid (lfg_sessions w') = None) ->
     Q tt w') ->
  wp (try_catch
        (let* session := clear_session_timeout sid session in
         let* channel := cached_guild_channel (guildId session) (Some (channelId session)) in
         ignoring_errors
           (let* vc := cached_guild_channel (guildId session) (voiceChannel session) in
            match vc with
            | Some ch => delete_channel_and_category ch
            | None => ret tt
            end) >>;
         match channel with
         | Some ch => close_announcement sid session ch
         | None => ret tt
         end >>;
         modify (with_activeSessions (delete sid)) >>;
         modify (with_userCreatedSessions (delete (creator session))) >>;
         ignoring_errors (deleteSession sid >>; ret tt) >>;
         ignoring_errors (perform Reply))
        (fun _ => ignoring_errors (perform Reply)))
     env w Q E.
Proof.
  intros Hs Htid HQ. wp_step. wp_step.
  apply wp_clear_session_timeout. intros w1 Hs1 Hu1 Hcleared _ Htab1.
  apply tables_eq in Htab1 as (Hrows1 & _ & _).
  assert (Hdel : delete sid (activeSessions w1) = delete sid (activeSessions w)).
  { destruct Hs1 as [-> | [-> _]]; [apply delete_alter_eq | reflexivity]. }
  rewrite Htid in Hcleared. clear Hs1.
  wp_step. apply wp_cached_guild_channel. intros channel.
  wp_step. wp_skip_state. wp_step.
  assert (Hmsg : forall (Q : unit -> World -> Prop) E,
            (forall w', state w' = state w0 -> Q tt w') ->
            wp match channel with
               | Some ch => close_announcement sid (set_timeoutId None session) ch
               | None => ret tt
               end env w0 Q E).
  { intros Q' E' HQ'. destruct channel as [ch|]; [|now apply HQ'].
    apply (wp_keeps_returns state);
      [apply keeps_state; [apply close_announcement_memory | apply close_announcement_tables]
      |apply close_announcement_returns | intros []; exact HQ']. }
  apply Hmsg. clear Hmsg. intros w2 Hstate2. apply state_eq in Hstate2.
  destruct Hstate2 as ((Hs2 & Hu2 & _ & Ht2 & _) & (Hrows2 & _ & _)).
  wp_go. apply wp_ignoring_errors. wp_step. apply wp_deleteSession.
  intros w3 found Hmem3 _ Hothers3 Hrow3. apply memory_eq in Hmem3. simpl in Hmem3.
  destruct Hmem3 as (Hs3 & Hu3 & _ & Ht3 & _).
  wp_step. wp_skip_state. apply HQ; settle.
  - exact Hdel.
  - reflexivity.
  - exact Hcleared.
  - intros sid' Hne. rewrite Hrows0, (Hothers3 sid' Hne). simpl.
    now rewrite Hrows2, Hrows, Hrows1.
  - intros Hup. rewrite Hrows0. now apply Hrow3.
Qed.

Lemma find_entry_found p m :
  (exists k s, m !! k = Some s /\ p s = true) ->
  exists k s, find_entry p m = Some (k, s).
Proof.
  intros (k & s & Hs & Hp). destruct (find_entry p m) as [[k' s']|] eqn:Hfind; [eauto|].
  rewrite (find_entry_None _ _ _ _ Hfind Hs) in Hp. discriminate.
Qed.

(** [/endlfg] by a user who created a session of the registry never
    throws and ends one such session: it leaves the registry (the other
    sessions are untouched) and the user's creator-index entry is
    removed, its timer is cancelled, and no other row of the store is
    changed; when the database answers, its row is inactive. *)
Theorem endlfg_ends_the_creators_session interaction env w :
  let user := i_user interaction in
  (exists sid s, activeSessions w !! sid = Some s /\ creator s = user) ->
  let r := handleEndLfgCommand interaction env w in
  r.1 = Returned tt /\
  exists sid s,
    activeSessions w !! sid = Some s /\ creator s = user /\
    activeSessions r.2 = delete sid (activeSessions w) /\
    userCreatedSessions r.2 = delete user (userCreatedSessions w) /\
    (forall tid, timeoutId s = Some tid -> timers r.2 !! tid = None) /\
    (forall sid', sid' <> sid -> lfg_sessions r.2 !! sid' = lfg_sessions w !! sid') /\
    (database_up env -> lookup_active sid (lfg_sessions r.2) = None).
Proof.
  intros user Hhas r. subst r.
  destruct (find_entry_found (fun s => bool_decide (creator s = user)) (activeSessions w))
    as (sid & s & Hfind).
  { destruct Hhas as (sid & s & Hs & Hc). exists sid, s. split; [exact Hs|].
    now apply bool_decide_eq_true. }
  pose proof (find_entry_Some _ _ _ _ Hfind) as [Hs Hcreator].
  apply bool_decide_eq_true in Hcreator.
  cut (wp (handleEndLfgCommand interaction) env w
         (fun _ w' =>
            activeSessions w' = delete sid (activeSessions w) /\
            userCreatedSessions w' = delete user (userCreatedSessions w) /\
            (forall tid, timeoutId s = Some tid -> timers w' !! tid = None) /\
            (forall sid', sid' <> sid -> lfg_sessions w' !! sid' = lfg_sessions w !! sid') /\
            (database_up env -> lookup_active sid (lfg_sessions w') = None))
         (fun _ _ => False)).
  { intros H. apply wp_result in H as ([] & Hrun & Hpost). split; [exact Hrun|].
    exists sid, s. split; [exact Hs|]. split; [exact Hcreator|]. exact Hpost. }
  unfold handleEndLfgCommand. fold user. wp_step. wp_step. rewrite Hfind. wp_step. wp_step.
  apply (wp_end_session sid s s); [exact Hs | reflexivity|].
  intros w' H1 H2 H3 H4 H5. rewrite Hcreator in H2. repeat split; assumption.
Qed.

Lemma wp_getAllActiveSessions_up env w (Q : list DbSession -> World -> Prop) E :
  database_up env ->
  Q (active_rows (lfg_sessions w))
    (with_trace (fun t => t ++ [(DbSelectActiveSessions, true)]) w) ->
  wp getAllActiveSessions env w Q E.
Proof.
  intros Hup HQ. unfold wp, getAllActiveSessions, try_catch, bind, perform, get_world, ret.
  rewrite Hup by reflexivity. exact HQ.
Qed.

(** [/endlfg] after a restart: a user who created no session of the
    registry but whose session is still active in the store has it
    brought back and ended at once.  With the database up, the command
    never throws, an active row of the user is made inactive, and the
    registry and the creator index end without that session. *)
Theorem endlfg_recovers_a_stored_session interaction env w :
  let user := i_user interaction in
  database_up env ->
  rows_keyed w ->
  (forall sid s, activeSessions w !! sid = Some s -> creator s <> user) ->
  (exists sid row,
     lfg_sessions w !! sid = Some row /\ db_isActive row = true /\ db_creatorId row = user) ->
  let r := handleEndLfgCommand interaction env w in
  r.1 = Returned tt /\
  exists sid row,
    lfg_sessions w !! sid = Some row /\ db_isActive row = true /\ db_creatorId row = user /\
    lookup_active sid (lfg_sessions r.2) = None /\
    (forall sid', sid' <> sid -> lfg_sessions r.2 !! sid' = lfg_sessions w !! sid') /\
    activeSessions r.2 = delete sid (activeSessions w) /\
    userCreatedSessions r.2 = delete user (userCreatedSessions w).
Proof.
  intros user Hup Hkeyed Hnone Hstored r. subst r.
  assert (Hfind : find_entry (fun s => bool_decide (creator s = user)) (activeSessions w) = None).
  { destruct (find_entry _ _) as [[k s]|] eqn:Hfind; [|reflexivity].
    apply find_entry_Some in Hfind as [Hs Hc]. apply bool_decide_eq_true in Hc.
    now destruct (Hnone k s Hs). }
  destruct (List.find (fun row => bool_decide (db_creatorId row = user))
              (active_rows (lfg_sessions w))) as [row|] eqn:Hrow.
  2:{ exfalso. destruct Hstored as (sid & row & Hr & Hact & Hc).
      assert (Hin : row ∈ active_rows (lfg_sessions w)) by (apply elem_of_active_rows; eauto).
      apply list_elem_of_In in Hin. pose proof (find_none _ _ Hrow row Hin) as Hf.
      simpl in Hf. apply bool_decide_eq_false in Hf. contradiction. }
  pose proof Hrow as Hfound.
  apply find_some in Hrow as [Hin Hc]. apply bool_decide_eq_true in Hc.
  apply list_elem_of_In, elem_of_active_rows in Hin as [Hact [sid Hr]].
  pose proof (Hkeyed sid row Hr) as Hid.
  cut (wp (handleEndLfgCommand interaction) env w
         (fun _ w' =>
            lookup_active sid (lfg_sessions w') = None /\
            (forall sid', sid' <> sid -> lfg_sessions w' !! sid' = lfg_sessions w !! sid') /\
            activeSessions w' = delete sid (activeSessions w) /\
            userCreatedSessions w' = delete user (userCreatedSessions w))
         (fun _ _ => False)).
  { intros H. apply wp_result in H as ([] & Hrun & Hpost). split; [exact Hrun|].
    exists sid, row. repeat (split; [assumption|]). exact Hpost. }
  unfold handleEndLfgCommand. fold user. wp_step. wp_step. rewrite Hfind.
  unfold recover_session. wp_step. wp_step. wp_step.
  apply wp_getAllActiveSessions_up; [exact Hup|].
  cbn [lfg_sessions with_trace]. rewrite Hfound. wp_go.
  apply (wp_end_session (db_id row) (restored_session row) (restored_session row)).
  - simpl. apply lookup_insert_eq.
  - reflexivity.
  - intros w' H1 H2 _ H4 H5. simpl in H1, H2, H4. rewrite Hid in *. fold user in H2.
    rewrite delete_insert_eq in H1. rewrite Hc, delete_insert_eq in H2.
    split; [now apply H5|]. split; [exact H4|]. split; assumption.
Qed.

(** [/endlfg] by a user who created no session of the registry and has
    no active row in the store only answers: nothing in memory or in the
    store changes. *)
Theorem endlfg_without_a_session_changes_nothing interaction env w :
  let user := i_user interaction in
  (forall sid s, activeSessions w !! sid = Some s -> creator s <> user) ->
  (forall sid row, lfg_sessions w !! sid = Some row -> db_isActive row = true ->
                   db_creatorId row <> user) ->
  only_calls w (handleEndLfgCommand interaction env w).2.
Proof.
  intros user Hnone Hstored. apply wp_final.
  assert (Hfind : find_entry (fun s => bool_decide (creator s = user)) (activeSessions w) = None).
  { destruct (find_entry _ _) as [[k s]|] eqn:Hfind; [|reflexivity].
    apply find_entry_Some in Hfind as [Hs Hc]. apply bool_decide_eq_true in Hc.
    now destruct (Hnone k s Hs). }
  assert (Hrow : List.find (fun row => bool_decide (db_creatorId row = user))
                   (active_rows (lfg_sessions w)) = None).
  { destruct (List.find _ _) as [row|] eqn:Hrow; [|reflexivity].
    apply find_some in Hrow as [Hin Hc]. apply bool_decide_eq_true in Hc.
    apply list_elem_of_In, elem_of_active_rows in Hin as [Hact [sid Hr]].
    now destruct (Hstored sid row Hr Hact). }
  unfold handleEndLfgCommand. fold user. wp_step. wp_step. rewrite Hfind.
  unfold recover_session, getAllActiveSessions. wp_step. wp_step. wp_step. wp_step. wp_step.
  apply wp_perform; intros _; cbv beta.
  - wp_go. cbn [lfg_sessions with_trace]. rewrite Hrow. wp_go.
    apply wp_perform; intros _; only_calls.
  - wp_go. simpl. wp_go. apply wp_perform; intros _; only_calls.
Qed.

(** * Creating a session *)

(** [/lfg] is refused, and changes nothing, when the user already has a
    session of their own in the registry: one session per creator.  For a
    user without a session it is also refused when the guild restricts
    [/lfg] to another channel, and when the mode is not one of the modes
    of the chosen game. *)
Theorem lfg_refused interaction options env w :
  let user := i_user interaction in
  (exists sid s,
     userCreatedSessions w !! user = Some sid /\ sid <> "" /\
     activeSessions w !! sid = Some s) \/
  (userCreatedSessions w !! user = None /\
   (forall k s, activeSessions w !! k = Some s -> user ∉ currentPlayers s) /\
   ((exists lfgChannel,
       guildSettingsCache w !! i_guild interaction = Some (Some lfgChannel) /\
       lfgChannel <> "" /\ i_channel interaction <> lfgChannel) \/
    (exists name modes,
       supported_game (o_game options) = Some (name, modes) /\
       o_gamemode options ∉ modes))) ->
  only_calls w (handleLfgCommand interaction options env w).2.
Proof.
  intros user Hwhy. apply wp_final. unfold handleLfgCommand. fold user.
  wp_step. apply wp_perform; intros _; cbv beta; [|only_calls].
  wp_step. wp_step. cbn [userCreatedSessions activeSessions with_trace].
  assert (Hreply : forall w', only_calls w w' ->
            wp (perform EditReply) env w' (fun _ => only_calls w) (fun _ => only_calls w)).
  { intros w' Hw'. apply wp_perform; intros _; now apply only_calls_step. }
  destruct Hwhy as [(sid & s & Hidx & Hne & Hs) | (Hidx & Hfree & Hwhy)].
  - rewrite Hidx. simpl. rewrite bool_decide_true by exact Hne. rewrite Hs.
    wp_step. wp_step. apply wp_perform; intros _; cbv beta; [|only_calls].
    wp_go. simpl. wp_go. only_calls.
  - rewrite Hidx. simpl. wp_go. simpl. wp_go.
    cbn [activeSessions guildSettingsCache with_trace].
    assert (Hfind : find_entry (fun s => includes (currentPlayers s) user) (activeSessions w)
                    = None).
    { destruct (find_entry _ _) as [[k s]|] eqn:Hfind; [|reflexivity].
      apply find_entry_Some in Hfind as [Hs Hin]. apply bool_decide_eq_true in Hin.
      now destruct (Hfree k s Hs). }
    rewrite Hfind. wp_go. simpl. wp_go. cbn [guildSettingsCache with_trace].
    destruct Hwhy as [(lfgChannel & Hset & Hne & Hother) | (name & modes & Hgame & Hmode)].
    + rewrite Hset. simpl. rewrite bool_decide_true by exact Hne.
      rewrite bool_decide_true by exact Hother. simpl.
      apply Hreply. only_calls.
    + destruct (match guildSettingsCache w !! i_guild interaction with
                | Some lfgChannel =>
                    truthy lfgChannel && bool_decide (i_channel interaction <> default "" lfgChannel)
                | None => false
                end); [apply Hreply; only_calls|].
      rewrite Hgame. unfold includes. rewrite bool_decide_false by exact Hmode. simpl.
      apply Hreply. only_calls.
Qed.




(** * Restoring after a restart *)

Lemma getGuildSettings_sessions g : keeps activeSessions (getGuildSettings g).
Proof. unfold getGuildSettings. keeping. Qed.

Lemma deleteSession_sessions sid : keeps activeSessions (deleteSession sid).
Proof. exact (deleteSession_keeps sid). Qed.

Lemma cleanupExpiredSessions_sessions : keeps activeSessions cleanupExpiredSessions.
Proof. unfold cleanupExpiredSessions. keeping. Qed.

Lemma safeDeleteVoiceChannel_sessions target : keeps activeSessions (safeDeleteVoiceChannel target).
Proof.
  unfold safeDeleteVoiceChannel, delete_fetched_channel, delete_channel_and_category,
    updateSession.
  keeping.
Qed.

Lemma cached_channel_sessions g ch : keeps activeSessions (cached_channel g ch).
Proof. exact (cached_channel_keeps g ch). Qed.

#[global] Hint Resolve getGuildSettings_sessions deleteSession_sessions
  cleanupExpiredSessions_sessions safeDeleteVoiceChannel_sessions
  cached_channel_sessions : frame.

(** After [loadSessionData], every session of the registry comes from an
    active row of the store that has not reached its expiry: it is stored
    under the id of the row, its fields are those of the row, and it has
    a timer.  A row past its expiry is never brought back, and nothing
    that was in the registry before survives on its own. *)
Theorem restart_restores_only_live_rows env w :
  let w' := (loadSessionData env w).2 in
  forall sid s,
    activeSessions w' !! sid = Some s ->
    exists key row,
      lfg_sessions w !! key = Some row /\
      db_isActive row = true /\
      (now env < db_expiresAt row)%Z /\
      db_id row = sid /\
      set_timeoutId None s = restored_session row /\
      is_Some (timeoutId s).
Proof.
  intros w'. subst w'.
  set (P := fun (sid : string) (s : Session) =>
              exists key row,
                lfg_sessions w !! key = Some row /\ db_isActive row = true /\
                (now env < db_expiresAt row)%Z /\ db_id row = sid /\
                set_timeoutId None s = restored_session row /\ is_Some (timeoutId s)).
  set (R := fun w' : World => forall sid s, activeSessions w' !! sid = Some s -> P sid s).
  change (R (loadSessionData env w).2).
  assert (Hkeep : forall {A} (m : M A) w1 (Q : A -> World -> Prop),
            keeps activeSessions m -> returns m env w1 -> R w1 ->
            (forall a w2, R w2 -> Q a w2) ->
            wp m env w1 Q (fun _ _ => False)).
  { intros A m w1 Q Hm Hret Hw1 HQ. apply (wp_keeps_returns activeSessions); [exact Hm | exact Hret|].
    intros a w2 Heq. apply HQ. unfold R. now rewrite Heq. }
  assert (Hempty : forall w1, activeSessions w1 = ∅ -> R w1).
  { intros w1 Hw1 sid s Hs. rewrite Hw1 in Hs. now rewrite lookup_empty in Hs. }
  apply wp_final. unfold loadSessionData.
  apply wp_try_catch.
  apply (wp_mono _ _ _ (fun _ => R) _ (fun _ _ => False)); [|auto|intros ? ? []].
  wp_step. wp_step. wp_step. wp_step. wp_step. wp_step.
  unfold getAllActiveSessions. wp_step. wp_step.
  assert (Hrows : forall rows w1,
            (forall row, row ∈ rows ->
               db_isActive row = true /\ exists key, lfg_sessions w !! key = Some row) ->
            activeSessions w1 = ∅ ->
            wp (ignoring_errors
                  (let* guilds := (fun env w => (Returned (known_guilds env), w)) in
                   for_each guilds
                     (fun g =>
                        let* settings := getGuildSettings g in
                        match settings with
                        | Some lfgChannelId => modify (with_guildSettingsCache (insert g lfgChannelId))
                        | None => ret tt
                        end)) >>;
                for_each rows restore_row >>;
                cleanupExpiredSessions >>;
                ret tt) env w1 (fun _ => R) (fun _ _ => False)).
  { intros rows w1 Hin Hw1. wp_step.
    apply (wp_ignoring_keeps activeSessions); [keeping|]. intros w2 Hw2.
    wp_step.
    apply (wp_for_each (fun _ => R)).
    - apply Hempty. now rewrite Hw2.
    - intros done row rest w3 Hsplit Hw3.
      assert (Hrow : row ∈ rows).
      { rewrite Hsplit. apply elem_of_app. right. apply elem_of_cons. now left. }
      destruct (Hin row Hrow) as [Hact [key Hkey]].
      unfold restore_row. wp_step.
      assert (Hdelete : forall w4 (Q : bool -> World -> Prop),
                R w4 -> (forall a w5, R w5 -> Q a w5) ->
                wp (deleteSession (db_id row)) env w4 Q (fun _ _ => False)).
      { intros w4 Q Hw4 HQ. apply Hkeep; [apply deleteSession_sessions | | exact Hw4 | exact HQ].
        apply storage_wrappers_never_throw. }
      apply (wp_mono _ _ _ (fun _ => R) _ (fun _ _ => False)); [|auto|intros ? ? []].
      wp_go. case_bool_decide as Hlive.
      2:{ wp_step. apply Hdelete; [exact Hw3|]. intros _ w5 Hw5. wp_step. exact Hw5. }
      wp_go.
      assert (Hchan : forall (b : bool) (Q : option string -> World -> Prop),
                (forall c, Q c w3) ->
                wp (if b then cached_channel (db_guildId row) (Some (db_channelId row))
                    else ret None) env w3 Q (fun _ _ => False)).
      { intros [|] Q HQ; [apply wp_cached_channel; exact HQ | apply HQ]. }
      apply Hchan. clear Hchan. intros channel.
      destruct (negb _ || negb _) eqn:Hmissing.
      + wp_step. apply Hdelete; [exact Hw3|]. intros _ w5 Hw5.
        destruct (_ && _); [|exact Hw5].
        apply (wp_ignoring_keeps activeSessions); [keeping|].
        intros w6 Hw6. unfold R. now rewrite Hw6.
      + wp_go.
        assert (Hwhen : forall (b : bool) f w4 (Q : unit -> World -> Prop),
                  (forall w5, activeSessions w5 = activeSessions w4 ->
                              next_timer w5 = next_timer w4 -> Q tt w5) ->
                  wp (when b (modify (with_userCreatedSessions f))) env w4 Q (fun _ _ => False)).
        { intros [|] f w4 Q HQ; apply HQ; reflexivity. }
        apply Hwhen. clear Hwhen. intros w5 Hs5 Hn5.
        rewrite bool_decide_true by lia.
        wp_step. apply wp_setTimeout. wp_step.
        intros sid s. cbn [activeSessions with_activeSessions with_next_timer with_timers].
        rewrite Hs5. cbn [activeSessions with_activeSessions]. rewrite alter_insert_eq.
        destruct (decide (sid = db_id row)) as [->|Hne].
        * rewrite lookup_insert_eq. intros [= <-].
          exists key, row. repeat split; try assumption. simpl. eauto.
        * rewrite lookup_insert_ne by congruence. apply Hw3.
    - intros w3 Hw3.
      wp_step. apply Hkeep;
        [apply cleanupExpiredSessions_sessions | apply storage_wrappers_never_throw
        | exact Hw3 |].
      intros _ w4 Hw4. wp_step. exact Hw4. }
  wp_step. apply wp_perform; intros _; cbv beta.
  - wp_step. wp_step. wp_step. apply Hrows; [|reflexivity].
    intros row Hrow. now apply elem_of_active_rows.
  - wp_step. apply Hrows; [|reflexivity].
    intros row Hrow. now apply elem_of_nil in Hrow.
Qed.

(** * Durations *)

Arguments digit_value : simpl never.

Lemma digit_value_pretty_N_char x :
  (x < 10)%N -> digit_value (pretty_N_char x) = Some (Z.of_N x).
Proof.
  intros Hx.
  assert (x = 0 \/ x = 1 \/ x = 2 \/ x = 3 \/ x = 4 \/ x = 5 \/ x = 6 \/ x = 7 \/ x = 8
          \/ x = 9)%N as Hcases by lia.
  repeat (destruct Hcases as [-> | Hcases]; [reflexivity|]). now subst.
Qed.

(** Reading the digits that [pretty] writes in front of [s] adds their
    value to the amount read so far. *)
Lemma match_duration_digits x :
  (0 < x)%N ->
  forall s amount,
    exists k, match_duration (pretty_N_go x s) amount
              = match_duration s (Some (default 0 amount * 10 ^ Z.of_nat k + Z.of_N x)%Z).
Proof.
  induction (N.lt_wf_0 x) as [x _ IH]. intros Hx s amount.
  rewrite pretty_N_go_step by exact Hx.
  assert (Hdigit : digit_value (pretty_N_char (x `mod` 10)) = Some (Z.of_N (x `mod` 10)))
    by (apply digit_value_pretty_N_char, N.mod_lt; lia).
  assert (Hx10 : (Z.of_N x = 10 * Z.of_N (x `div` 10) + Z.of_N (x `mod` 10))%Z).
  { rewrite (N.div_mod x 10) at 1 by lia. lia. }
  destruct (decide (x `div` 10 = 0)%N) as [Hsmall|Hbig].
  - rewrite Hsmall, pretty_N_go_0. simpl. rewrite Hdigit. exists 1%nat.
    f_equal. f_equal. change (Z.of_nat 1) with 1%Z. rewrite Z.pow_1_r.
    assert (Hzero : Z.of_N (x `div` 10) = 0%Z) by (now rewrite Hsmall).
    rewrite Hx10, Hzero. ring.
  - destruct (IH (x `div` 10)%N) with (s := String (pretty_N_char (x `mod` 10)) s)
                                      (amount := amount) as [k Hk].
    + apply N.div_lt; lia.
    + now apply N.neq_0_lt_0.
    + rewrite Hk. simpl. rewrite Hdigit. exists (S k). f_equal. f_equal.
      rewrite Nat2Z.inj_succ, Z.pow_succ_r by lia. rewrite Hx10. simpl default. ring.
Qed.

Lemma pretty_N_go_app x s t : pretty_N_go x s +:+ t = pretty_N_go x (s +:+ t).
Proof.
  revert s. induction (N.lt_wf_0 x) as [x _ IH]. intros s.
  destruct (decide (x = 0)%N) as [->|Hx]; [now rewrite !pretty_N_go_0|].
  rewrite (pretty_N_go_step x s), (pretty_N_go_step x (s +:+ t)) by lia.
  rewrite IH by (apply N.div_lt; lia). reflexivity.
Qed.

(** [parseDuration] reads back what was written: an amount written in
    decimal and followed by a unit letter parses to that amount in
    milliseconds, whatever follows the letter (only the first match
    counts), as long as the result is below 2^53. *)
Theorem parseDuration_reads_amount_and_unit (n : N) (letter : ascii) (milliseconds : Z) rest :
  unit_ms letter = Some milliseconds ->
  (Z.of_N n * milliseconds < 2 ^ 53)%Z ->
  parseDuration (pretty n +:+ String letter rest) = (Z.of_N n * milliseconds)%Z.
Proof.
  intros Hunit _.
  assert (Hletter : digit_value letter = None).
  { unfold unit_ms in Hunit.
    destruct letter as [[] [] [] [] [] [] [] []]; try discriminate Hunit; reflexivity. }
  unfold parseDuration, pretty, pretty_N. case_decide as Hn.
  - subst n. simpl. rewrite Hletter, Hunit. simpl. now rewrite Hunit.
  - rewrite pretty_N_go_app. change ("" +:+ String letter rest) with (String letter rest).
    destruct (match_duration_digits n ltac:(lia) (String letter rest) None) as [k ->].
    simpl. rewrite Hletter, Hunit. now rewrite Hunit.
Qed.

(** * More on confirming *)

(** A confirmation that is not the last one is recorded and nothing
    else changes: the user is appended to the confirmed players, the
    session stays confirming with its timer pending, and the other
    sessions, the creator index and the timers are as before. *)
Theorem confirmation_is_recorded interaction env w s :
  let sid := i_session interaction in
  let user := i_user interaction in
  eff_ok env (length (trace w)) DeferReply = true ->
  activeSessions w !! sid = Some s ->
  user ∈ currentPlayers s ->
  status s = confirming ->
  user ∉ confirmedPlayers s ->
  S (length (confirmedPlayers s)) <> length (currentPlayers s) ->
  let w' := (handleConfirmation interaction env w).2 in
  activeSessions w'
  = <[sid := set_confirmedPlayers (confirmedPlayers s ++ [user]) s]> (activeSessions w) /\
  others w' = others w.
Proof.
  intros sid user Hdefer Hs Hin Hst Hconf Hmore w'. subst w'.
  apply wp_final. unfold handleConfirmation. fold sid user.
  wp_step. apply wp_perform; [intros _; cbv beta | congruence].
  wp_step. wp_step. cbn [activeSessions with_trace]. rewrite Hs.
  unfold includes. rewrite bool_decide_true by exact Hin.
  rewrite bool_decide_true by exact Hst. rewrite bool_decide_false by exact Hconf. simpl.
  wp_mutation. cbn [confirmedPlayers currentPlayers set_confirmedPlayers].
  rewrite bool_decide_false by (rewrite length_app; simpl; lia).
  apply wp_perform; intros _; (split; [|reflexivity]); simpl;
    rewrite (alter_as_insert _ _ _ _ Hs); reflexivity.
Qed.

(** * Reopening a session *)


(** * The confirmation sweep *)




(** * Joining is written to the store *)

Lemma wp_updateSession_up sid updates env w row (Q : option DbSession -> World -> Prop) E :
  database_up env ->
  lookup_active sid (lfg_sessions w) = Some row ->
  Q (Some (apply_updates updates (now env) row))
    (with_lfg_sessions (insert sid (apply_updates updates (now env) row))
       (with_trace (fun t => t ++ [(DbUpdateSession sid updates, true)]) w)) ->
  wp (updateSession sid updates) env w Q E.
Proof.
  intros Hup Hrow HQ.
  unfold wp, updateSession, try_catch, bind, perform, get_world, date_now, modify, ret.
  rewrite Hup by reflexivity. simpl. rewrite Hrow. exact HQ.
Qed.

Lemma wp_createUserSession_up user sid env w (Q : string * string -> World -> Prop) E :
  database_up env ->
  (forall w', lfg_sessions w' = lfg_sessions w ->
              user_sessions w' = <[user := sid]> (user_sessions w) ->
              memory w' = memory w -> Q (user, sid) w') ->
  wp (createUserSession user sid) env w Q E.
Proof.
  intros Hup HQ.
  unfold wp, createUserSession, deleteUserSession, try_catch, bind, perform, get_world,
    modify, ret, throw.
  rewrite Hup by reflexivity. simpl. rewrite Hup by reflexivity. simpl.
  rewrite lookup_delete_eq. apply HQ; simpl; try reflexivity. apply insert_delete_eq.
Qed.

Lemma lookup_active_Some sid tbl row :
  lookup_active sid tbl = Some row -> tbl !! sid = Some row /\ db_isActive row = true.
Proof.
  unfold lookup_active. destruct (tbl !! sid) as [r|]; [|discriminate].
  destruct (db_isActive r) eqn:Hact; [|discriminate]. intros [= <-]. now split.
Qed.

(** A join is written to the store: when the database answers and the
    session has an active row, after a successful join the row carries
    the player list and the status of the session in memory, with the
    confirmation start when the join filled the session, and the user
    has a membership row for the session. *)
Theorem join_is_persisted interaction env w s row :
  let sid := i_session interaction in
  let user := i_user interaction in
  database_up env ->
  eff_ok env (length (trace w)) DeferUpdate = true ->
  activeSessions w !! sid = Some s ->
  lookup_active sid (lfg_sessions w) = Some row ->
  user ∉ currentPlayers s ->
  (Z.of_nat (length (currentPlayers s)) < playersNeeded s)%Z ->
  (forall key other,
     activeSessions w !! key = Some other -> id other <> sid -> user ∉ currentPlayers other) ->
  let w' := (handleJoinLfg interaction env w).2 in
  exists s' row',
    activeSessions w' !! sid = Some s' /\
    lookup_active sid (lfg_sessions w') = Some row' /\
    db_currentPlayers row' = currentPlayers s' /\
    db_status row' = status s' /\
    ((Z.of_nat (length (currentPlayers s)) + 1 = playersNeeded s)%Z ->
     db_confirmationStartTime row' = confirmationStartTime s') /\
    user_sessions w' !! user = Some sid.
Proof.
  intros sid user Hup Hdefer Hs Hrow Hnew Hroom Hfree w'. subst w'.
  pose (P := fun w0 : World =>
    exists s' row',
      activeSessions w0 !! sid = Some s' /\
      lookup_active sid (lfg_sessions w0) = Some row' /\
      db_currentPlayers row' = currentPlayers s' /\
      db_status row' = status s' /\
      ((Z.of_nat (length (currentPlayers s)) + 1 = playersNeeded s)%Z ->
       db_confirmationStartTime row' = confirmationStartTime s') /\
      user_sessions w0 !! user = Some sid).
  assert (Hframe : forall w1 w2, state w2 = state w1 -> P w1 -> P w2).
  { intros w1 w2 Hst (s' & row' & H1 & H2 & H3).
    apply state_eq in Hst as ((Ha & _) & (Hr & _ & Hm)).
    exists s', row'. rewrite Ha, Hr, Hm. tauto. }
  change (P (handleJoinLfg interaction env w).2).
  apply wp_final. unfold handleJoinLfg. fold sid user.
  wp_step. wp_step. wp_step.
  apply wp_perform; [intros _; cbv beta | congruence].
  wp_step. wp_step. cbn [activeSessions with_trace]. rewrite Hs.
  unfold includes. rewrite bool_decide_false by exact Hnew.
  rewrite bool_decide_false by lia.
  destruct (find_session _ _) as [other|] eqn:Hfind.
  { exfalso. apply find_session_Some in Hfind as [Hp [key Hother]].
    apply andb_true_iff in Hp as [Hid Hmem].
    apply bool_decide_eq_true in Hid, Hmem. exact (Hfree key other Hother Hid Hmem). }
  pose proof (lookup_active_Some _ _ _ Hrow) as [Hrow0 Hactive].
  apply (wp_mono _ _ _ (fun a w' => a = false /\ P w') _ (fun _ w' => P w')).
  2: { intros a w' [-> HP]. unfold when. wp_step. exact HP. }
  2: { intros err w' HP. wp_step. apply (wp_ignoring_keeps state); [keeping|].
       intros w2 Hst. wp_step. unfold when. wp_step. now apply (Hframe w'). }
  wp_mutation. wp_step.
  apply wp_ignoring_errors. wp_step.
  eapply wp_updateSession_up; [exact Hup | exact Hrow|].
  wp_step. apply wp_createUserSession_up; [exact Hup|].
  intros w1 Hrows1 Hmembers1 Hmem1.
  apply memory_eq in Hmem1 as (Hs1 & _). cbn in Hrows1, Hmembers1, Hs1.
  set (s1 := set_currentPlayers (currentPlayers s ++ [user]) s) in *.
  wp_step. wp_step. wp_skip_state.
  assert (Hreg : activeSessions w0 = <[sid := s1]> (activeSessions w)).
  { rewrite Hsessions, Hs1. now rewrite (alter_as_insert _ _ _ _ Hs). }
  assert (Hmember : user_sessions w0 !! user = Some sid).
  { rewrite Hmembers, Hmembers1. apply lookup_insert_eq. }
  rewrite Hrows1 in Hrows.
  clear Hsessions Hcreators Hsettings Htimers Hnext Hguilds Hmembers Hs1 Hrows1 Hmembers1.
  cbn [currentPlayers set_currentPlayers playersNeeded s1].
  replace (Z.of_nat (length (currentPlayers s ++ [user])))
    with (Z.of_nat (length (currentPlayers s)) + 1)%Z
    by (rewrite length_app; simpl; lia).
  set (row1 := apply_updates _ (now env) row) in *.
  case_bool_decide as Hfilled.
  - wp_step. wp_step. wp_mutation. wp_mutation. wp_step. wp_skip_state. wp_step.
    cbn [timeoutId set_confirmationStartTime set_status s1 set_currentPlayers].
    assert (Hcleared : forall (Q : unit -> World -> Prop) E,
              Q tt (match timeoutId s with
                    | Some tid => with_timers (delete tid) w2
                    | None => w2
                    end) ->
              wp (match timeoutId s with
                  | Some tid => clearTimeout tid
                  | None => ret tt
                  end) env w2 Q E).
    { intros Q E HQ. destruct (timeoutId s); exact HQ. }
    apply Hcleared. clear Hcleared.
    set (w3 := match timeoutId s with Some tid => with_timers (delete tid) w2 | None => w2 end).
    assert (Hs3 : activeSessions w3 = activeSessions w2) by (subst w3; now destruct (timeoutId s)).
    assert (Hrows3 : lfg_sessions w3 = lfg_sessions w2) by (subst w3; now destruct (timeoutId s)).
    assert (Hmembers3 : user_sessions w3 = user_sessions w2)
      by (subst w3; now destruct (timeoutId s)).
    clearbody w3.
    wp_step. apply wp_setTimeout. wp_mutation. wp_step.
    apply wp_ignoring_errors. wp_step.
    eapply wp_updateSession_up; [exact Hup | |].
    { cbn [lfg_sessions with_activeSessions with_next_timer with_timers].
      rewrite Hrows3, Hrows0, Hrows. unfold lookup_active. rewrite lookup_insert_eq.
      subst row1. cbn. now rewrite Hactive. }
    wp_step. wp_step. split; [reflexivity|].
    eexists _, _.
    cbn [activeSessions lfg_sessions user_sessions with_activeSessions with_next_timer
         with_timers with_lfg_sessions with_trace].
    rewrite Hs3, Hsessions, Hmembers3, Hmembers, Hreg.
    rewrite !alter_insert_eq, !lookup_insert_eq. unfold lookup_active.
    rewrite lookup_insert_eq. subst row1 s1. cbn. rewrite Hactive.
    repeat split. exact Hmember.
  - assert (HP0 : forall w2, state w2 = state w0 -> P w2).
    { intros w2 Hst. apply (Hframe w0 w2 Hst). exists s1, row1.
      rewrite Hreg, Hrows. unfold lookup_active. rewrite !lookup_insert_eq.
      subst row1 s1. cbn. rewrite Hactive. repeat split; [|exact Hmember].
      intros Hfull. contradiction. }
    wp_step. apply wp_perform; intros _; cbv beta; [|now apply HP0].
    wp_step. apply (wp_keeps state); [keeping| |].
    + intros [] w2 Hst. wp_step. split; [reflexivity|]. apply HP0. now rewrite Hst.
    + intros err w2 Hst. apply HP0. now rewrite Hst.
Qed.


(** * Examples *)

Lemma env_ok_database_up t : database_up (env_ok t).
Proof. intros n e _. reflexivity. Qed.




Lemma deleted_session_is_hidden_witness :
  (getSession "s1" (env_ok 3000) (deleteSession "s1" (env_ok 2000) open_world).2).1
  = Returned None.
Proof.
  apply (deleted_session_is_hidden "s1" (env_ok 2000) open_world (env_ok 3000)).
  reflexivity.
Defined.

Lemma membership_is_replaced_witness :
  user_sessions (createUserSession "A" "s2" (env_ok 1000) open_world).2
  = <["A" := "s2"]> (user_sessions open_world).
Proof.
  apply (membership_is_replaced "A" "s2" (env_ok 1000) open_world (env_ok 1000));
    reflexivity.
Defined.

Lemma cleanup_deactivates_expired_rows_witness :
  lfg_sessions (cleanupExpiredSessions (env_ok 1300000) stored_world).2 !! "s1"
  = Some (deactivate 1300000 pair_row).
Proof.
  destruct (cleanup_deactivates_expired_rows (env_ok 1300000) stored_world)
    as (_ & _ & Hrows & _).
  - reflexivity.
  - apply (Hrows "s1" pair_row). reflexivity.
Defined.

Lemma join_refused_witness :
  only_calls (trio_world []) (handleJoinLfg (click "D") (env_ok 2000) (trio_world [])).2.
Proof.
  apply (join_refused (click "D") (env_ok 2000) (trio_world [])).
  intros s Hs. right. left. vm_compute in Hs. injection Hs as <-. vm_compute. discriminate.
Defined.

Lemma join_adds_the_player_witness :
  exists s',
    activeSessions (handleJoinLfg (click "B") (env_ok 1000) open_world).2
    = <["s1" := s']> (activeSessions open_world) /\
    currentPlayers s' = ["A"; "B"] /\
    confirmedPlayers s' = [] /\
    status s' = confirming.
Proof.
  destruct (join_adds_the_player (click "B") (env_ok 1000) open_world open_duo)
    as (s' & Hreg & Hcur & Hconf & Hfilled).
  - reflexivity.
  - reflexivity.
  - apply (bool_decide_unpack _). reflexivity.
  - reflexivity.
  - intros key other Hother Hid. unfold open_world in Hother. simpl in Hother.
    apply lookup_singleton_Some in Hother as [<- <-]. now destruct Hid.
  - exists s'. rewrite bool_decide_true in Hfilled by reflexivity.
    destruct Hfilled as (Hstatus & _). repeat split; assumption.
Defined.


Lemma confirming_twice_is_confirming_once_witness :
  let w1 := (handleConfirmation (click "B") (env_ok 2000) (trio_world [])).2 in
  only_calls w1 (handleConfirmation (click "B") (env_ok 3000) w1).2.
Proof.
  apply (confirming_twice_is_confirming_once (click "B") (env_ok 2000) (env_ok 3000)
           (trio_world [])).
  reflexivity.
Defined.

Lemma leave_refused_witness :
  only_calls (trio_world []) (handleLeaveLfg (click "A") (env_ok 2000) (trio_world [])).2.
Proof.
  apply (leave_refused (click "A") (env_ok 2000) (trio_world [])).
  intros s Hs. right. vm_compute in Hs. injection Hs as <-. reflexivity.
Defined.

Lemma leave_removes_the_player_witness :
  exists s',
    activeSessions (handleLeaveLfg (click "B") (env_ok 2000) (trio_world ["B"])).2
    = <["s1" := s']> (activeSessions (trio_world ["B"])) /\
    currentPlayers s' = ["A"; "C"] /\
    confirmedPlayers s' = [] /\
    status s' = waiting.
Proof.
  destruct (leave_removes_the_player (click "B") (env_ok 2000) (trio_world ["B"]) (trio ["B"]))
    as (_ & Hpost).
  - reflexivity.
  - apply (bool_decide_unpack _). reflexivity.
  - discriminate.
  - reflexivity.
  - rewrite bool_decide_false in Hpost by discriminate.
    destruct Hpost as (s' & Hreg & Hcur & Hconf & Hstatus & _).
    exists s'. repeat split; assumption.
Defined.

Lemma creator_decline_ends_the_session_witness :
  activeSessions (handleDecline (click "A") (env_ok 2000) (trio_world [])).2
  = delete "s1" (activeSessions (trio_world [])).
Proof.
  apply (creator_decline_ends_the_session (click "A") (env_ok 2000) (trio_world []) (trio [])).
  - reflexivity.
  - reflexivity.
  - apply (bool_decide_unpack _). reflexivity.
  - reflexivity.
Defined.


Lemma expired_session_is_torn_down_witness :
  activeSessions (expireSession "s1" (env_ok 2000) (trio_world [])).2
  = delete "s1" (activeSessions (trio_world [])).
Proof.
  apply (expired_session_is_torn_down "s1" (env_ok 2000) (trio_world []) (trio [])).
  reflexivity.
Defined.

Lemma endlfg_ends_the_creators_session_witness :
  (handleEndLfgCommand (click "A") (env_ok 2000) (trio_world [])).1 = Returned tt.
Proof.
  apply (endlfg_ends_the_creators_session (click "A") (env_ok 2000) (trio_world [])).
  exists "s1", (trio []). split; reflexivity.
Defined.

Lemma stored_world_keyed : rows_keyed stored_world.
Proof.
  intros sid row Hrow. unfold stored_world in Hrow. simpl in Hrow.
  apply lookup_singleton_Some in Hrow as [<- <-]. reflexivity.
Qed.

Lemma endlfg_recovers_a_stored_session_witness :
  (handleEndLfgCommand (click "A") (env_ok 2000) stored_world).1 = Returned tt.
Proof.
  apply (endlfg_recovers_a_stored_session (click "A") (env_ok 2000) stored_world).
  - apply env_ok_database_up.
  - exact stored_world_keyed.
  - intros sid s Hs. unfold stored_world in Hs. simpl in Hs.
    now rewrite lookup_empty in Hs.
  - exists "s1", pair_row. repeat split; reflexivity.
Defined.

Lemma endlfg_without_a_session_changes_nothing_witness :
  only_calls empty_world (handleEndLfgCommand (click "A") (env_ok 2000) empty_world).2.
Proof.
  apply (endlfg_without_a_session_changes_nothing (click "A") (env_ok 2000) empty_world).
  - intros sid s Hs. unfold empty_world in Hs. simpl in Hs. now rewrite lookup_empty in Hs.
  - intros sid row Hrow. unfold empty_world in Hrow. simpl in Hrow.
    now rewrite lookup_empty in Hrow.
Defined.

Lemma lfg_refused_witness :
  only_calls open_world (handleLfgCommand lfg_request lfg_options (env_ok 2000) open_world).2.
Proof.
  apply (lfg_refused lfg_request lfg_options (env_ok 2000) open_world).
  left. exists "s1", open_duo. split; [reflexivity|]. split; [discriminate | reflexivity].
Defined.


Lemma restart_restores_only_live_rows_witness :
  exists key row,
    lfg_sessions stored_world !! key = Some row /\
    db_isActive row = true /\
    (600000 < db_expiresAt row)%Z /\
    db_id row = "s1" /\
    set_timeoutId None (set_timeoutId (Some 0%nat) (restored_session pair_row))
    = restored_session row /\
    is_Some (timeoutId (set_timeoutId (Some 0%nat) (restored_session pair_row))).
Proof.
  apply (restart_restores_only_live_rows (env_ok 600000) stored_world "s1"
           (set_timeoutId (Some 0%nat) (restored_session pair_row))).
  vm_compute. reflexivity.
Defined.

Lemma parseDuration_reads_amount_and_unit_witness :
  parseDuration "10m" = 600000%Z.
Proof.
  apply (parseDuration_reads_amount_and_unit 10 "m" (60 * 1000) "").
  - reflexivity.
  - reflexivity.
Defined.

Lemma confirmation_is_recorded_witness :
  activeSessions (handleConfirmation (click "B") (env_ok 2000) (trio_world ["A"])).2
  = <["s1" := set_confirmedPlayers ["A"; "B"] (trio ["A"])]> (activeSessions (trio_world ["A"])).
Proof.
  destruct (confirmation_is_recorded (click "B") (env_ok 2000) (trio_world ["A"]) (trio ["A"]))
    as (Hreg & _).
  - reflexivity.
  - reflexivity.
  - apply (bool_decide_unpack _). reflexivity.
  - reflexivity.
  - apply (bool_decide_unpack _). reflexivity.
  - simpl. lia.
  - exact Hreg.
Defined.


Lemma join_is_persisted_witness :
  exists s' row',
    activeSessions (handleJoinLfg (click "B") (env_ok 1000) open_world).2 !! "s1" = Some s' /\
    lookup_active "s1" (lfg_sessions (handleJoinLfg (click "B") (env_ok 1000) open_world).2)
    = Some row' /\
    db_currentPlayers row' = currentPlayers s' /\
    db_status row' = status s' /\
    user_sessions (handleJoinLfg (click "B") (env_ok 1000) open_world).2 !! "B" = Some "s1".
Proof.
  destruct (join_is_persisted (click "B") (env_ok 1000) open_world open_duo open_duo_row)
    as (s' & row' & Hs & Hrow & Hplayers & Hstatus & _ & Hmember).
  - apply env_ok_database_up.
  - reflexivity.
  - reflexivity.
  - reflexivity.
  - apply (bool_decide_unpack _). reflexivity.
  - reflexivity.
  - intros key other Hother Hid. unfold open_world in Hother. simpl in Hother.
    apply lookup_singleton_Some in Hother as [<- <-]. now destruct Hid.
  - exists s', row'. repeat split; assumption.
Defined.
